(** * Bank portal chatbot: the matcher, the entity extractor and the chat turn

    A shallow embedding of [app.py]: the text normaliser, the three-stage
    intent matcher, the entity extractor, the deduplicating corpus append and
    the chat turn, with the properties of the design document proved (or
    refuted) on the embedding.

    Python [str] values are modelled as [list ascii], one [ascii] per code
    point, for the code points U+0000..U+00FF.  On that range the character
    classes below are the ones of CPython 3: [str.isspace], [str.lower],
    [str.upper], and the [re] classes [\d], [\w] and [[A-Za-z]] for [str]
    patterns.  Above it the classes of Python go on: [\d] takes in the
    decimal digits of every script, which [normalize_text] drops like any
    other character outside a-z and 0-9.  The statements below are about
    texts of the range; where a statement needs a text without digits, it
    says so by the digit runs that [\d+] finds, not by the normal form. *)

From Stdlib Require Import Ascii String NArith Bool Arith Lia.
From stdpp Require Import base decidable option list gmap strings.

Local Open Scope N_scope.
Local Open Scope list_scope.

Abbreviation pystr := (list ascii).

(** A Python string literal. *)
Definition py (s : string) : pystr := list_ascii_of_string s.

(** ** Characters *)
Module Char.

Definition code (c : ascii) : N := N_of_ascii c.

Definition between (lo hi : N) (c : ascii) : bool :=
  (lo <=? code c) && (code c <=? hi).

(** [str.isspace], which [strip()] and [split()] use: TAB..CR, FS..US,
    space, NEL and the no-break space. *)
Definition is_space (c : ascii) : bool :=
  between 9 13 c || between 28 32 c || (code c =? 133) || (code c =? 160).

(** [\d] of a [str] pattern: the decimal digits. *)
Definition is_digit (c : ascii) : bool := between 48 57 c.

Definition is_ascii_lower (c : ascii) : bool := between 97 122 c.
Definition is_ascii_upper (c : ascii) : bool := between 65 90 c.

(** [[A-Za-z]]. *)
Definition is_ascii_alpha (c : ascii) : bool :=
  is_ascii_upper c || is_ascii_lower c.

(** Upper-case letters of Latin-1: A-Z and U+00C0..U+00DE except the
    multiplication sign U+00D7. *)
Definition is_upper (c : ascii) : bool :=
  is_ascii_upper c || (between 192 222 c && negb (code c =? 215)).

(** Lower-case letters whose upper case is again a single code point
    below U+0100: a-z and U+00E0..U+00FE except the division sign. *)
Definition is_lower_simple (c : ascii) : bool :=
  is_ascii_lower c || (between 224 254 c && negb (code c =? 247)).

(** [\w] of a [str] pattern: alphanumeric ([str.isalnum]) or underscore.
    Beyond ASCII this takes in the ordinal indicators, the micro sign, the
    superscript digits and vulgar fractions, and the Latin-1 letters. *)
Definition is_word (c : ascii) : bool :=
  is_digit c || is_ascii_alpha c || (code c =? 95)
  || (code c =? 170) || (code c =? 178) || (code c =? 179)
  || (code c =? 181) || (code c =? 185) || (code c =? 186)
  || between 188 190 c
  || (between 192 255 c && negb (code c =? 215) && negb (code c =? 247)).

Definition lower (c : ascii) : ascii :=
  if is_upper c then ascii_of_N (code c + 32) else c.

(** [str.upper] on one character.  Three code points are left as they are:
    the micro sign and y-diaeresis, whose upper case lies above U+00FF, and
    the sharp s, whose upper case is the two letters SS.  The only use of
    [upper] is a comparison of the result with the keys [ACCOUNT_NUMBER],
    [MONEY] and [PERSON]; none of them holds SS or a code point above
    U+007F, so the comparison is false in Python and here alike. *)
Definition upper (c : ascii) : ascii :=
  if is_lower_simple c then ascii_of_N (code c - 32) else c.

(** The characters [normalize_text] keeps:
    [set(string.ascii_lowercase + string.digits + ' ')]. *)
Definition allowed (c : ascii) : bool :=
  is_ascii_lower c || is_digit c || (code c =? 32).

End Char.

(** ** Strings *)
Module Str.

Definition lower (s : pystr) : pystr := Char.lower <$> s.
Definition upper (s : pystr) : pystr := Char.upper <$> s.

Fixpoint lstrip (s : pystr) : pystr :=
  match s with
  | c :: s' => if Char.is_space c then lstrip s' else s
  | [] => []
  end.

Definition rstrip (s : pystr) : pystr := reverse (lstrip (reverse s)).

(** [s.strip()] *)
Definition strip (s : pystr) : pystr := rstrip (lstrip s).

(** [s.startswith(p)] *)
Fixpoint starts_with (p s : pystr) : bool :=
  match p, s with
  | [], _ => true
  | a :: p', b :: s' => bool_decide (a = b) && starts_with p' s'
  | _ :: _, [] => false
  end.

(** [sub in s] *)
Fixpoint contains (s sub : pystr) : bool :=
  starts_with sub s
  || match s with
     | [] => false
     | _ :: s' => contains s' sub
     end.

(** [c in s] for a single character. *)
Definition has_char (c : ascii) (s : pystr) : bool :=
  existsb (fun x => bool_decide (x = c)) s.

(** [s.replace(old, new)] for a non-empty [old]: occurrences are replaced
    from the left and do not overlap.  [skip] counts the characters of an
    occurrence that are still to be passed over. *)
Fixpoint replace_go (old new : pystr) (skip : nat) (s : pystr) : pystr :=
  match s with
  | [] => []
  | c :: s' =>
      match skip with
      | S k => replace_go old new k s'
      | O =>
          if starts_with old s
          then new ++ replace_go old new (Nat.pred (length old)) s'
          else c :: replace_go old new 0 s'
      end
  end.

Definition replace (old new s : pystr) : pystr := replace_go old new 0 s.

Definition cons_nonempty (r : pystr) (rs : list pystr) : list pystr :=
  match r with
  | [] => rs
  | _ => r :: rs
  end.

(** The maximal runs of characters of class [p], from left to right.
    [runs_aux] returns the run that starts at the head of the string
    (empty when the head is not of the class) and the runs after it. *)
Fixpoint runs_aux (p : ascii -> bool) (s : pystr) : pystr * list pystr :=
  match s with
  | [] => ([], [])
  | c :: s' =>
      let '(r, rs) := runs_aux p s' in
      if p c then (c :: r, rs) else ([], cons_nonempty r rs)
  end.

Definition runs (p : ascii -> bool) (s : pystr) : list pystr :=
  let '(r, rs) := runs_aux p s in cons_nonempty r rs.

(** [s.split()]: the maximal runs of non-whitespace characters. *)
Definition split (s : pystr) : list pystr :=
  runs (fun c => negb (Char.is_space c)) s.

(** [sep.join(l)] *)
Fixpoint join (sep : pystr) (l : list pystr) : pystr :=
  match l with
  | [] => []
  | [x] => x
  | x :: l' => x ++ sep ++ join sep l'
  end.

(** [s.split(d)] for a one-character separator: never an empty list. *)
Fixpoint split_on (d : ascii) (s : pystr) : list pystr :=
  match s with
  | [] => [[]]
  | c :: s' =>
      if bool_decide (c = d) then [] :: split_on d s'
      else match split_on d s' with
           | r :: rs => (c :: r) :: rs
           | [] => [[c]]
           end
  end.

(** [key, val = p.split(d, 1)] for a [p] that holds [d]: the text before
    the first [d] and the text after it. *)
Fixpoint split_once (d : ascii) (p : pystr) : pystr * pystr :=
  match p with
  | [] => ([], [])
  | c :: p' =>
      if bool_decide (c = d) then ([], p')
      else let '(k, v) := split_once d p' in (c :: k, v)
  end.

Definition nonempty (s : pystr) : bool :=
  match s with
  | [] => false
  | _ => true
  end.

End Str.

(** ** Regular expressions of the source *)
Module Re.

(** [re.findall(r'\d+', s)] *)
Definition findall_digits (s : pystr) : list pystr := Str.runs Char.is_digit s.

(** [re.search(r'\d+', s)] as a truth value. *)
Definition has_digit (s : pystr) : bool := existsb Char.is_digit s.

Definition is_word_opt (c : option ascii) : bool :=
  match c with
  | Some x => Char.is_word x
  | None => false
  end.

(** [\b] between [prev] and [next] ([None] at either end of the text):
    exactly one side is a word character. *)
Definition boundary (prev next : option ascii) : bool :=
  xorb (is_word_opt prev) (is_word_opt next).

(** [(cls{lo,})\b] matched at the head of [s], greedily and with
    backtracking: the longest run is tried first, then shorter ones, and a
    candidate of [n] characters is taken when [lo <= n] and a word boundary
    follows it.  [n] characters are already consumed and [prev] is the
    character before [s]. *)
Fixpoint greedy (cls : ascii -> bool) (lo n : nat) (prev : option ascii)
    (s : pystr) : option pystr :=
  let stop := if (lo <=? n)%nat && boundary prev (head s) then Some [] else None in
  match s with
  | c :: s' =>
      if cls c then
        match greedy cls lo (S n) (Some c) s' with
        | Some r => Some (c :: r)
        | None => stop
        end
      else stop
  | [] => stop
  end.

(** [re.search(r'\b(cls{lo,})\b', text)]: the leftmost position at which
    the pattern matches, and group 1 there. *)
Fixpoint search_go (cls : ascii -> bool) (lo : nat) (prev : option ascii)
    (s : pystr) : option pystr :=
  match (if boundary prev (head s) then greedy cls lo 0 prev s else None) with
  | Some r => Some r
  | None =>
      match s with
      | [] => None
      | c :: s' => search_go cls lo (Some c) s'
      end
  end.

Definition search_bounded (cls : ascii -> bool) (lo : nat) (text : pystr)
    : option pystr :=
  search_go cls lo None text.

Fixpoint take_digits (s : pystr) : pystr :=
  match s with
  | c :: s' => if Char.is_digit c then c :: take_digits s' else []
  | [] => []
  end.

(** [re.search(r'MONEY:(\d+)', s)]: group 1 of the leftmost match. *)
Fixpoint search_money (s : pystr) : option pystr :=
  let here :=
    if Str.starts_with (py "MONEY:") s
    then match take_digits (drop 6 s) with
         | [] => None
         | d => Some d
         end
    else None in
  match here with
  | Some d => Some d
  | None =>
      match s with
      | [] => None
      | _ :: s' => search_money s'
      end
  end.

End Re.

(** ** The normaliser *)

(** [normalize_text(s)] *)
Definition normalize_text (s : pystr) : pystr :=
  match s with
  | [] => []
  | _ =>
      let s := Str.strip (Str.lower s) in
      let s := Str.replace (py "i'm") (py "i am")
                 (Str.replace (py "it's") (py "it is")
                    (Str.replace (py "what's") (py "what is") s)) in
      let s := List.filter Char.allowed s in
      Str.join (py " ") (Str.split s)
  end.

(** ** Normal forms of the normaliser *)

(** A character of a normalised token: a lower-case letter or a digit. *)
Definition tokchar (c : ascii) : bool := Char.is_ascii_lower c || Char.is_digit c.

(** A normalised token: one or more lower-case letters and digits. *)
Definition token (t : pystr) : Prop :=
  t <> [] /\ Forall (fun c => tokchar c = true) t.

(** The normal forms: tokens separated by single spaces. *)
Definition normal_form (s : pystr) : Prop :=
  exists toks, Forall token toks /\ s = Str.join (py " ") toks.

(** ** The corpus *)

(** A row of [dataset]: a Python dict read by [row.get]; a key may be
    missing, and [row.get(k)] is then [None]. *)
Record Row := {
  r_text : option pystr;
  r_intent : option pystr;
  r_response : option pystr;
  r_entities : option pystr
}.

(** [row.get(k) or ''] and [row.get(k, '')] on a row whose values are strings. *)
Definition get_str (v : option pystr) : pystr := default [] v.

(** The dict that [find_intent_response] returns. *)
Record MatchResult := {
  m_intent : pystr;
  m_response : pystr;
  m_entities : pystr
}.

Definition result_of (row : Row) : MatchResult :=
  {| m_intent := get_str (r_intent row);
     m_response := get_str (r_response row);
     m_entities := get_str (r_entities row) |}.

(** ** The matcher *)

(** [row_norm] of the loops of stages 1 and 3. *)
Definition row_norm (row : Row) : pystr :=
  let row_text := Str.lower (Str.strip (get_str (r_text row))) in
  normalize_text row_text.

(** Stage 1: [row_norm and row_norm == message_norm]. *)
Definition exact_hit (message_norm : pystr) (row : Row) : bool :=
  Str.nonempty (row_norm row) && bool_decide (row_norm row = message_norm).

(** Stage 2, the test on one part [p] of the entities of a row. *)
Definition value_hit (user_message : pystr) (message_digits : list pystr)
    (digits_concat : pystr) (p : pystr) : bool :=
  let '(_, val) := Str.split_once ":" p in
  let val := Str.strip val in
  Str.nonempty val && Re.has_digit val
  && (Str.contains user_message val
      || Str.contains digits_concat val
      || existsb (fun d => bool_decide (val = d)) message_digits).

(** Stage 2, the body of the loop for one row. *)
Definition numeric_hit (user_message : pystr) (row : Row) : bool :=
  let message_digits := Re.findall_digits user_message in
  let digits_concat := concat message_digits in
  let entities := Str.strip (get_str (r_entities row)) in
  (Str.contains entities (py "ACCOUNT_NUMBER") || Str.contains entities (py "MONEY"))
  && existsb (value_hit user_message message_digits digits_concat)
       (List.filter (Str.has_char ":") (Str.split_on "|" entities)).

(** [set(s.split())] *)
Definition tokens (s : pystr) : gset pystr := list_to_set (Str.split s).

(** Stage 3, one turn of the loop on [(best_row, best_score)]. *)
Definition overlap_step (msg_tokens : gset pystr) (best : option Row * nat)
    (row : Row) : option Row * nat :=
  if Str.nonempty (row_norm row) then
    let row_tokens := tokens (row_norm row) in
    let overlap := size (msg_tokens ∩ row_tokens) in
    let score := overlap in
    if (best.2 <? score)%nat then (Some row, score) else best
  else best.

Definition best_overlap (msg_tokens : gset pystr) (dataset : list Row)
    : option Row * nat :=
  fold_left (overlap_step msg_tokens) dataset (None, 0%nat).

(** [find_intent_response(user_message)], with the global [dataset] as an
    argument.  A [best_row] that is set has a text and so is a non-empty
    dict: [if best_row and ...] tests that it is set. *)
Definition find_intent_response (user_message : pystr) (dataset : list Row)
    : option MatchResult :=
  match user_message with
  | [] => None
  | _ =>
      let message_norm := normalize_text user_message in
      match find (exact_hit message_norm) dataset with
      | Some row => Some (result_of row)
      | None =>
          match find (numeric_hit user_message) dataset with
          | Some row => Some (result_of row)
          | None =>
              let '(best_row, best_score) :=
                best_overlap (tokens message_norm) dataset in
              match best_row with
              | Some row =>
                  if (1 <=? best_score)%nat then Some (result_of row) else None
              | None => None
              end
          end
      end
  end.

(** ** The entity extractor *)

(** The [entities] dict: the three keys the code ever sets. *)
Record Entities := {
  account_number : option pystr;
  amount : option pystr;
  person : option pystr
}.

Definition no_entities : Entities :=
  {| account_number := None; amount := None; person := None |}.

Definition set_account_number (v : pystr) (e : Entities) : Entities :=
  {| account_number := Some v; amount := amount e; person := person e |}.
Definition set_amount (v : pystr) (e : Entities) : Entities :=
  {| account_number := account_number e; amount := Some v; person := person e |}.
Definition set_person (v : pystr) (e : Entities) : Entities :=
  {| account_number := account_number e; amount := amount e; person := Some v |}.

(** The body of the loop over [entities_str.split('|')]. *)
Definition annotate (entities : Entities) (ent : pystr) : Entities :=
  if Str.has_char ":" ent then
    let '(key, val) := Str.split_once ":" ent in
    let key := Str.upper (Str.strip key) in
    let val := Str.strip val in
    if bool_decide (key = py "ACCOUNT_NUMBER") && Str.nonempty val
    then set_account_number val entities
    else if bool_decide (key = py "MONEY") && Str.nonempty val
    then set_amount val entities
    else if bool_decide (key = py "PERSON") && Str.nonempty val
    then set_person val entities
    else entities
  else entities.

(** [extract_entities(text, entities_str)] *)
Definition extract_entities (text entities_str : pystr) : Entities :=
  match entities_str with
  | [] => no_entities
  | _ =>
      let entities := fold_left annotate (Str.split_on "|" entities_str) no_entities in
      let entities :=
        match account_number entities with
        | None =>
            match Re.search_bounded Char.is_digit 6 text with
            | Some m => set_account_number m entities
            | None => entities
            end
        | Some _ => entities
        end in
      let entities :=
        match amount entities with
        | None =>
            match Re.search_bounded Char.is_digit 1 text with
            | Some m => set_amount m entities
            | None => entities
            end
        | Some _ => entities
        end in
      match person entities with
      | None =>
          match Re.search_bounded Char.is_ascii_alpha 2 text with
          | Some m => set_person m entities
          | None => entities
          end
      | Some _ => entities
      end
  end.

(** [get_intent_color(intent)] *)
Definition intent_colors : list (pystr * pystr) :=
  [ (py "greet", py "#4CAF50"); (py "goodbye", py "#FF9800");
    (py "check_balance", py "#2196F3"); (py "transaction_inquiry", py "#9C27B0");
    (py "loan_inquiry", py "#F44336"); (py "card_inquiry", py "#00BCD4");
    (py "block_card", py "#E91E63"); (py "branch_locator", py "#795548");
    (py "transfer_money", py "#FF5722"); (py "thanks", py "#8BC34A");
    (py "out_of_scope", py "#757575") ].

Definition get_intent_color (intent : pystr) : pystr :=
  match find (fun kv => bool_decide (kv.1 = intent)) intent_colors with
  | Some kv => kv.2
  | None => py "#757575"
  end.

(** ** The corpus append *)

(** What a Python call does: it returns a value or raises. *)
Inductive outcome (A : Type) : Type :=
  | Returned (a : A)
  | Raised.
Arguments Returned {A} a.
Arguments Raised {A}.

(** The file system as [append_to_dataset_row] meets it: all goes well, or
    [os.makedirs] / [os.path.getsize] raises before the duplicate check, or
    opening or writing the file raises, having added [residue] (possibly
    nothing) to the file. *)
Inductive io_outcome : Type :=
  | IoOk
  | IoErrEarly
  | IoErrWrite (residue : list (list pystr)).

(** The in-memory [dataset] and the records of the CSV file behind it. *)
Record Store := {
  dataset : list Row;
  csv_log : list (list pystr)
}.

Definition mk_row (text intent response entities_str : pystr) : Row :=
  {| r_text := Some text; r_intent := Some intent;
     r_response := Some response; r_entities := Some entities_str |}.

(** The duplicate test of [append_to_dataset_row] on one row. *)
Definition same_key (text intent entities_str : pystr) (row : Row) : bool :=
  bool_decide (r_text row = Some text)
  && bool_decide (r_intent row = Some intent)
  && bool_decide (r_entities row = Some entities_str).

Definition csv_header : list pystr :=
  [py "text"; py "intent"; py "response"; py "entities"].

(** [append_to_dataset_row(text, intent, response, entities_str)] *)
Definition append_to_dataset_row (io : io_outcome)
    (text intent response entities_str : pystr) (st : Store)
    : Store * outcome bool :=
  match io with
  | IoErrEarly => (st, Raised)
  | _ =>
      let file_exists := match csv_log st with [] => false | _ => true end in
      if existsb (same_key text intent entities_str) (dataset st)
      then (st, Returned false)
      else
        match io with
        | IoErrWrite residue =>
            ({| dataset := dataset st; csv_log := csv_log st ++ residue |}, Raised)
        | _ =>
            let header := if file_exists then [] else [csv_header] in
            ({| dataset := dataset st ++ [mk_row text intent response entities_str];
                csv_log := csv_log st ++ header
                           ++ [[text; intent; response; entities_str]] |},
             Returned true)
        end
  end.

(** ** The chat turn *)

(** [f"💰 Your balance is {v}."]; the money-bag sign, U+1F4B0, is above the
    code points of the model and is carried as the four bytes of its UTF-8
    form.  The reply is only ever stripped, searched for digits and stored,
    and none of the four is a digit or white space. *)
Definition balance_reply (v : pystr) : pystr :=
  py "💰 Your balance is " ++ v ++ py ".".

Definition out_of_scope_reply : pystr :=
  py "I can only assist with banking questions. Try asking about balance, transfers, loans, or cards.".

(** Truth value of [d.get(k)] for a string-valued key. *)
Definition truthy (v : option pystr) : bool :=
  match v with
  | Some s => Str.nonempty s
  | None => false
  end.

(** The loop over [dataset] that pairs an account number with a
    [MONEY] value: the first row whose entities hold
    [ACCOUNT_NUMBER:<acct>] and [MONEY:] and match [MONEY:(\d+)]. *)
Fixpoint paired_money (acct : pystr) (dataset : list Row) : option pystr :=
  match dataset with
  | [] => None
  | row :: rest =>
      let ents := get_str (r_entities row) in
      if Str.contains ents (py "ACCOUNT_NUMBER:" ++ acct)
         && Str.contains ents (py "MONEY:")
      then match Re.search_money ents with
           | Some m => Some m
           | None => paired_money acct rest
           end
      else paired_money acct rest
  end.

(** The reply of a matched turn (the part of [chat] from "Primary reply from
    dataset" to "ensure bot_reply is at least an empty string"), with the
    entities as that part leaves them. *)
Definition synthesize (result : MatchResult) (entities : Entities)
    (user_message : pystr) (dataset : list Row) : pystr * Entities :=
  let bot_reply := Str.strip (m_response result) in
  let '(bot_reply, entities) :=
    if Str.nonempty bot_reply then (bot_reply, entities)
    else if truthy (amount entities)
    then (balance_reply (default [] (amount entities)), entities)
    else
      let acct := default [] (account_number entities) in
      if Str.nonempty acct then
        match paired_money acct dataset with
        | Some m => (balance_reply m, set_amount m entities)
        | None => (bot_reply, entities)
        end
      else (bot_reply, entities) in
  let bot_reply :=
    if Str.nonempty bot_reply then bot_reply
    else match Re.findall_digits user_message with
         | d :: _ => balance_reply d
         | [] => bot_reply
         end in
  (bot_reply, entities).

(** The entities annotation of the row a matched turn adds to the corpus. *)
Definition derive_entities_str (entities : Entities) (bot_reply : pystr) : pystr :=
  let add_entities :=
    match amount entities with
    | Some a => [py "MONEY:" ++ a]
    | None => []
    end
    ++ match account_number entities with
       | Some a => [py "ACCOUNT_NUMBER:" ++ a]
       | None => []
       end in
  let entities_str := Str.join (py "|") add_entities in
  let reply_digits := Re.findall_digits bot_reply in
  match Str.nonempty entities_str, reply_digits with
  | false, d :: _ => py "MONEY:" ++ d
  | _, _ => entities_str
  end.

(** One entry of a user's [conversations]. *)
Record Conversation := {
  c_user : pystr;
  c_bot : pystr;
  c_intent : pystr
}.

(** The JSON body that [chat] returns. *)
Record ChatReply := {
  reply : pystr;
  intent : pystr;
  intent_color : pystr
}.

(** A JSON value as [request.json] gives it: [None], a [bool], a number
    (by its text), a [str], a [list], or a [dict] (by its members in the
    order of the text; the last member of a name is its value). *)
#[local] Unset Elimination Schemes.
Inductive JValue : Type :=
  | JNull
  | JBool (b : bool)
  | JNumber (text : pystr)
  | JString (s : pystr)
  | JArray (items : list JValue)
  | JObject (members : list (pystr * JValue)).
#[local] Set Elimination Schemes.

(** [d.get(k)] on the dict of a JSON object. *)
Definition dict_get (k : pystr) (members : list (pystr * JValue)) : option JValue :=
  snd <$> last (List.filter (fun kv => bool_decide (kv.1 = k)) members).

(** [request.json.get('message', '').strip()], line 346 of [chat]: [body]
    is the value of [request.json], or [None] when the request has no JSON
    to read and [request.json] raises.  A value without a method [get] (all
    but a [dict]), and a message without a method [strip] (all but a
    [str]), raise [AttributeError]; the default [''] stands in for a
    missing key only, not for the value [null]. *)
Definition message_of (body : option JValue) : outcome pystr :=
  match body with
  | Some (JObject members) =>
      match default (JString []) (dict_get (py "message") members) with
      | JString s => Returned (Str.strip s)
      | _ => Raised
      end
  | _ => Raised
  end.

Section Turn.

(** The type of an account balance ([db.Float]), which the turn only
    copies. *)
Context {Balance : Type}.

(** The columns of the [User] table that [chat] reads. *)
Record User := {
  u_account_number : pystr;
  u_balance : Balance
}.

(** A value of [user_data]: the dict of one user. *)
Record UserFacts := {
  uf_account_number : pystr;
  uf_balance : Balance;
  uf_amount : option pystr;
  uf_person : option pystr;
  uf_last_amount : option pystr;
  uf_last_recipient : option pystr;
  uf_conversations : list Conversation
}.

(** The state the turn reads and writes: the corpus, [user_data], and
    the content [save_user_data] last wrote to the user file. *)
Record State := {
  store : Store;
  user_data : gmap pystr UserFacts;
  user_file : gmap pystr UserFacts
}.

Definition new_facts (user : User) : UserFacts :=
  {| uf_account_number := u_account_number user;
     uf_balance := u_balance user;
     uf_amount := None; uf_person := None;
     uf_last_amount := None; uf_last_recipient := None;
     uf_conversations := [] |}.

Definition keep (old : option pystr) (new : option pystr) : option pystr :=
  match new with
  | Some v => Some v
  | None => old
  end.

(** [if entities:] with [update(entities)] and the three copies after it. *)
Definition merge_entities (entities : Entities) (u : UserFacts) : UserFacts :=
  match account_number entities, amount entities, person entities with
  | None, None, None => u
  | _, _, _ =>
      {| uf_account_number := default (uf_account_number u) (account_number entities);
         uf_balance := uf_balance u;
         uf_amount := keep (uf_amount u) (amount entities);
         uf_person := keep (uf_person u) (person entities);
         uf_last_amount := keep (uf_last_amount u) (amount entities);
         uf_last_recipient := keep (uf_last_recipient u) (person entities);
         uf_conversations := uf_conversations u |}
  end.

(** [conversations.append({'user': .., 'bot': .., 'intent': ..})] *)
Definition add_conversation (c : Conversation) (u : UserFacts) : UserFacts :=
  {| uf_account_number := uf_account_number u;
     uf_balance := uf_balance u;
     uf_amount := uf_amount u;
     uf_person := uf_person u;
     uf_last_amount := uf_last_amount u;
     uf_last_recipient := uf_last_recipient u;
     uf_conversations := uf_conversations u ++ [c] |}.

(** [save_user_data(user_data)] *)
Definition save_user_data (st : State) : State :=
  {| store := store st; user_data := user_data st; user_file := user_data st |}.

(** The turn of [chat] for a request that the route accepts: a logged-in
    session, a message that is a string, a row of the [User] table for the
    user, and a user file that can be written.  [user_id_str] is
    [str(session['user_id'])], [user] the row of the [User] table for
    it, [message] the value of the key [message] of the JSON body if the
    key is there, and [io] what the file system does if the corpus file
    is written.  An exception of [append_to_dataset_row] is caught
    ([except Exception: pass]): either way the turn goes on with the store
    the call left.  The requests on which the route raises are those of
    [chat] below, which is this turn on the others. *)
Definition chat_turn (io : io_outcome) (user_id_str : pystr) (user : User)
    (message : option pystr) (st : State) : State * outcome ChatReply :=
  let user_message := Str.strip (default [] message) in
  let facts := default (new_facts user) (user_data st !! user_id_str) in
  match find_intent_response user_message (dataset (store st)) with
  | Some result =>
      let intent := m_intent result in
      let intent_color := get_intent_color intent in
      let entities := extract_entities user_message (m_entities result) in
      let '(bot_reply, entities) :=
        synthesize result entities user_message (dataset (store st)) in
      let facts := merge_entities entities facts in
      let facts :=
        add_conversation
          {| c_user := user_message; c_bot := bot_reply; c_intent := intent |}
          facts in
      let data := <[user_id_str := facts]> (user_data st) in
      let entities_str := derive_entities_str entities bot_reply in
      let store' :=
        if Str.nonempty entities_str then
          match append_to_dataset_row io user_message intent bot_reply
                  entities_str (store st) with
          | (s', Returned _) => s'
          | (s', Raised) => s'
          end
        else store st in
      ({| store := store'; user_data := data; user_file := data |},
       Returned
         {| reply := bot_reply; intent := intent; intent_color := intent_color |})
  | None =>
      let bot_reply := out_of_scope_reply in
      let intent := py "out_of_scope" in
      let intent_color := get_intent_color intent in
      let facts :=
        add_conversation
          {| c_user := user_message; c_bot := bot_reply; c_intent := intent |}
          facts in
      let data := <[user_id_str := facts]> (user_data st) in
      ({| store := store st; user_data := data; user_file := data |},
       Returned
         {| reply := bot_reply; intent := intent; intent_color := intent_color |})
  end.

(** What the route answers: the 401 of the session guard, or the JSON
    body of the turn. *)
Inductive response : Type :=
  | Unauthorized
  | Json (r : ChatReply).

(** What [save_user_data] does: it writes the file, or it raises (the
    file cannot be opened or written), the file then holding [rest]. *)
Inductive save_outcome : Type :=
  | SaveOk
  | SaveErr (rest : gmap pystr UserFacts).

(** The record of the user that the turn works on: the one of
    [user_data], or a new one made from the row [user] of the [User] table
    ([User.query.get] gives [None] when the table has no such row, and
    [user.account_number] then raises). *)
Definition facts_of (user_id_str : pystr) (user : option User) (st : State)
    : outcome UserFacts :=
  match user_data st !! user_id_str with
  | Some facts => Returned facts
  | None =>
      match user with
      | Some u => Returned (new_facts u)
      | None => Raised
      end
  end.

(** [chat()], the whole route.  [session] is [str(session['user_id'])] if
    the session has the key, [user] the result of [User.query.get], [body]
    the value of [request.json], [io] what the file system does if the
    corpus file is written and [save] what it does when the user file is.
    An exception leaves the route at line 346 (no JSON object, or a
    message that is no string), at the set-up of a new record without a
    row of the table, or in [save_user_data], which comes after the changes
    to [user_data] and before the corpus append; an exception of
    [append_to_dataset_row] is caught ([except Exception: pass]).  The
    query of the table is taken to answer, and the records of [user_data]
    to have the keys that this route gives them. *)
Definition chat (io : io_outcome) (save : save_outcome) (session : option pystr)
    (user : option User) (body : option JValue) (st : State)
    : State * outcome response :=
  match session with
  | None => (st, Returned Unauthorized)
  | Some user_id_str =>
      match message_of body with
      | Raised => (st, Raised)
      | Returned user_message =>
          match facts_of user_id_str user st with
          | Raised => (st, Raised)
          | Returned facts =>
              match find_intent_response user_message (dataset (store st)) with
              | Some result =>
                  let intent := m_intent result in
                  let intent_color := get_intent_color intent in
                  let entities := extract_entities user_message (m_entities result) in
                  let '(bot_reply, entities) :=
                    synthesize result entities user_message (dataset (store st)) in
                  let facts := merge_entities entities facts in
                  let facts :=
                    add_conversation
                      {| c_user := user_message; c_bot := bot_reply; c_intent := intent |}
                      facts in
                  let data := <[user_id_str := facts]> (user_data st) in
                  match save with
                  | SaveErr rest =>
                      ({| store := store st; user_data := data; user_file := rest |},
                       Raised)
                  | SaveOk =>
                      let entities_str := derive_entities_str entities bot_reply in
                      let store' :=
                        if Str.nonempty entities_str then
                          match append_to_dataset_row io user_message intent bot_reply
                                  entities_str (store st) with
                          | (s', Returned _) => s'
                          | (s', Raised) => s'
                          end
                        else store st in
                      ({| store := store'; user_data := data; user_file := data |},
                       Returned
                         (Json {| reply := bot_reply; intent := intent;
                                  intent_color := intent_color |}))
                  end
              | None =>
                  let bot_reply := out_of_scope_reply in
                  let intent := py "out_of_scope" in
                  let intent_color := get_intent_color intent in
                  let facts :=
                    add_conversation
                      {| c_user := user_message; c_bot := bot_reply; c_intent := intent |}
                      facts in
                  let data := <[user_id_str := facts]> (user_data st) in
                  match save with
                  | SaveErr rest =>
                      ({| store := store st; user_data := data; user_file := rest |},
                       Raised)
                  | SaveOk =>
                      ({| store := store st; user_data := data; user_file := data |},
                       Returned
                         (Json {| reply := bot_reply; intent := intent;
                                  intent_color := intent_color |}))
                  end
              end
          end
      end
  end.

End Turn.

(** * The design's statements, in its own words *)

(** The normaliser as the design describes it, step by step: lower-case
    and trim; expand the fixed contractions; drop every character outside
    a-z, 0-9 and the space; collapse the runs of spaces, those at the ends
    to nothing. *)
Definition expand_contractions (s : pystr) : pystr :=
  Str.replace (py "i'm") (py "i am")
    (Str.replace (py "it's") (py "it is")
       (Str.replace (py "what's") (py "what is") s)).

Definition drop_foreign (s : pystr) : pystr :=
  List.filter
    (fun c => Char.is_ascii_lower c || Char.is_digit c || bool_decide (c = " "%char)) s.

Definition collapse_spaces (s : pystr) : pystr :=
  Str.join (py " ") (List.filter Str.nonempty (Str.split_on " " s)).

Definition normalize_claimed (x : pystr) : pystr :=
  collapse_spaces (drop_foreign (expand_contractions (Str.strip (Str.lower x)))).

(** Stage 1: the normalised text of the row is non-empty and equals the
    normalised utterance. *)
Definition exact_match (user_message : pystr) (row : Row) : Prop :=
  normalize_text (get_str (r_text row)) <> []
  /\ normalize_text (get_str (r_text row)) = normalize_text user_message.

(** The values of an entities annotation: the segments between ['|'] that
    hold a [':'], each cut at its first [':'] and the right part trimmed. *)
Definition annotation_values (entities : pystr) : list pystr :=
  map (fun p => Str.strip (Str.split_once ":" p).2)
    (List.filter (Str.has_char ":") (Str.split_on "|" entities)).

(** The entities field contains the substring [ACCOUNT_NUMBER] or [MONEY]. *)
Definition names_number (entities : pystr) : bool :=
  Str.contains entities (py "ACCOUNT_NUMBER") || Str.contains entities (py "MONEY").

(** Stage 2 as the design states it: some value is non-empty, holds a digit,
    and is a substring of the raw utterance, or equals the concatenation of
    all digit runs of the utterance, or equals one of the runs. *)
Definition numeric_match_claimed (user_message : pystr) (row : Row) : bool :=
  let entities := get_str (r_entities row) in
  let digit_runs := Re.findall_digits user_message in
  names_number entities
  && existsb (fun val =>
                Str.nonempty val && Re.has_digit val
                && (Str.contains user_message val
                    || bool_decide (val = concat digit_runs)
                    || bool_decide (val ∈ digit_runs)))
       (annotation_values entities).

(** Stage 2 with the second alternative as the code has it: the value is a
    substring of the concatenation of the digit runs. *)
Definition numeric_match (user_message : pystr) (row : Row) : bool :=
  let entities := get_str (r_entities row) in
  let digit_runs := Re.findall_digits user_message in
  names_number entities
  && existsb (fun val =>
                Str.nonempty val && Re.has_digit val
                && (Str.contains user_message val
                    || Str.contains (concat digit_runs) val
                    || bool_decide (val ∈ digit_runs)))
       (annotation_values entities).

(** Stage 3: the number of tokens that the normalised text of the row and
    the normalised utterance share. *)
Definition overlap (user_message : pystr) (row : Row) : nat :=
  size (tokens (normalize_text (get_str (r_text row)))
        ∩ tokens (normalize_text user_message)).

(** The character that stands before the end of [a], when [prev] stands
    before [a]. *)
Definition last_or (prev : option ascii) (a : pystr) : option ascii :=
  match last a with
  | Some c => Some c
  | None => prev
  end.

(** [text] is [a ++ r ++ b], where [r] is a run of [lo] or more characters of
    class [cls] that starts and ends at a word boundary.  [prev] is the
    character before [text], if any. *)
Definition bounded_run_after (prev : option ascii) (cls : ascii -> bool) (lo : nat)
    (text a r b : pystr) : Prop :=
  text = a ++ r ++ b
  /\ Forall (fun c => cls c = true) r
  /\ (lo <= length r)%nat
  /\ Re.boundary (last_or prev a) (head (r ++ b)) = true
  /\ Re.boundary (last_or prev (a ++ r)) (head b) = true.

Definition bounded_run := bounded_run_after None.

(** [o] is the first such run of [text], and the longest one at its place;
    or there is none. *)
Definition first_bounded_run_after (prev : option ascii) (cls : ascii -> bool)
    (lo : nat) (text : pystr) (o : option pystr) : Prop :=
  match o with
  | Some r =>
      exists a b,
        bounded_run_after prev cls lo text a r b
        /\ forall a' r' b',
             bounded_run_after prev cls lo text a' r' b' ->
             (length a < length a')%nat
             \/ (length a = length a' /\ (length r' <= length r)%nat)
  | None => forall a r b, ~ bounded_run_after prev cls lo text a r b
  end.

Definition first_bounded_run := first_bounded_run_after None.

(** The value that one segment of an annotation gives to [key]: the segment
    holds a [':'], its left part, trimmed and in upper case, is [key], and
    its right part, trimmed, is not empty. *)
Definition segment_value (key ent : pystr) : option pystr :=
  if Str.has_char ":" ent then
    let '(k, v) := Str.split_once ":" ent in
    if bool_decide (Str.upper (Str.strip k) = key) && Str.nonempty (Str.strip v)
    then Some (Str.strip v) else None
  else None.

(** The value that an annotation gives to [key]: that of the last segment
    that gives one. *)
Definition annotated (key entities_str : pystr) : option pystr :=
  last (omap (segment_value key) (Str.split_on "|" entities_str)).

(** A field of the extracted entities: the annotated value if there is one,
    and otherwise the first run of [lo] or more characters of [cls] that
    stands between word boundaries in the utterance, if there is one. *)
Definition field_spec (annot : option pystr) (cls : ascii -> bool) (lo : nat)
    (text : pystr) (field : option pystr) : Prop :=
  match annot with
  | Some v => field = Some v
  | None => first_bounded_run cls lo text field
  end.

(** The fallback as the design states it: the first run of [lo] or more
    characters of the class, wherever it stands. *)
Definition first_run (cls : ascii -> bool) (lo : nat) (text : pystr) : option pystr :=
  head (List.filter (fun r => (lo <=? length r)%nat) (Str.runs cls text)).

(** [ents] is [a ++ "MONEY:" ++ m ++ b], where [m] is the whole run of
    digits that follows this [MONEY:], and is not empty. *)
Definition money_at (ents a m b : pystr) : Prop :=
  ents = a ++ py "MONEY:" ++ m ++ b
  /\ m <> []
  /\ Forall (fun c => Char.is_digit c = true) m
  /\ (forall c, head b = Some c -> Char.is_digit c = false).

(** [o] holds the digits after the first [MONEY:] of [ents] that digits
    follow; or there is no such place. *)
Definition first_money (ents : pystr) (o : option pystr) : Prop :=
  match o with
  | Some m =>
      exists a b, money_at ents a m b
                  /\ forall a' m' b', money_at ents a' m' b' -> (length a <= length a')%nat
  | None => forall a m b, ~ money_at ents a m b
  end.

(** The entities of [row] pair the account number [acct] with the money
    value [m]. *)
Definition pairs (acct : pystr) (row : Row) (m : pystr) : Prop :=
  Str.contains (get_str (r_entities row)) (py "ACCOUNT_NUMBER:" ++ acct) = true
  /\ Str.contains (get_str (r_entities row)) (py "MONEY:") = true
  /\ first_money (get_str (r_entities row)) (Some m).

(** [o] is the money value of the first row of the corpus that pairs
    [acct] with one; or no row does. *)
Definition first_pairing (acct : pystr) (dataset : list Row) (o : option pystr) : Prop :=
  match o with
  | Some m =>
      exists pre row post,
        dataset = pre ++ row :: post /\ pairs acct row m
        /\ forall r m', r ∈ pre -> ~ pairs acct r m'
  | None => forall r m', r ∈ dataset -> ~ pairs acct r m'
  end.


(** The triple that the duplicate check of the append compares. *)
Definition row_key (row : Row) : option pystr * option pystr * option pystr :=
  (r_text row, r_intent row, r_entities row).

(** The invariant of the appended rows: [dataset] is the rows [loaded] at
    start-up followed by the rows [appended] since; no two appended rows have
    the same key, and none has the key of a loaded row. *)
Definition appended_fresh (loaded appended : list Row) : Prop :=
  NoDup (row_key <$> appended)
  /\ forall r, r ∈ appended -> row_key r ∉ row_key <$> loaded.

(** The reply of a turn without a match. *)
Definition fallback_reply : ChatReply :=
  {| reply := out_of_scope_reply;
     intent := py "out_of_scope";
     intent_color := py "#757575" |}.

(** * A small state to run the turn on *)

Definition demo_user : @User N :=
  {| u_account_number := py "123456"; u_balance := 5000 |}.

Definition demo_facts : @UserFacts N :=
  {| uf_account_number := py "123456"; uf_balance := 5000;
     uf_amount := None; uf_person := None;
     uf_last_amount := None; uf_last_recipient := None;
     uf_conversations := [] |}.

Definition demo_state : @State N :=
  {| store :=
       {| dataset := [mk_row (py "check balance") (py "check_balance") []
                        (py "MONEY:500")];
          csv_log := [csv_header;
                      [py "check balance"; py "check_balance"; []; py "MONEY:500"]] |};
     user_data := <[py "1" := demo_facts]> ∅;
     user_file := ∅ |}.

(** * Further definitions *)

(** A row of the corpus takes part in the match of an utterance: it is an
    exact match, a numeric match, or shares a token with it. *)
Definition answers (user_message : pystr) (row : Row) : Prop :=
  exact_match user_message row
  \/ numeric_match user_message row = true
  \/ (1 <= overlap user_message row)%nat.

Section Requests.

Context {Balance : Type}.

(** One request to the chat route by a logged-in user: what the file
    system does during it, the user and the message. *)
Record Request := {
  q_io : io_outcome;
  q_user_id : pystr;
  q_user : @User Balance;
  q_message : option pystr
}.

(** The state after a sequence of requests served one after the other. *)
Definition serve (requests : list Request) (st : @State Balance) : @State Balance :=
  fold_left
    (fun st q => (chat_turn (q_io q) (q_user_id q) (q_user q) (q_message q) st).1)
    requests st.

(** The body of the request is a JSON object whose member [message] is
    the string [s], or that has no such member, [s] being empty then. *)
Definition string_message (body : option JValue) (s : pystr) : Prop :=
  exists members,
    body = Some (JObject members)
    /\ (dict_get (py "message") members = Some (JString s)
        \/ (dict_get (py "message") members = None /\ s = [])).

(** The user of the session has a record in [user_data] or a row in the
    [User] table. *)
Definition known_user (user_id_str : pystr) (user : option (@User Balance))
    (st : @State Balance) : Prop :=
  is_Some (user_data st !! user_id_str) \/ is_Some user.

(** The persistence failure as the design states it: with a failing
    append the route returns what it returns with a working one, with the
    same user records, and the corpus, in memory and in its file, is as it
    was before the turn. *)
Definition failure_atomic (io : io_outcome) (save : @save_outcome Balance)
    (session : option pystr) (user : option (@User Balance)) (body : option JValue)
    (st : @State Balance) : Prop :=
  let failed := chat io save session user body st in
  let succeeded := chat IoOk save session user body st in
  failed.2 = succeeded.2
  /\ user_data failed.1 = user_data succeeded.1
  /\ store failed.1 = store st.

End Requests.

(** A string without white space at either end. *)
Definition trimmed (s : pystr) : Prop := Str.strip s = s.

(** A value of the entities that is set is not empty and trimmed. *)
Definition clean (v : option pystr) : Prop :=
  match v with
  | Some s => s <> [] /\ Str.strip s = s
  | None => True
  end.

Definition clean_entities (e : Entities) : Prop :=
  clean (account_number e) /\ clean (amount e) /\ clean (person e).

(** A value of a row that is there is trimmed. *)
Definition trimmed_field (v : option pystr) : Prop :=
  match v with
  | Some s => trimmed s
  | None => True
  end.

Definition trimmed_row (row : Row) : Prop :=
  trimmed_field (r_text row) /\ trimmed_field (r_intent row)
  /\ trimmed_field (r_response row) /\ trimmed_field (r_entities row).

(** ** Loading the corpus *)

(** The position of the last column of [header] that is named [k], counted
    from [i]: with [dict(zip(fieldnames, row))] and the filling of the
    missing columns after it, the last column of a name decides its value. *)
Fixpoint column_from (k : pystr) (header : list pystr) (i : nat) : option nat :=
  match header with
  | [] => None
  | h :: rest =>
      match column_from k rest (S i) with
      | Some j => Some j
      | None => if bool_decide (h = k) then Some i else None
      end
  end.

(** The entry of key [k] in the dict that [csv.DictReader] makes of the
    record [rec]: no entry when no column has the name, [None] (the
    [restval]) when the record is too short for the column, and the field
    otherwise. *)
Definition dict_reader_value (header rec : list pystr) (k : pystr)
    : option (option pystr) :=
  match column_from k header 0 with
  | None => None
  | Some i => Some (rec !! i)
  end.

(** The value after the loop of [load_dataset] over the keys of a row:
    [row[k].strip()] for a string and [str(None).strip()] for a missing
    field. *)
Definition loaded_value (v : option pystr) : pystr :=
  match v with
  | Some s => Str.strip s
  | None => py "None"
  end.

Definition load_row (header rec : list pystr) : Row :=
  {| r_text := loaded_value <$> dict_reader_value header rec (py "text");
     r_intent := loaded_value <$> dict_reader_value header rec (py "intent");
     r_response := loaded_value <$> dict_reader_value header rec (py "response");
     r_entities := loaded_value <$> dict_reader_value header rec (py "entities") |}.

(** [load_dataset()], on the records that [csv.reader] yields for the file
    ([None]: there is no file).  The first record is the header;
    [DictReader] passes over the records without any field. *)
Definition load_dataset (file : option (list (list pystr))) : list Row :=
  match file with
  | None => []
  | Some [] => []
  | Some (header :: records) =>
      map (load_row header)
        (List.filter (fun rec => match rec with [] => false | _ => true end) records)
  end.

(** The corpus file is written with [newline=''] and read back by
    [load_dataset] with universal newlines: a carriage return of a field,
    alone or before a line feed, is read as a line feed. *)
Fixpoint universal_newlines (s : pystr) : pystr :=
  match s with
  | [] => []
  | c :: s' =>
      if bool_decide (c = "013"%char)
      then "010"%char
           :: match s' with
              | d :: s'' =>
                  if bool_decide (d = "010"%char) then universal_newlines s''
                  else universal_newlines s'
              | [] => []
              end
      else c :: universal_newlines s'
  end.

(** The records that [csv.DictReader] gets in [load_dataset] from a file
    that holds the records [log]. *)
Definition read_back (log : list (list pystr)) : list (list pystr) :=
  map (map universal_newlines) log.

(** The in-memory corpus is what a restart would load from the log, whose
    header, if it has one, is the one the append writes. *)
Definition in_sync (st : Store) : Prop :=
  dataset st = load_dataset (Some (read_back (csv_log st)))
  /\ (csv_log st = [] \/ exists records, csv_log st = csv_header :: records).





(** ** The portal: registration, login and the pages *)

Section Portal.

(** The type of a balance, and the balance [5000.0] that [register] gives
    to a new account. *)
Context {Balance : Type} (opening_balance : Balance).

(** A row of the [User] table. *)
Record Account := {
  a_id : nat;
  a_username : pystr;
  a_email : pystr;
  a_password : pystr;
  a_account_number : pystr;
  a_account_type : pystr;
  a_balance : Balance
}.

(** The keys [user_id] and [username] of the Flask session, which [login]
    sets together and [logout] clears. *)
Record Login := {
  s_user_id : nat;
  s_username : pystr
}.

(** What a route answers. *)
Inductive answer : Type :=
  | Page (template : pystr)
  | DashboardPage (username account_number : pystr) (balance : Balance)
  | UserDetailsPage (user : Account)
  | BalancePage (balance : option (Balance + pystr))
  | BotPage (username : pystr)
  | Redirect (endpoint : pystr)
  | Text (body : pystr).

(** The fields of the registration form. *)
Record RegisterForm := {
  f_username : pystr;
  f_email : pystr;
  f_password : pystr;
  f_account_number : pystr;
  f_account_type : pystr
}.

(** What [db.session.commit()] does: it succeeds, or raises an exception
    with the given text. *)
Inductive commit_outcome : Type :=
  | CommitOk
  | CommitFails (message : pystr).

(** [User.query.filter_by(email=email).first()] and the like: the table is
    the list of its rows in the order of their ids. *)
Definition by_email (email : pystr) (db : list Account) : option Account :=
  find (fun a => bool_decide (a_email a = email)) db.

Definition by_account_number (number : pystr) (db : list Account) : option Account :=
  find (fun a => bool_decide (a_account_number a = number)) db.

Definition by_credentials (email password : pystr) (db : list Account) : option Account :=
  find (fun a => bool_decide (a_email a = email) && bool_decide (a_password a = password)) db.

(** [User.query.get(id)] *)
Definition by_id (id : nat) (db : list Account) : option Account :=
  find (fun a => bool_decide (a_id a = id)) db.

(** The id that the table gives to a new row: one more than the largest. *)
Definition next_id (db : list Account) : nat :=
  S (foldr Nat.max 0%nat (a_id <$> db)).

Definition new_account (form : RegisterForm) (db : list Account) : Account :=
  {| a_id := next_id db;
     a_username := f_username form;
     a_email := f_email form;
     a_password := f_password form;
     a_account_number := f_account_number form;
     a_account_type := f_account_type form;
     a_balance := opening_balance |}.

(** [register()]: [None] is a GET, [Some form] a POST. *)
Definition register (commit : commit_outcome) (request : option RegisterForm)
    (db : list Account) : list Account * answer :=
  match request with
  | None => (db, Page (py "register.html"))
  | Some form =>
      match by_email (f_email form) db with
      | Some _ => (db, Text (py "User already exists! Please login."))
      | None =>
          match by_account_number (f_account_number form) db with
          | Some _ =>
              (db, Text (py "Account number already exists! Please use a different account number."))
          | None =>
              match commit with
              | CommitOk => (db ++ [new_account form db], Redirect (py "login"))
              | CommitFails e =>
                  (db, Text (py "An error occurred during registration: " ++ e))
              end
          end
      end
  end.

(** [login()]: [None] is a GET, [Some (email, password)] a POST. *)
Definition login (request : option (pystr * pystr)) (db : list Account)
    (session : option Login) : option Login * answer :=
  match request with
  | None => (session, Page (py "login.html"))
  | Some (email, password) =>
      match by_credentials email password db with
      | Some user =>
          (Some {| s_user_id := a_id user; s_username := a_username user |},
           Redirect (py "dashboard"))
      | None => (session, Text (py "Invalid email or password!"))
      end
  end.

(** [dashboard()]; without the row of the session's user the attribute
    access on [None] raises. *)
Definition dashboard (db : list Account) (session : option Login) : outcome answer :=
  match session with
  | None => Returned (Redirect (py "login"))
  | Some s =>
      match by_id (s_user_id s) db with
      | Some user =>
          Returned (DashboardPage (s_username s) (a_account_number user) (a_balance user))
      | None => Raised
      end
  end.

(** [check_balance()]: [None] is a GET, [Some number] a POST. *)
Definition check_balance (request : option pystr) (db : list Account)
    (session : option Login) : answer :=
  match session with
  | None => Redirect (py "login")
  | Some _ =>
      match request with
      | None => BalancePage None
      | Some acc_number =>
          match by_account_number acc_number db with
          | Some user => BalancePage (Some (inl (a_balance user)))
          | None => BalancePage (Some (inr (py "Account not found!")))
          end
      end
  end.

(** [logout()] *)
Definition logout (session : option Login) : option Login * answer :=
  (None, Redirect (py "home")).

(** The table has no two rows with the same e-mail, account number or id:
    the constraints of the [User] model. *)
Definition table_ok (db : list Account) : Prop :=
  NoDup (a_email <$> db) /\ NoDup (a_account_number <$> db) /\ NoDup (a_id <$> db).

End Portal.

Definition demo_table : list (@Account N) :=
  [ {| a_id := 1; a_username := py "asha"; a_email := py "asha@example.com";
       a_password := py "pw1"; a_account_number := py "100200300";
       a_account_type := py "savings"; a_balance := 5000 |};
    {| a_id := 2; a_username := py "ben"; a_email := py "ben@example.com";
       a_password := py "pw2"; a_account_number := py "400500600";
       a_account_type := py "current"; a_balance := 120 |} ].

Definition demo_form : RegisterForm :=
  {| f_username := py "chen"; f_email := py "chen@example.com";
     f_password := py "pw3"; f_account_number := py "700800900";
     f_account_type := py "savings" |}.

(** The JSON body of a chat request with the given message. *)
Definition demo_body (message : pystr) : option JValue :=
  Some (JObject [(py "message", JString message)]).
(** * Properties *)

Example normalize_demo :
  normalize_text (py "  What's   my Balance?? ") = py "what is my balance".
Proof. vm_compute. reflexivity. Qed.


(** ** Characters and strings *)

Ltac by_char c := destruct c as [[] [] [] [] [] [] [] []]; vm_compute; try done; auto.

Lemma tokchar_allowed c : tokchar c = true -> Char.allowed c = true.
Proof. by_char c. Qed.

Lemma tokchar_not_space c : tokchar c = true -> Char.is_space c = false.
Proof. by_char c. Qed.

Lemma allowed_not_space c :
  Char.allowed c = true -> Char.is_space c = false -> tokchar c = true.
Proof. by_char c. Qed.

Lemma allowed_lower c : Char.allowed c = true -> Char.lower c = c.
Proof. by_char c. Qed.

Lemma lower_lower c : Char.lower (Char.lower c) = Char.lower c.
Proof. by_char c. Qed.

Lemma lower_space c : Char.is_space (Char.lower c) = Char.is_space c.
Proof. by_char c. Qed.

Lemma space_is_space : Char.is_space " "%char = true.
Proof. reflexivity. Qed.

Lemma starts_with_app p s : Str.starts_with p (p ++ s) = true.
Proof.
  induction p as [|a p IH]; simpl; [done|].
  rewrite bool_decide_eq_true_2 by done. exact IH.
Qed.

Lemma starts_with_spec p s :
  Str.starts_with p s = true <-> exists t, s = p ++ t.
Proof.
  split.
  - revert s. induction p as [|a p IH]; intros s H; simpl in *; [by exists s|].
    destruct s as [|b s]; [done|].
    apply andb_true_iff in H as [Hab H]. apply bool_decide_eq_true_1 in Hab.
    destruct (IH _ H) as [t ->]. exists t. by subst.
  - intros [t ->]. apply starts_with_app.
Qed.

Lemma contains_here s sub : Str.starts_with sub s = true -> Str.contains s sub = true.
Proof. intros H. destruct s; simpl; by rewrite H. Qed.

Lemma contains_spec s sub :
  Str.contains s sub = true <-> exists a b, s = a ++ sub ++ b.
Proof.
  split.
  - induction s as [|c s IH]; simpl; intros H.
    + rewrite orb_false_r in H. apply starts_with_spec in H as [t Ht].
      exists [], t. done.
    + apply orb_true_iff in H as [H|H].
      * apply starts_with_spec in H as [t Ht]. exists [], t. done.
      * destruct (IH H) as (a & b & ->). by exists (c :: a), b.
  - intros (a & b & ->). induction a as [|c a IH]; simpl.
    + apply contains_here, starts_with_app.
    + rewrite IH. apply orb_true_r.
Qed.

(** A string that lacks one character of [old] holds no occurrence of it. *)
Lemma starts_with_absent c old s :
  c ∈ old -> c ∉ s -> Str.starts_with old s = false.
Proof.
  intros Hin Hout. destruct (Str.starts_with old s) eqn:E; [|done].
  apply starts_with_spec in E as [t ->]. exfalso. apply Hout.
  apply elem_of_app. by left.
Qed.

Lemma replace_absent c old new s :
  c ∈ old -> c ∉ s -> Str.replace old new s = s.
Proof.
  intros Hin. unfold Str.replace. induction s as [|x s IH]; intros Hout; [done|].
  cbn [Str.replace_go]. rewrite (starts_with_absent c) by done.
  f_equal. apply IH. intros ?. apply Hout. by right.
Qed.

Lemma lstrip_id s :
  (forall c, head s = Some c -> Char.is_space c = false) -> Str.lstrip s = s.
Proof. destruct s as [|c s]; simpl; [done|]. intros H. by rewrite H. Qed.

Lemma lstrip_idemp s : Str.lstrip (Str.lstrip s) = Str.lstrip s.
Proof.
  induction s as [|c s IH]; simpl; [done|].
  destruct (Char.is_space c) eqn:E; [done|]. simpl. by rewrite E.
Qed.

Lemma strip_id s :
  (forall c, head s = Some c -> Char.is_space c = false) ->
  (forall c, last s = Some c -> Char.is_space c = false) ->
  Str.strip s = s.
Proof.
  intros Hh Hl. unfold Str.strip, Str.rstrip. rewrite (lstrip_id s) by done.
  rewrite lstrip_id; [apply reverse_involutive|].
  intros c Hc. apply Hl. by rewrite head_reverse in Hc.
Qed.

(** *** Maximal runs *)

Lemma runs_aux_app p tok s :
  Forall (fun c => p c = true) tok ->
  Str.runs_aux p (tok ++ s) = (tok ++ (Str.runs_aux p s).1, (Str.runs_aux p s).2).
Proof.
  induction 1 as [|c tok Hc _ IH]; simpl; [by destruct (Str.runs_aux p s)|].
  rewrite IH, Hc. done.
Qed.

Lemma runs_cons_false p c s : p c = false -> Str.runs p (c :: s) = Str.runs p s.
Proof.
  intros Hc. unfold Str.runs. simpl. destruct (Str.runs_aux p s) as [r rs].
  by rewrite Hc.
Qed.

Lemma runs_tok_sep p tok c s :
  tok <> [] -> Forall (fun x => p x = true) tok -> p c = false ->
  Str.runs p (tok ++ c :: s) = tok :: Str.runs p s.
Proof.
  intros Hne Htok Hc. unfold Str.runs at 1. rewrite runs_aux_app by done.
  simpl. fold (Str.runs p s).
  destruct (Str.runs_aux p s) as [r rs] eqn:E. rewrite Hc. simpl.
  rewrite app_nil_r. unfold Str.runs. rewrite E.
  destruct tok; [done|]. done.
Qed.

Lemma runs_tok_end p tok :
  tok <> [] -> Forall (fun x => p x = true) tok -> Str.runs p tok = [tok].
Proof.
  intros Hne Htok. unfold Str.runs.
  rewrite <- (app_nil_r tok) at 1. rewrite runs_aux_app by done. simpl.
  rewrite app_nil_r. by destruct tok.
Qed.

(** Every run is non-empty and made of characters of the class. *)
Lemma runs_aux_Forall p s :
  Forall (fun c => p c = true) (Str.runs_aux p s).1
  /\ Forall (fun r => r <> [] /\ Forall (fun c => p c = true) r) (Str.runs_aux p s).2.
Proof.
  induction s as [|c s [IH1 IH2]]; simpl; [by split|].
  destruct (Str.runs_aux p s) as [r rs]. simpl in *.
  destruct (p c) eqn:Hc; simpl; [by split; [constructor|]|].
  split; [done|]. destruct r; simpl; [done|]. constructor; [|done]. by split.
Qed.

Lemma runs_Forall p s :
  Forall (fun r => r <> [] /\ Forall (fun c => p c = true) r) (Str.runs p s).
Proof.
  unfold Str.runs. destruct (runs_aux_Forall p s) as [H1 H2].
  destruct (Str.runs_aux p s) as [r rs]. simpl in *.
  destruct r; simpl; [done|]. constructor; [|done]. by split.
Qed.

(** A run only holds characters of the string. *)
Lemma runs_aux_subseteq p s :
  (Str.runs_aux p s).1 ⊆ s /\ Forall (fun r => r ⊆ s) (Str.runs_aux p s).2.
Proof.
  induction s as [|c s [IH1 IH2]]; simpl; [by split|].
  destruct (Str.runs_aux p s) as [r rs]. simpl in *.
  assert (Hmono : Forall (fun r => r ⊆ c :: s) rs).
  { eapply Forall_impl; [exact IH2|]. intros r' Hr' x Hx. right. by apply Hr'. }
  destruct (p c); simpl.
  - split; [|done]. intros x Hx. apply elem_of_cons in Hx as [->|Hx]; [left|right; by apply IH1].
  - split; [set_solver|]. destruct r; simpl; [done|]. constructor; [|done].
    intros x Hx. right. by apply IH1.
Qed.

Lemma runs_subseteq p s : Forall (fun r => r ⊆ s) (Str.runs p s).
Proof.
  unfold Str.runs. destruct (runs_aux_subseteq p s) as [H1 H2].
  destruct (Str.runs_aux p s) as [r rs]. simpl in *.
  destruct r; simpl; [done|]. by constructor.
Qed.

(** ** The normaliser: normal forms *)

Lemma join_cons_cons sep x y l :
  Str.join sep (x :: y :: l) = x ++ sep ++ Str.join sep (y :: l).
Proof. done. Qed.

Lemma join_allowed toks :
  Forall token toks -> Forall (fun c => Char.allowed c = true) (Str.join (py " ") toks).
Proof.
  induction 1 as [|t toks [_ Ht] Htoks IH]; [constructor|].
  assert (Ht' : Forall (fun c => Char.allowed c = true) t).
  { eapply Forall_impl; [exact Ht|]. apply tokchar_allowed. }
  destruct toks as [|u toks]; [done|]. rewrite join_cons_cons.
  apply Forall_app. split; [done|]. constructor; [done|]. exact IH.
Qed.

Lemma join_head toks c :
  Forall token toks -> head (Str.join (py " ") toks) = Some c -> Char.is_space c = false.
Proof.
  intros Htoks. destruct Htoks as [|t toks [Hne Ht] Htoks]; [done|].
  destruct t as [|x t]; [done|]. inversion Ht as [|? ? Hx _]; subst.
  destruct toks; simpl; intros [= <-]; by apply tokchar_not_space.
Qed.

Lemma join_last toks c :
  Forall token toks -> last (Str.join (py " ") toks) = Some c -> Char.is_space c = false.
Proof.
  induction 1 as [|t toks [Hne Ht] Htoks IH]; [done|].
  destruct toks as [|u toks].
  - simpl. intros Hl. apply last_Some in Hl as [l' ->].
    apply Forall_app in Ht as [_ Ht]. inversion Ht; subst. by apply tokchar_not_space.
  - rewrite join_cons_cons. intros Hl. apply IH.
    rewrite !last_app in Hl.
    destruct (last (Str.join (py " ") (u :: toks))) eqn:E; [done|].
    apply last_None in E. inversion Htoks as [|? ? [Hu _] _]; subst.
    destruct u; [done|]. destruct toks; done.
Qed.

Lemma split_join toks :
  Forall token toks -> Str.split (Str.join (py " ") toks) = toks.
Proof.
  unfold Str.split. induction 1 as [|t toks [Hne Ht] Htoks IH]; [done|].
  assert (Ht' : Forall (fun c => negb (Char.is_space c) = true) t).
  { eapply Forall_impl; [exact Ht|]. intros c Hc. simpl.
    by rewrite tokchar_not_space. }
  destruct toks as [|u toks]; [by apply runs_tok_end|].
  rewrite join_cons_cons. change (py " " ++ ?l) with (" "%char :: l).
  rewrite runs_tok_sep by done. by rewrite IH.
Qed.

Lemma lower_allowed s :
  Forall (fun c => Char.allowed c = true) s -> Str.lower s = s.
Proof.
  unfold Str.lower. induction 1 as [|c s Hc _ IH]; csimpl; [done|].
  by rewrite allowed_lower, IH.
Qed.

Lemma filter_allowed s :
  Forall (fun c => Char.allowed c = true) s -> List.filter Char.allowed s = s.
Proof.
  induction 1 as [|c s Hc _ IH]; simpl; [done|]. by rewrite Hc, IH.
Qed.

Lemma filter_allowed_Forall s :
  Forall (fun c => Char.allowed c = true) (List.filter Char.allowed s).
Proof.
  induction s as [|c s IH]; simpl; [constructor|].
  destruct (Char.allowed c) eqn:E; [by constructor|done].
Qed.

Lemma apostrophe_absent s :
  Forall (fun c => Char.allowed c = true) s -> "'"%char ∉ s.
Proof.
  intros H Hin. rewrite Forall_forall in H. by specialize (H _ Hin).
Qed.

(** A normal form is a fixed point of [normalize_text]. *)
Lemma normalize_normal_form_id s : normal_form s -> normalize_text s = s.
Proof.
  intros (toks & Htoks & ->). set (out := Str.join (py " ") toks).
  assert (Hall : Forall (fun c => Char.allowed c = true) out) by (by apply join_allowed).
  assert (Hq : "'"%char ∉ out) by (by apply apostrophe_absent).
  unfold normalize_text. destruct out as [|c out'] eqn:E; [done|]. rewrite <- E in *.
  rewrite lower_allowed by done.
  rewrite strip_id by (intros x; first [by apply join_head | by apply join_last]).
  assert (H1 : "'"%char ∈ py "what's") by (vm_compute; repeat constructor).
  assert (H2 : "'"%char ∈ py "it's") by (vm_compute; repeat constructor).
  assert (H3 : "'"%char ∈ py "i'm") by (vm_compute; repeat constructor).
  rewrite (replace_absent _ _ _ _ H1 Hq), (replace_absent _ _ _ _ H2 Hq),
    (replace_absent _ _ _ _ H3 Hq).
  rewrite filter_allowed by done. subst out. by rewrite split_join.
Qed.

(** The output of [normalize_text] is a normal form. *)
Lemma normalize_normal_form s : normal_form (normalize_text s).
Proof.
  unfold normalize_text. destruct s as [|c s]; [by exists []|].
  match goal with
  | |- context [List.filter Char.allowed ?x] =>
      pose proof (filter_allowed_Forall x) as Hf;
      set (f := List.filter Char.allowed x) in *
  end.
  exists (Str.split f). split; [|done].
  pose proof (runs_Forall (fun c => negb (Char.is_space c)) f) as H1.
  pose proof (runs_subseteq (fun c => negb (Char.is_space c)) f) as H2.
  unfold Str.split.
  rewrite Forall_forall in H1. rewrite Forall_forall in H2.
  rewrite Forall_forall in Hf. rewrite Forall_forall. intros t Ht.
  destruct (H1 _ Ht) as [Hne Hns]. split; [done|].
  rewrite Forall_forall in Hns |- *. intros x Hx.
  apply allowed_not_space; [apply Hf; by apply (H2 _ Ht)|].
  specialize (Hns _ Hx). by destruct (Char.is_space x).
Qed.

(** *** Stripping *)

Lemma lstrip_head s c : head (Str.lstrip s) = Some c -> Char.is_space c = false.
Proof.
  induction s as [|x s IH]; simpl; [done|].
  destruct (Char.is_space x) eqn:E; [done|]. by intros [= <-].
Qed.

Lemma lstrip_suffix s :
  exists ws, s = ws ++ Str.lstrip s /\ Forall (fun c => Char.is_space c = true) ws.
Proof.
  induction s as [|x s (ws & Hs & Hws)]; simpl; [by exists []|].
  destruct (Char.is_space x) eqn:E; [|by exists []].
  exists (x :: ws). split; [by rewrite Hs at 1|by constructor].
Qed.

Lemma rstrip_prefix s :
  exists ws, s = Str.rstrip s ++ ws /\ Forall (fun c => Char.is_space c = true) ws.
Proof.
  unfold Str.rstrip. destruct (lstrip_suffix (reverse s)) as (ws & Hs & Hws).
  exists (reverse ws). split; [|by apply Forall_reverse].
  rewrite <- reverse_app, <- Hs. by rewrite reverse_involutive.
Qed.

Lemma rstrip_last s c : last (Str.rstrip s) = Some c -> Char.is_space c = false.
Proof. unfold Str.rstrip. rewrite last_reverse. apply lstrip_head. Qed.

Lemma strip_last s c : last (Str.strip s) = Some c -> Char.is_space c = false.
Proof. apply rstrip_last. Qed.

Lemma strip_head s c : head (Str.strip s) = Some c -> Char.is_space c = false.
Proof.
  unfold Str.strip. destruct (rstrip_prefix (Str.lstrip s)) as (ws & Hs & _).
  intros Hc. apply (lstrip_head s). rewrite Hs.
  destruct (Str.rstrip (Str.lstrip s)); [done|]. exact Hc.
Qed.

Lemma strip_idemp s : Str.strip (Str.strip s) = Str.strip s.
Proof. apply strip_id; [apply strip_head | apply strip_last]. Qed.

Lemma lstrip_lower s : Str.lstrip (Str.lower s) = Str.lower (Str.lstrip s).
Proof.
  unfold Str.lower. induction s as [|x s IH]; csimpl; [done|].
  rewrite lower_space. by destruct (Char.is_space x).
Qed.

Lemma strip_lower s : Str.strip (Str.lower s) = Str.lower (Str.strip s).
Proof.
  unfold Str.strip, Str.rstrip. rewrite lstrip_lower.
  unfold Str.lower at 1. rewrite <- fmap_reverse. fold (Str.lower (reverse (Str.lstrip s))).
  rewrite lstrip_lower. unfold Str.lower. by rewrite fmap_reverse.
Qed.

Lemma lower_idemp s : Str.lower (Str.lower s) = Str.lower s.
Proof.
  unfold Str.lower. rewrite <- list_fmap_compose. apply list_fmap_ext.
  intros _ x _. apply lower_lower.
Qed.

(** Stripping and lower-casing a text first does not change its normal
    form: [row_norm] is the normalised text of the row. *)
Lemma normalize_lower_strip t :
  normalize_text (Str.lower (Str.strip t)) = normalize_text t.
Proof.
  destruct t as [|c t0]; [done|]. set (t := c :: t0).
  assert (H : Str.strip (Str.lower (Str.lower (Str.strip t))) = Str.strip (Str.lower t)).
  { by rewrite lower_idemp, strip_lower, strip_idemp, <- strip_lower. }
  unfold normalize_text. rewrite H.
  destruct (Str.lower (Str.strip t)) eqn:E; [|done].
  subst t. by rewrite strip_lower, E.
Qed.

Lemma row_norm_text row : row_norm row = normalize_text (get_str (r_text row)).
Proof. apply normalize_lower_strip. Qed.

(** ** C8: the normaliser is idempotent *)

Lemma allowed_plain c :
  Char.allowed c
  = Char.is_ascii_lower c || Char.is_digit c || bool_decide (c = " "%char).
Proof. by_char c. Qed.

Lemma allowed_space_iff c :
  Char.allowed c = true -> Char.is_space c = bool_decide (c = " "%char).
Proof. by_char c. Qed.

(** On a string of kept characters the only white space is the space, and
    [split()] gives the non-empty pieces between the spaces. *)
Lemma runs_aux_split_on s :
  Forall (fun c => Char.allowed c = true) s ->
  exists r rs,
    Str.split_on " " s = r :: rs
    /\ Str.runs_aux (fun c => negb (Char.is_space c)) s
       = (r, List.filter Str.nonempty rs).
Proof.
  induction 1 as [|c s Hc _ (r & rs & Hsplit & Hruns)]; [by exists [], []|].
  cbn [Str.split_on Str.runs_aux]. rewrite Hruns, Hsplit, (allowed_space_iff c Hc).
  destruct (bool_decide (c = " "%char)); cbn [negb].
  - exists [], (r :: rs). split; [done|]. by destruct r.
  - by exists (c :: r), rs.
Qed.

Lemma split_allowed s :
  Forall (fun c => Char.allowed c = true) s ->
  Str.split s = List.filter Str.nonempty (Str.split_on " " s).
Proof.
  intros H. destruct (runs_aux_split_on s H) as (r & rs & Hsplit & Hruns).
  unfold Str.split, Str.runs. rewrite Hruns, Hsplit. by destruct r.
Qed.

Lemma normalize_text_claimed x : normalize_text x = normalize_claimed x.
Proof.
  destruct x as [|c x]; [done|].
  unfold normalize_text, normalize_claimed, collapse_spaces, drop_foreign,
    expand_contractions.
  rewrite <- (List.filter_ext _ _ allowed_plain). by rewrite split_allowed
    by apply filter_allowed_Forall.
Qed.

(** C8. Normalisation is idempotent, [normalize_text (normalize_text x)] is
    [normalize_text x] for every string [x]; it is the function that
    lower-cases and trims, expands the contractions [what's], [it's] and
    [i'm], drops every character outside a-z, 0-9 and the space, and
    collapses the runs of spaces; its result holds only tokens of a-z and
    0-9 with single spaces between them; ["What's my Balance?"] and
    ["what is my balance"] both have the normal form
    ["what is my balance"], and ["  It's ME:  I'm 42! "] has the normal
    form ["it is me i am 42"]. *)
Theorem normalize_text_idempotent :
  (forall x, normalize_text (normalize_text x) = normalize_text x)
  /\ (forall x, normalize_text x = normalize_claimed x)
  /\ (forall x, normal_form (normalize_text x))
  /\ normalize_text (py "What's my Balance?") = py "what is my balance"
  /\ normalize_text (py "what is my balance") = py "what is my balance"
  /\ normalize_text (py "  It's ME:  I'm 42! ") = py "it is me i am 42".
Proof.
  split; [|split; [|split; [|split; [|split]]]].
  - intros x. apply normalize_normal_form_id, normalize_normal_form.
  - apply normalize_text_claimed.
  - apply normalize_normal_form.
  - vm_compute. reflexivity.
  - vm_compute. reflexivity.
  - vm_compute. reflexivity.
Qed.

(** ** C1: stage 1, the exact match *)

Lemma find_first {A} (f : A -> bool) pre x post :
  f x = true -> (forall y, y ∈ pre -> f y = false) ->
  find f (pre ++ x :: post) = Some x.
Proof.
  intros Hx. induction pre as [|y pre IH]; intros Hpre; simpl.
  - by rewrite Hx.
  - rewrite (Hpre y) by left. apply IH. intros z Hz. apply Hpre. by right.
Qed.

Lemma exact_hit_spec user_message row :
  exact_hit (normalize_text user_message) row = true <-> exact_match user_message row.
Proof.
  unfold exact_hit, exact_match. rewrite row_norm_text, andb_true_iff, bool_decide_eq_true.
  destruct (normalize_text (get_str (r_text row))); simpl; intuition congruence.
Qed.

Lemma exact_match_nonempty user_message row :
  exact_match user_message row -> user_message <> [].
Proof. intros [Hne Heq] ->. apply Hne. by rewrite Heq. Qed.

(** C1. If some row of the corpus has a non-empty normalised text equal to
    the normalised utterance, the matcher returns the first such row in
    stored order, with its intent, response and entities, whatever the later
    stages would say; the corpus of one row [check balance] answers
    ["Check Balance!"] with the response [Sure]. *)
Theorem stage1_exact_match user_message pre row post :
  exact_match user_message row ->
  (forall r, r ∈ pre -> ~ exact_match user_message r) ->
  find_intent_response user_message (pre ++ row :: post) = Some (result_of row).
Proof.
  intros Hrow Hpre. pose proof (exact_match_nonempty _ _ Hrow) as Hne.
  unfold find_intent_response. destruct user_message as [|c m]; [done|].
  rewrite (find_first _ pre row post); [done|by apply exact_hit_spec|].
  intros r Hr. specialize (Hpre r Hr). rewrite <- exact_hit_spec in Hpre.
  by destruct (exact_hit _ r).
Qed.

Lemma stage1_exact_match_witness :
  find_intent_response (py "Check Balance!")
    [mk_row (py "check balance") (py "check_balance") (py "Sure") []]
  = Some {| m_intent := py "check_balance"; m_response := py "Sure"; m_entities := [] |}.
Proof.
  apply (stage1_exact_match (py "Check Balance!") []
           (mk_row (py "check balance") (py "check_balance") (py "Sure") []) []).
  - split; vm_compute; [discriminate|reflexivity].
  - intros r Hr. inversion Hr.
Defined.

(** ** C2: stage 2, the numeric-entity match *)

Lemma rstrip_snoc s w : Char.is_space w = true -> Str.rstrip (s ++ [w]) = Str.rstrip s.
Proof.
  intros Hw. unfold Str.rstrip. rewrite reverse_snoc. simpl. by rewrite Hw.
Qed.

Lemma strip_snoc s w : Char.is_space w = true -> Str.strip (s ++ [w]) = Str.strip s.
Proof.
  intros Hw. unfold Str.strip. induction s as [|c s IH]; simpl.
  - by rewrite Hw.
  - destruct (Char.is_space c); [exact IH|].
    by rewrite app_comm_cons, rstrip_snoc.
Qed.

Lemma starts_with_space k w s :
  (forall c, head k = Some c -> Char.is_space c = false) -> k <> [] ->
  Char.is_space w = true -> Str.starts_with k (w :: s) = false.
Proof.
  intros Hk Hne Hw. destruct k as [|a k]; [done|]. simpl.
  rewrite bool_decide_eq_false_2; [done|]. intros ->.
  specialize (Hk w eq_refl). congruence.
Qed.

Lemma contains_cons_space k w s :
  (forall c, head k = Some c -> Char.is_space c = false) -> k <> [] ->
  Char.is_space w = true -> Str.contains (w :: s) k = Str.contains s k.
Proof. intros. simpl. by rewrite starts_with_space. Qed.

Lemma starts_with_snoc_space k w s :
  (forall c, last k = Some c -> Char.is_space c = false) ->
  Char.is_space w = true -> Str.starts_with k (s ++ [w]) = Str.starts_with k s.
Proof.
  intros Hk Hw. revert s. induction k as [|a k IH]; intros s; [done|].
  destruct s as [|b s]; simpl.
  - destruct k as [|a' k]; simpl.
    + rewrite andb_true_r. apply bool_decide_eq_false_2. intros ->.
      specialize (Hk w eq_refl). congruence.
    + apply andb_false_r.
  - destruct k as [|a' k].
    + simpl. done.
    + rewrite IH; [done|]. intros c Hc. apply Hk. by rewrite last_cons_cons.
Qed.

Lemma contains_snoc_space k w s :
  (forall c, last k = Some c -> Char.is_space c = false) -> k <> [] ->
  Char.is_space w = true -> Str.contains (s ++ [w]) k = Str.contains s k.
Proof.
  intros Hk Hne Hw. induction s as [|b s IH].
  - change ([] ++ [w]) with [w]. cbn [Str.contains].
    pose proof (starts_with_snoc_space k w [] Hk Hw) as E. simpl in E.
    rewrite E. by destruct k.
  - change ((b :: s) ++ [w]) with (b :: (s ++ [w])).
    cbn [Str.contains]. rewrite IH. f_equal.
    by apply (starts_with_snoc_space k w (b :: s)).
Qed.

Lemma contains_app_spaces_l k ws s :
  (forall c, head k = Some c -> Char.is_space c = false) -> k <> [] ->
  Forall (fun c => Char.is_space c = true) ws ->
  Str.contains (ws ++ s) k = Str.contains s k.
Proof.
  intros Hk Hne. induction 1 as [|w ws Hw _ IH]; [done|].
  change ((w :: ws) ++ s) with (w :: (ws ++ s)). by rewrite contains_cons_space.
Qed.

Lemma contains_app_spaces_r k ws s :
  (forall c, last k = Some c -> Char.is_space c = false) -> k <> [] ->
  Forall (fun c => Char.is_space c = true) ws ->
  Str.contains (s ++ ws) k = Str.contains s k.
Proof.
  intros Hk Hne Hws. revert s. induction Hws as [|w ws Hw _ IH]; intros s.
  - by rewrite app_nil_r.
  - rewrite cons_middle, (assoc_L (++) s [w] ws), IH. by apply contains_snoc_space.
Qed.

(** A key without white space at its ends is in the trimmed annotation
    exactly when it is in the annotation. *)
Lemma contains_strip k e :
  (forall c, head k = Some c -> Char.is_space c = false) ->
  (forall c, last k = Some c -> Char.is_space c = false) -> k <> [] ->
  Str.contains (Str.strip e) k = Str.contains e k.
Proof.
  intros Hh Hl Hne. unfold Str.strip.
  destruct (lstrip_suffix e) as (ws1 & He & Hws1).
  destruct (rstrip_prefix (Str.lstrip e)) as (ws2 & Hm & Hws2).
  rewrite He at 2. rewrite contains_app_spaces_l by done.
  rewrite Hm at 2. by rewrite contains_app_spaces_r.
Qed.

Lemma names_number_strip e : names_number (Str.strip e) = names_number e.
Proof.
  unfold names_number.
  rewrite !contains_strip; first done; try done; by intros c [= <-].
Qed.

Lemma split_on_cons d s : exists r rs, Str.split_on d s = r :: rs.
Proof.
  destruct s as [|c s]; simpl; [by eexists _, _|].
  destruct (bool_decide (c = d)); [by eexists _, _|].
  destruct (Str.split_on d s); by eexists _, _.
Qed.

Lemma split_on_snoc d s :
  exists init l, Str.split_on d s = init ++ [l].
Proof.
  destruct (split_on_cons d s) as (r & rs & E). rewrite E.
  destruct (@exists_last _ (r :: rs)) as (init & l & ->); [done|]. by exists init, l.
Qed.

Lemma split_on_app_char d s w init l :
  w <> d -> Str.split_on d s = init ++ [l] ->
  Str.split_on d (s ++ [w]) = init ++ [l ++ [w]].
Proof.
  intros Hw. revert init l. induction s as [|c s IH]; intros init l E.
  - simpl in *. rewrite bool_decide_eq_false_2 by done.
    destruct init as [|? [|]]; simplify_eq/=. done.
  - change ((c :: s) ++ [w]) with (c :: (s ++ [w])). simpl in *.
    destruct (bool_decide (c = d)).
    + destruct init as [|i init]; simpl in E.
      * destruct (split_on_cons d s) as (r & rs & Es). rewrite Es in E. simplify_eq.
      * injection E as <- E. by rewrite (IH _ _ E).
    + destruct (split_on_cons d s) as (r & rs & Es). rewrite Es in E.
      destruct init as [|i init]; simpl in E.
      * injection E as <- ->. rewrite (IH [] r) by done. done.
      * injection E as <- ->. by rewrite (IH (r :: init) l Es).
Qed.

Lemma space_not_bar w : Char.is_space w = true -> w <> "|"%char.
Proof. by_char w. Qed.

Lemma space_not_colon w : Char.is_space w = true -> w <> ":"%char.
Proof. by_char w. Qed.

Lemma has_char_snoc d l w : w <> d -> Str.has_char d (l ++ [w]) = Str.has_char d l.
Proof.
  intros Hw. unfold Str.has_char. rewrite existsb_app. simpl.
  rewrite bool_decide_eq_false_2 by done. by rewrite !orb_false_r.
Qed.

Lemma split_once_snoc d l w :
  Str.has_char d l = true ->
  (Str.split_once d (l ++ [w])).2 = (Str.split_once d l).2 ++ [w].
Proof.
  induction l as [|c l IH]; [done|]. simpl.
  destruct (bool_decide (c = d)); [done|]. simpl. intros H.
  specialize (IH H). destruct (Str.split_once d (l ++ [w])), (Str.split_once d l). done.
Qed.

Lemma annotation_values_cons_space w s :
  Char.is_space w = true -> annotation_values (w :: s) = annotation_values s.
Proof.
  intros Hw. unfold annotation_values. simpl.
  rewrite bool_decide_eq_false_2 by by apply space_not_bar.
  destruct (split_on_cons "|" s) as (r & rs & ->). simpl.
  rewrite (bool_decide_eq_false_2 (w = ":"%char)) by by apply space_not_colon.
  simpl. destruct (Str.has_char ":" r); [|done]. simpl.
  rewrite (bool_decide_eq_false_2 (w = ":"%char)) by by apply space_not_colon.
  by destruct (Str.split_once ":" r).
Qed.

Lemma annotation_values_snoc_space w s :
  Char.is_space w = true -> annotation_values (s ++ [w]) = annotation_values s.
Proof.
  intros Hw. unfold annotation_values.
  destruct (split_on_snoc "|" s) as (init & l & E).
  rewrite (split_on_app_char _ _ _ _ _ (space_not_bar _ Hw) E), E.
  rewrite !List.filter_app, !map_app. f_equal. simpl.
  rewrite has_char_snoc by by apply space_not_colon.
  destruct (Str.has_char ":" l) eqn:Hl; [|done]. simpl.
  by rewrite split_once_snoc, strip_snoc.
Qed.

(** Trimming an annotation leaves its values as they are. *)
Lemma annotation_values_strip e : annotation_values (Str.strip e) = annotation_values e.
Proof.
  unfold Str.strip.
  destruct (lstrip_suffix e) as (ws1 & He & Hws1).
  destruct (rstrip_prefix (Str.lstrip e)) as (ws2 & Hm & Hws2).
  rewrite He at 2. clear He.
  induction Hws1 as [|w ws1 Hw _ IH]; simpl.
  - rewrite Hm at 2. clear Hm. generalize (Str.rstrip (Str.lstrip e)).
    induction Hws2 as [|w ws2 Hw _ IH]; intros s; [by rewrite app_nil_r|].
    rewrite cons_middle, (assoc_L (++) s [w] ws2), <- IH.
    by rewrite annotation_values_snoc_space.
  - by rewrite annotation_values_cons_space.
Qed.

Lemma existsb_map {A B} (f : B -> bool) (g : A -> B) l :
  existsb f (map g l) = existsb (fun x => f (g x)) l.
Proof. induction l as [|x l IH]; simpl; [done|]. by rewrite IH. Qed.

Lemma existsb_eq_elem (val : pystr) (l : list pystr) :
  existsb (fun d => bool_decide (val = d)) l = bool_decide (val ∈ l).
Proof.
  induction l as [|d l IH]; cbn [existsb].
  - rewrite bool_decide_eq_false_2; [done|]. apply not_elem_of_nil.
  - rewrite IH. destruct (decide (val = d)) as [->|Hne].
    + rewrite (bool_decide_eq_true_2 (d = d)) by done.
      rewrite (bool_decide_eq_true_2 (d ∈ d :: l)) by left. done.
    + rewrite (bool_decide_eq_false_2 (val = d)) by done. simpl.
      apply bool_decide_ext. rewrite elem_of_cons. split; [by right|by intros [?|?]].
Qed.

(** The test of the code on one row is the numeric match with the
    substring alternative. *)
Lemma numeric_hit_spec user_message row :
  numeric_hit user_message row = numeric_match user_message row.
Proof.
  unfold numeric_hit, numeric_match. fold (names_number (Str.strip (get_str (r_entities row)))).
  rewrite names_number_strip. f_equal.
  rewrite <- (annotation_values_strip (get_str (r_entities row))).
  unfold annotation_values. rewrite existsb_map.
  induction (List.filter _ _) as [|p ps IH]; [done|]. simpl. rewrite IH. f_equal.
  unfold value_hit. destruct (Str.split_once ":" p) as [k v]. simpl.
  by rewrite existsb_eq_elem.
Qed.

Lemma contains_nil sub : Str.contains [] sub = true -> sub = [].
Proof. simpl. rewrite orb_false_r. by destruct sub. Qed.

Lemma findall_digits_nil : Re.findall_digits [] = [].
Proof. done. Qed.

(** No row is a numeric match of the empty utterance. *)
Lemma numeric_match_nonempty user_message row :
  numeric_match user_message row = true -> user_message <> [].
Proof.
  intros H ->. unfold numeric_match in H. apply andb_true_iff in H as [_ H].
  apply existsb_exists in H as (val & _ & H).
  rewrite findall_digits_nil in H. simpl in H.
  apply andb_true_iff in H as [H1 H2]. apply andb_true_iff in H1 as [H1 _].
  rewrite orb_false_r in H2. apply orb_true_iff in H2 as [H2|H2];
    apply contains_nil in H2; by subst.
Qed.

(** C2, as amended. With no stage-1 match, a row is a stage-2 match exactly
    when its entities field contains [ACCOUNT_NUMBER] or [MONEY] and some
    value of it is non-empty, holds a digit, and is a substring of the raw
    utterance, or a substring of the concatenation of the digit runs of the
    utterance, or one of the runs; the first such row is returned. *)
Theorem stage2_numeric_match user_message pre row post :
  (forall r, r ∈ pre ++ row :: post -> ~ exact_match user_message r) ->
  numeric_match user_message row = true ->
  (forall r, r ∈ pre -> numeric_match user_message r = false) ->
  find_intent_response user_message (pre ++ row :: post) = Some (result_of row).
Proof.
  intros H1 Hrow Hpre. pose proof (numeric_match_nonempty _ _ Hrow) as Hne.
  unfold find_intent_response. destruct user_message as [|c m]; [done|].
  destruct (find (exact_hit _) _) as [r|] eqn:E.
  { apply find_some in E as [Hin Hr]. apply exact_hit_spec in Hr.
    destruct (H1 r); [by apply list_elem_of_In|done]. }
  rewrite (find_first _ pre row post); [done|by rewrite numeric_hit_spec|].
  intros r Hr. rewrite numeric_hit_spec. by apply Hpre.
Qed.

Lemma stage2_numeric_match_witness :
  find_intent_response (py "balance for 123456")
    [mk_row (py "what is my account balance") (py "check_balance") []
       (py "ACCOUNT_NUMBER:123456|MONEY:500")]
  = Some {| m_intent := py "check_balance"; m_response := [];
            m_entities := py "ACCOUNT_NUMBER:123456|MONEY:500" |}.
Proof.
  apply (stage2_numeric_match (py "balance for 123456") []
           (mk_row (py "what is my account balance") (py "check_balance") []
              (py "ACCOUNT_NUMBER:123456|MONEY:500")) []).
  - intros r Hr [_ Heq]. apply list_elem_of_singleton in Hr. subst r.
    vm_compute in Heq. discriminate Heq.
  - vm_compute. reflexivity.
  - intros r Hr. inversion Hr.
Defined.

(** C2 as stated fails. For the utterance ["12 34"] and a one-row corpus
    whose entities are [MONEY:23], the value [23] is not a substring of the
    utterance, is not the concatenation [1234] of its digit runs and is
    neither run, and no token is shared; yet the matcher returns the row,
    because [23] is a substring of [1234]. *)
Lemma stage2_claimed_counterexample :
  let row := mk_row (py "zzz") (py "some_intent") (py "r") (py "MONEY:23") in
  ~ exact_match (py "12 34") row
  /\ numeric_match_claimed (py "12 34") row = false
  /\ best_overlap (tokens (normalize_text (py "12 34"))) [row] = (None, 0%nat)
  /\ find_intent_response (py "12 34") [row] = Some (result_of row).
Proof.
  split; [|split; [|split]].
  - intros [_ H]. vm_compute in H. discriminate H.
  - vm_compute. reflexivity.
  - vm_compute. reflexivity.
  - vm_compute. reflexivity.
Qed.

(** ** C3: stage 3, the token overlap *)

Lemma tokens_nil : tokens [] = ∅.
Proof. done. Qed.

Lemma overlap_step_alt user_message best row :
  overlap_step (tokens (normalize_text user_message)) best row
  = if (best.2 <? overlap user_message row)%nat
    then (Some row, overlap user_message row) else best.
Proof.
  unfold overlap_step, overlap. rewrite <- row_norm_text.
  rewrite (comm_L (∩) (tokens (row_norm row))).
  destruct (row_norm row) eqn:E; simpl; [|done].
  rewrite tokens_nil, (right_absorb_L ∅ (∩)), size_empty.
  by destruct (best.2).
Qed.

(** The loop of stage 3 keeps the first row of the largest overlap, if
    that overlap is positive. *)
Lemma best_overlap_spec user_message dataset :
  let res := best_overlap (tokens (normalize_text user_message)) dataset in
  (res = (None, 0%nat) /\ forall r, r ∈ dataset -> overlap user_message r = 0%nat)
  \/ (exists pre row post,
        dataset = pre ++ row :: post
        /\ res = (Some row, overlap user_message row)
        /\ (1 <= overlap user_message row)%nat
        /\ (forall r, r ∈ pre -> (overlap user_message r < overlap user_message row)%nat)
        /\ (forall r, r ∈ post -> (overlap user_message r <= overlap user_message row)%nat)).
Proof.
  unfold best_overlap. induction dataset as [|x ds IH] using rev_ind; simpl.
  { left. split; [done|]. intros r Hr. inversion Hr. }
  rewrite fold_left_app. simpl. rewrite overlap_step_alt.
  destruct IH as [[-> Hz]|(pre & row & post & -> & -> & Hpos & Hpre & Hpost)]; simpl.
  - destruct (0 <? overlap user_message x)%nat eqn:E.
    + apply Nat.ltb_lt in E. right. exists ds, x, []. repeat split; [lia| |].
      * intros r Hr. rewrite (Hz r Hr). lia.
      * intros r Hr. inversion Hr.
    + apply Nat.ltb_ge in E. left. split; [done|]. intros r Hr.
      apply elem_of_app in Hr as [Hr|Hr]; [by apply Hz|].
      apply list_elem_of_singleton in Hr. subst. lia.
  - destruct (overlap user_message row <? overlap user_message x)%nat eqn:E.
    + apply Nat.ltb_lt in E. right. exists (pre ++ row :: post), x, [].
      repeat split; [lia| |].
      * intros r Hr. apply elem_of_app in Hr as [Hr|Hr].
        { specialize (Hpre r Hr). lia. }
        apply elem_of_cons in Hr as [->|Hr]; [lia|]. specialize (Hpost r Hr). lia.
      * intros r Hr. inversion Hr.
    + apply Nat.ltb_ge in E. right. exists pre, row, (post ++ [x]).
      repeat split; [by rewrite <- app_assoc|done|done|].
      intros r Hr. apply elem_of_app in Hr as [Hr|Hr]; [by apply Hpost|].
      apply list_elem_of_singleton in Hr. by subst.
Qed.

Lemma find_none_all {A} (f : A -> bool) l :
  (forall x, x ∈ l -> f x = false) -> find f l = None.
Proof.
  induction l as [|x l IH]; intros H; simpl; [done|].
  rewrite (H x) by left. apply IH. intros y Hy. apply H. by right.
Qed.

(** C3. With no stage-1 and no stage-2 match, the matcher scores every row
    by the number of tokens its normalised text shares with the normalised
    utterance (the plain size of the intersection) and returns the row of the
    largest score, the first one in stored order among equals, if that score
    is at least 1; otherwise it returns nothing. *)
Theorem stage3_token_overlap user_message dataset :
  (forall r, r ∈ dataset -> ~ exact_match user_message r) ->
  (forall r, r ∈ dataset -> numeric_match user_message r = false) ->
  match find_intent_response user_message dataset with
  | Some res =>
      exists pre row post,
        dataset = pre ++ row :: post
        /\ res = result_of row
        /\ (1 <= overlap user_message row)%nat
        /\ (forall r, r ∈ pre -> (overlap user_message r < overlap user_message row)%nat)
        /\ (forall r, r ∈ post -> (overlap user_message r <= overlap user_message row)%nat)
  | None => forall r, r ∈ dataset -> overlap user_message r = 0%nat
  end.
Proof.
  intros H1 H2. unfold find_intent_response.
  destruct user_message as [|c m] eqn:Em.
  { intros r _. unfold overlap. simpl. rewrite tokens_nil, (right_absorb_L ∅ (∩)).
    apply size_empty. }
  rewrite <- Em in *. clear c m Em.
  rewrite find_none_all.
  2:{ intros r Hr. specialize (H1 r Hr). rewrite <- exact_hit_spec in H1.
      by destruct (exact_hit _ r). }
  rewrite find_none_all.
  2:{ intros r Hr. rewrite numeric_hit_spec. by apply H2. }
  destruct (best_overlap_spec user_message dataset)
    as [[-> Hz]|(pre & row & post & -> & -> & Hpos & Hpre & Hpost)].
  - done.
  - destruct (1 <=? overlap user_message row)%nat eqn:E.
    + by exists pre, row, post.
    + apply Nat.leb_gt in E. lia.
Qed.

(** The loan example of the design: the loan row is chosen; it shares the
    one token [loan] with the utterance, the card row none. *)
Example loan_example :
  let loan := mk_row (py "loan inquiry details") (py "loan_inquiry") [] [] in
  let card := mk_row (py "card block request") (py "block_card") [] [] in
  find_intent_response (py "tell me about loan") [loan; card] = Some (result_of loan)
  /\ overlap (py "tell me about loan") loan = 1%nat
  /\ overlap (py "tell me about loan") card = 0%nat.
Proof. repeat split; vm_compute; reflexivity. Qed.

Lemma stage3_token_overlap_witness :
  let dataset :=
    [ mk_row (py "card block request") (py "block_card") [] [];
      mk_row (py "loan inquiry details") (py "loan_inquiry") [] [];
      mk_row (py "loan") (py "loan_products") [] [] ] in
  exists pre row post,
    dataset = pre ++ row :: post
    /\ Some {| m_intent := py "loan_inquiry"; m_response := []; m_entities := [] |}
       = Some (result_of row)
    /\ (forall r, r ∈ pre ->
          (overlap (py "tell me about loan") r < overlap (py "tell me about loan") row)%nat)
    /\ (forall r, r ∈ post ->
          (overlap (py "tell me about loan") r <= overlap (py "tell me about loan") row)%nat).
Proof.
  intros dataset.
  pose proof (stage3_token_overlap (py "tell me about loan") dataset) as H.
  assert (E : find_intent_response (py "tell me about loan") dataset
              = Some {| m_intent := py "loan_inquiry"; m_response := []; m_entities := [] |})
    by (vm_compute; reflexivity).
  rewrite E in H.
  destruct H as (pre & row & post & Hd & Hres & _ & Hpre & Hpost).
  - intros r Hr [_ Heq]. subst dataset.
    repeat (apply elem_of_cons in Hr as [->|Hr]; [vm_compute in Heq; discriminate Heq|]).
    inversion Hr.
  - intros r Hr. subst dataset.
    repeat (apply elem_of_cons in Hr as [->|Hr]; [vm_compute; reflexivity|]).
    inversion Hr.
  - exists pre, row, post. split; [exact Hd|]. split; [exact (f_equal Some Hres)|].
    split; [exact Hpre|exact Hpost].
Defined.

(** ** C4: the entity extractor *)

(** *** The bounded searches *)

Lemma last_or_cons prev c a : last_or prev (c :: a) = last_or (Some c) a.
Proof. unfold last_or. rewrite last_cons. by destruct (last a). Qed.

Lemma last_or_nil prev : last_or prev [] = prev.
Proof. done. Qed.

Lemma last_or_app prev a r : last_or prev (a ++ r) = last_or (last_or prev a) r.
Proof. unfold last_or. rewrite last_app. by destruct (last r). Qed.

(** [greedy] returns the longest run at the head of [s] that is long enough
    and followed by a word boundary. *)
Lemma greedy_spec cls lo s : forall n prev,
  match Re.greedy cls lo n prev s with
  | Some r =>
      (exists b, s = r ++ b /\ Forall (fun c => cls c = true) r
                 /\ (lo <= n + length r)%nat
                 /\ Re.boundary (last_or prev r) (head b) = true)
      /\ (forall r' b', s = r' ++ b' -> Forall (fun c => cls c = true) r' ->
            (lo <= n + length r')%nat ->
            Re.boundary (last_or prev r') (head b') = true ->
            (length r' <= length r)%nat)
  | None =>
      forall r' b', s = r' ++ b' -> Forall (fun c => cls c = true) r' ->
        (lo <= n + length r')%nat ->
        Re.boundary (last_or prev r') (head b') = true -> False
  end.
Proof.
  assert (Hstop : forall n prev s,
    (forall r' b', s = r' ++ b' -> Forall (fun c => cls c = true) r' ->
       (lo <= n + length r')%nat ->
       Re.boundary (last_or prev r') (head b') = true -> r' = []) ->
    match (if (lo <=? n)%nat && Re.boundary prev (head s) then Some [] else None) with
    | Some r =>
        (exists b, s = r ++ b /\ Forall (fun c => cls c = true) r
                   /\ (lo <= n + length r)%nat
                   /\ Re.boundary (last_or prev r) (head b) = true)
        /\ (forall r' b', s = r' ++ b' -> Forall (fun c => cls c = true) r' ->
              (lo <= n + length r')%nat ->
              Re.boundary (last_or prev r') (head b') = true ->
              (length r' <= length r)%nat)
    | None =>
        forall r' b', s = r' ++ b' -> Forall (fun c => cls c = true) r' ->
          (lo <= n + length r')%nat ->
          Re.boundary (last_or prev r') (head b') = true -> False
    end).
  { intros n prev s0 Hnil.
    destruct ((lo <=? n)%nat && Re.boundary prev (head s0)) eqn:E.
    - apply andb_true_iff in E as [E1 E2]. apply Nat.leb_le in E1. split.
      + exists s0. repeat split; [constructor|simpl; lia|done].
      + intros r' b' Hs Hr Hlen Hb. by rewrite (Hnil r' b' Hs Hr Hlen Hb).
    - intros r' b' Hs Hr Hlen Hb. pose proof (Hnil r' b' Hs Hr Hlen Hb) as ->.
      simpl in *. subst b'. rewrite last_or_nil in Hb.
      apply andb_false_iff in E as [E|E]; [apply Nat.leb_gt in E; lia|congruence]. }
  induction s as [|c s IH]; intros n prev.
  - apply Hstop. intros r' b' Hs _ _ _. symmetry in Hs. by apply app_eq_nil in Hs as [-> _].
  - cbn [Re.greedy]. destruct (cls c) eqn:Hc.
    + specialize (IH (S n) (Some c)).
      destruct (Re.greedy cls lo (S n) (Some c) s) as [r0|].
      * destruct IH as [(b & Hs & Hr & Hlen & Hb) Hmax]. split.
        { exists b. repeat split.
          - by rewrite Hs.
          - by constructor.
          - simpl. lia.
          - by rewrite last_or_cons. }
        intros r' b' Hs' Hr' Hlen' Hb'. destruct r' as [|x r']; [simpl; lia|].
        simpl in Hs'. injection Hs' as <- Hs'. simpl.
        apply le_n_S, (Hmax r' b' Hs'); [by inversion Hr'|simpl in Hlen'; lia|].
        by rewrite <- (last_or_cons prev).
      * apply Hstop. intros r' b' Hs' Hr' Hlen' Hb'. destruct r' as [|x r']; [done|].
        exfalso. simpl in Hs'. injection Hs' as <- Hs'.
        apply (IH r' b' Hs'); [by inversion Hr'|simpl in Hlen'; lia|].
        by rewrite <- (last_or_cons prev).
    + apply Hstop. intros r' b' Hs' Hr' _ _. destruct r' as [|x r']; [done|].
      simpl in Hs'. injection Hs' as <- _. inversion Hr'; congruence.
Qed.

Lemma bounded_run_after_cons prev cls lo c s a r b :
  bounded_run_after prev cls lo (c :: s) (c :: a) r b
  <-> bounded_run_after (Some c) cls lo s a r b.
Proof.
  unfold bounded_run_after.
  change ((c :: a) ++ r) with (c :: (a ++ r)). rewrite !last_or_cons.
  split; intros (Hs & H); (split; [|exact H]); simpl in *; congruence.
Qed.

(** [search_go] returns the first bounded run, and the longest one there. *)
Lemma search_go_spec cls lo s : forall prev,
  first_bounded_run_after prev cls lo s (Re.search_go cls lo prev s).
Proof.
  induction s as [|c s IH]; intros prev.
  - cbn [Re.search_go]. pose proof (greedy_spec cls lo [] 0 prev) as Hg.
    destruct (Re.boundary prev (head [])) eqn:Hb.
    + destruct (Re.greedy cls lo 0 prev []) as [r|].
      * destruct Hg as [(b & Hs & Hr & Hlen & Hbd) Hmax].
        symmetry in Hs. apply app_eq_nil in Hs as [-> ->].
        exists [], []. split; [by repeat split|].
        intros a' r' b' (Hs' & _). symmetry in Hs'.
        apply app_eq_nil in Hs' as [-> Hs']. apply app_eq_nil in Hs' as [-> _].
        right. done.
      * intros a r b (Hs & Hr & Hlen & Hb1 & Hb2). symmetry in Hs.
        apply app_eq_nil in Hs as [-> Hs]. apply app_eq_nil in Hs as [-> ->].
        by apply (Hg [] []).
    + intros a r b (Hs & Hr & Hlen & Hb1 & Hb2). symmetry in Hs.
      apply app_eq_nil in Hs as [-> Hs]. apply app_eq_nil in Hs as [-> ->].
      simpl in *. rewrite last_or_nil in Hb1. congruence.
  - cbn [Re.search_go].
    pose proof (greedy_spec cls lo (c :: s) 0 prev) as Hg.
    assert (Hrest : forall a r b,
      bounded_run_after prev cls lo (c :: s) a r b -> a <> [] ->
      exists a', a = c :: a' /\ bounded_run_after (Some c) cls lo s a' r b).
    { intros a r b H Ha. destruct a as [|x a]; [done|].
      assert (x = c) as -> by (destruct H as [H _]; simpl in H; congruence).
      exists a. split; [done|]. exact (proj1 (bounded_run_after_cons _ _ _ _ _ _ _ _) H). }
    assert (Hnone :
      (forall r b, ~ bounded_run_after prev cls lo (c :: s) [] r b) ->
      first_bounded_run_after prev cls lo (c :: s) (Re.search_go cls lo (Some c) s)).
    { intros Hno. specialize (IH (Some c)).
      destruct (Re.search_go cls lo (Some c) s) as [r|]; simpl in *.
      - destruct IH as (a & b & Hrun & Hfirst). exists (c :: a), b.
        split; [exact (proj2 (bounded_run_after_cons prev _ _ _ _ _ _ _) Hrun)|].
        intros a' r' b' H'. destruct (decide (a' = [])) as [->|Ha'].
        { by destruct (Hno r' b'). }
        destruct (Hrest _ _ _ H' Ha') as (a'' & -> & H'').
        destruct (Hfirst _ _ _ H'') as [?|[? ?]]; simpl; [left; lia|right; split; lia].
      - intros a r b H. destruct (decide (a = [])) as [->|Ha].
        { by apply (Hno r b). }
        destruct (Hrest _ _ _ H Ha) as (a' & -> & H'). by apply (IH a' r b). }
    destruct (Re.boundary prev (head (c :: s))) eqn:Hb.
    + destruct (Re.greedy cls lo 0 prev (c :: s)) as [r|].
      * destruct Hg as [(b & Hs & Hr & Hlen & Hbd) Hmax].
        exists [], b. split.
        { repeat split; try done. by rewrite <- Hs. }
        intros a' r' b' (Hs' & Hr' & Hlen' & Hb1' & Hb2').
        destruct a' as [|x a']; [|left; simpl; lia].
        right. split; [done|]. apply (Hmax r' b'); done.
      * apply Hnone. intros r b (Hs & Hr & Hlen & Hb1 & Hb2).
        by apply (Hg r b).
    + apply Hnone. intros r b (Hs & Hr & Hlen & Hb1 & Hb2).
      simpl in Hs. rewrite <- Hs, last_or_nil in Hb1. congruence.
Qed.

(** [re.search(r'\b(cls{lo,})\b', text)] finds the first run of [lo] or more
    characters of the class between word boundaries. *)
Lemma search_bounded_spec cls lo text :
  first_bounded_run cls lo text (Re.search_bounded cls lo text).
Proof. apply search_go_spec. Qed.

(** *** The pass over the annotation *)

Ltac key_clash :=
  match goal with
  | H1 : ?x = py _, H2 : ?x = py _ |- _ =>
      exfalso; rewrite H1 in H2; vm_compute in H2; discriminate H2
  | H1 : ?x = py _, H2 : ?x <> py _ |- _ => exfalso; apply H2; exact H1
  end.

Lemma annotate_account_number e ent :
  account_number (annotate e ent)
  = from_option Some (account_number e) (segment_value (py "ACCOUNT_NUMBER") ent).
Proof.
  unfold annotate, segment_value. destruct (Str.has_char ":" ent); [|done].
  destruct (Str.split_once ":" ent) as [k v].
  destruct (Str.nonempty (Str.strip v)); rewrite ?andb_false_r; [|done].
  rewrite !andb_true_r. repeat case_bool_decide; simpl; try done; key_clash.
Qed.

Lemma annotate_amount e ent :
  amount (annotate e ent)
  = from_option Some (amount e) (segment_value (py "MONEY") ent).
Proof.
  unfold annotate, segment_value. destruct (Str.has_char ":" ent); [|done].
  destruct (Str.split_once ":" ent) as [k v].
  destruct (Str.nonempty (Str.strip v)); rewrite ?andb_false_r; [|done].
  rewrite !andb_true_r. repeat case_bool_decide; simpl; try done; key_clash.
Qed.

Lemma annotate_person e ent :
  person (annotate e ent)
  = from_option Some (person e) (segment_value (py "PERSON") ent).
Proof.
  unfold annotate, segment_value. destruct (Str.has_char ":" ent); [|done].
  destruct (Str.split_once ":" ent) as [k v].
  destruct (Str.nonempty (Str.strip v)); rewrite ?andb_false_r; [|done].
  rewrite !andb_true_r. repeat case_bool_decide; simpl; try done; key_clash.
Qed.

(** After the loop a field holds the value of the last segment that gives
    one, or what it held before. *)
Lemma fold_annotate_field (get : Entities -> option pystr) key :
  (forall e ent, get (annotate e ent) = from_option Some (get e) (segment_value key ent)) ->
  forall segs e0,
    get (fold_left annotate segs e0)
    = from_option Some (get e0) (last (omap (segment_value key) segs)).
Proof.
  intros Hstep. induction segs as [|x segs IH]; intros e0; [done|].
  cbn [fold_left omap list_omap]. rewrite IH, Hstep.
  destruct (segment_value key x) as [y|]; simpl; [|done].
  rewrite last_cons. by destruct (last _).
Qed.

Lemma no_entities_fields :
  account_number no_entities = None /\ amount no_entities = None
  /\ person no_entities = None.
Proof. done. Qed.

(** C4, as amended. An empty annotation yields no entities at all. For a
    non-empty one, each of [account_number], [amount] and [person] is the
    value the annotation gives to [ACCOUNT_NUMBER], [MONEY] or [PERSON] (key
    trimmed and upper-cased, value trimmed and non-empty, the last such
    segment) if there is one; otherwise it is the first run in the utterance,
    between word boundaries, of 6 or more digits, of one or more digits, or
    of 2 or more letters a-z or A-Z, and it is unset if there is no such
    run. *)
Theorem extract_entities_spec text entities_str :
  (entities_str = [] -> extract_entities text entities_str = no_entities)
  /\ (entities_str <> [] ->
      field_spec (annotated (py "ACCOUNT_NUMBER") entities_str) Char.is_digit 6 text
        (account_number (extract_entities text entities_str))
      /\ field_spec (annotated (py "MONEY") entities_str) Char.is_digit 1 text
           (amount (extract_entities text entities_str))
      /\ field_spec (annotated (py "PERSON") entities_str) Char.is_ascii_alpha 2 text
           (person (extract_entities text entities_str))).
Proof.
  split; [by intros ->|]. intros Hne.
  unfold extract_entities. destruct entities_str as [|c0 s0] eqn:Es; [done|].
  rewrite <- Es. clear Hne. unfold annotated.
  pose proof (fold_annotate_field account_number _ annotate_account_number
                (Str.split_on "|" entities_str) no_entities) as Ha.
  pose proof (fold_annotate_field amount _ annotate_amount
                (Str.split_on "|" entities_str) no_entities) as Hm.
  pose proof (fold_annotate_field person _ annotate_person
                (Str.split_on "|" entities_str) no_entities) as Hp.
  pose proof (search_bounded_spec Char.is_digit 6 text) as S6.
  pose proof (search_bounded_spec Char.is_digit 1 text) as S1.
  pose proof (search_bounded_spec Char.is_ascii_alpha 2 text) as S2.
  change (account_number no_entities) with (@None pystr) in Ha.
  change (amount no_entities) with (@None pystr) in Hm.
  change (person no_entities) with (@None pystr) in Hp.
  destruct (fold_left annotate _ no_entities) as [ea em ep].
  cbn [account_number amount person] in Ha, Hm, Hp. subst ea em ep.
  destruct (last (omap (segment_value (py "ACCOUNT_NUMBER")) _)) as [va|];
  destruct (last (omap (segment_value (py "MONEY")) _)) as [vm|];
  destruct (last (omap (segment_value (py "PERSON")) _)) as [vp|];
  cbn [from_option field_spec account_number amount person];
  destruct (Re.search_bounded Char.is_digit 6 text);
  destruct (Re.search_bounded Char.is_digit 1 text);
  destruct (Re.search_bounded Char.is_ascii_alpha 2 text);
  unfold set_account_number, set_amount, set_person;
  cbn [from_option field_spec account_number amount person];
  repeat split; assumption || reflexivity.
Qed.

Lemma extract_entities_spec_witness :
  first_bounded_run Char.is_digit 6 (py "my account 123456789") (Some (py "123456789"))
  /\ first_bounded_run Char.is_digit 1 (py "my account 123456789") (Some (py "123456789"))
  /\ first_bounded_run Char.is_ascii_alpha 2 (py "my account 123456789") (Some (py "my")).
Proof.
  assert (Hne : py "ACCOUNT_NUMBER" <> []) by discriminate.
  exact (proj2 (extract_entities_spec (py "my account 123456789") (py "ACCOUNT_NUMBER")) Hne).
Defined.

(** The duplication of the design: with an annotation that names no value,
    the one number of the utterance is both the account number and the
    amount. *)
Example extract_entities_duplication :
  extract_entities (py "my account 123456789") (py "ACCOUNT_NUMBER")
  = {| account_number := Some (py "123456789");
       amount := Some (py "123456789");
       person := Some (py "my") |}.
Proof. vm_compute. reflexivity. Qed.

(** C4 as stated fails. With no annotation the extractor returns at once, so
    ["my account 123456789"] yields neither an amount nor an account number;
    with an annotation that names no value, the six digits of ["acct123456"],
    which follow a letter without a word boundary, are not taken although
    they are the first run of 6 or more digits; and the key of the segment
    [" money :5"] is recognised because the key is trimmed as well. *)
Lemma extract_entities_claimed_counterexample :
  extract_entities (py "my account 123456789") [] = no_entities
  /\ first_run Char.is_digit 6 (py "acct123456") = Some (py "123456")
  /\ account_number (extract_entities (py "acct123456") (py "ACCOUNT_NUMBER")) = None
  /\ amount (extract_entities (py "x") (py " money :5")) = Some (py "5").
Proof. repeat split; vm_compute; reflexivity. Qed.

(** ** The reply *)

Lemma take_digits_spec t :
  exists b, t = Re.take_digits t ++ b
            /\ Forall (fun c => Char.is_digit c = true) (Re.take_digits t)
            /\ (forall c, head b = Some c -> Char.is_digit c = false).
Proof.
  induction t as [|c t (b & Ht & Hd & Hb)]; simpl.
  - exists []. by repeat split.
  - destruct (Char.is_digit c) eqn:Hc.
    + exists b. repeat split; [by rewrite Ht at 1|by constructor|done].
    + exists (c :: t). repeat split; [constructor|]. by intros ? [= <-].
Qed.

(** The digits at the head of a text are determined by the text. *)
Lemma digits_prefix_unique m b m' b' :
  m ++ b = m' ++ b' ->
  Forall (fun c => Char.is_digit c = true) m ->
  Forall (fun c => Char.is_digit c = true) m' ->
  (forall c, head b = Some c -> Char.is_digit c = false) ->
  (forall c, head b' = Some c -> Char.is_digit c = false) ->
  m = m'.
Proof.
  intros E Hm. revert m' E. induction Hm as [|c m Hc _ IH]; intros m' E Hm' Hb Hb'.
  - destruct Hm' as [|c' m' Hc' _]; [done|]. simpl in E. subst b.
    specialize (Hb c' eq_refl). congruence.
  - destruct Hm' as [|c' m' Hc' Hm']; simpl in E.
    + subst b'. specialize (Hb' c eq_refl). congruence.
    + injection E as <- E. f_equal. by apply IH.
Qed.

Lemma take_digits_app m b :
  Forall (fun c => Char.is_digit c = true) m ->
  (forall c, head b = Some c -> Char.is_digit c = false) ->
  Re.take_digits (m ++ b) = m.
Proof.
  intros Hm Hb. destruct (take_digits_spec (m ++ b)) as (b' & E & Hd & Hb').
  symmetry. by apply (digits_prefix_unique m b _ b').
Qed.

Lemma money_at_cons c ents a m b :
  money_at (c :: ents) (c :: a) m b <-> money_at ents a m b.
Proof.
  unfold money_at. split; intros (E & H); (split; [|exact H]); simpl in *; congruence.
Qed.

(** [re.search(r'MONEY:(\d+)', ents)] finds the digits after the first
    [MONEY:] that digits follow. *)
Lemma search_money_spec ents : first_money ents (Re.search_money ents).
Proof.
  induction ents as [|c ents IH].
  - simpl. intros a m b (E & _). symmetry in E.
    apply app_eq_nil in E as [_ E]. discriminate E.
  - cbn [Re.search_money].
    assert (Hrest : forall a m b, money_at (c :: ents) a m b -> a <> [] ->
              exists a', a = c :: a' /\ money_at ents a' m b).
    { intros a m b H Ha. destruct a as [|x a]; [done|].
      assert (x = c) as -> by (destruct H as [H _]; simpl in H; congruence).
      exists a. split; [done|]. exact (proj1 (money_at_cons _ _ _ _ _) H). }
    assert (Hnone : (forall m b, ~ money_at (c :: ents) [] m b) ->
              first_money (c :: ents) (Re.search_money ents)).
    { intros Hno. destruct (Re.search_money ents) as [m|]; simpl in *.
      - destruct IH as (a & b & Hat & Hfirst). exists (c :: a), b.
        split; [exact (proj2 (money_at_cons _ _ _ _ _) Hat)|].
        intros a' m' b' H'. destruct (decide (a' = [])) as [->|Ha'].
        { by destruct (Hno m' b'). }
        destruct (Hrest _ _ _ H' Ha') as (a'' & -> & H'').
        specialize (Hfirst _ _ _ H''). simpl. lia.
      - intros a m b H. destruct (decide (a = [])) as [->|Ha].
        { by apply (Hno m b). }
        destruct (Hrest _ _ _ H Ha) as (a' & -> & H'). by apply (IH a' m b). }
    destruct (Str.starts_with (py "MONEY:") (c :: ents)) eqn:Hsw.
    + apply starts_with_spec in Hsw as [t Ht]. rewrite Ht.
      change (drop 6 (py "MONEY:" ++ t)) with t.
      destruct (take_digits_spec t) as (b & Eb & Hd & Hb).
      destruct (Re.take_digits t) as [|d ds] eqn:Etd.
      * rewrite <- Ht. apply Hnone. intros m b' (E & Hne & Hm & Hb').
        rewrite Ht in E. simpl in E. apply (app_inv_head (py "MONEY:")) in E.
        rewrite E, (take_digits_app m b') in Etd by done. done.
      * exists [], b. split; [|intros; simpl; lia].
        split; [simpl; by rewrite Eb at 1|]. by repeat split.
    + apply Hnone. intros m b (E & _).
      assert (Ht : Str.starts_with (py "MONEY:") (c :: ents) = true).
      { apply starts_with_spec. exists (m ++ b). exact E. }
      congruence.
Qed.

(** The loop over the corpus finds the first pairing row. *)
Lemma paired_money_spec acct dataset :
  first_pairing acct dataset (paired_money acct dataset).
Proof.
  induction dataset as [|row ds IH].
  - simpl. intros r m' Hr. inversion Hr.
  - cbn [paired_money].
    assert (Hskip : (forall m', ~ pairs acct row m') ->
              first_pairing acct (row :: ds) (paired_money acct ds)).
    { intros Hno. destruct (paired_money acct ds) as [m|]; simpl in *.
      - destruct IH as (pre & r & post & -> & Hp & Hpre).
        exists (row :: pre), r, post. split; [done|]. split; [done|].
        intros r' m' Hr'. apply elem_of_cons in Hr' as [->|Hr']; [apply Hno|by apply Hpre].
      - intros r m' Hr. apply elem_of_cons in Hr as [->|Hr]; [apply Hno|by apply IH]. }
    destruct (Str.contains _ (py "ACCOUNT_NUMBER:" ++ acct)) eqn:E1;
      [|apply Hskip; intros m' (H1 & _); congruence].
    destruct (Str.contains _ (py "MONEY:")) eqn:E2;
      [|apply Hskip; intros m' (_ & H2 & _); congruence].
    simpl. pose proof (search_money_spec (get_str (r_entities row))) as Hs.
    destruct (Re.search_money (get_str (r_entities row))) as [m|].
    + exists [], row, ds. split; [done|]. split; [by repeat split|].
      intros r m' Hr. inversion Hr.
    + apply Hskip. intros m' (_ & _ & (a & b & Hat & _)). by apply (Hs a m' b).
Qed.



Lemma balance_reply_nonempty v : Str.nonempty (balance_reply v) = true.
Proof. done. Qed.

Lemma nonempty_true s : Str.nonempty s = true <-> s <> [].
Proof. by destruct s. Qed.

Lemma nonempty_false s : Str.nonempty s = false <-> s = [].
Proof. by destruct s. Qed.


(** ** C6: the deduplicating append *)

Lemma same_key_spec text intent entities_str row :
  same_key text intent entities_str row = true
  <-> row_key row = (Some text, Some intent, Some entities_str).
Proof.
  unfold same_key, row_key. rewrite !andb_true_iff, !bool_decide_eq_true.
  split; [intros [[-> ->] ->]; done|intros [= -> -> ->]; done].
Qed.

Lemma existsb_same_key text intent entities_str dataset :
  existsb (same_key text intent entities_str) dataset = true
  <-> (Some text, Some intent, Some entities_str) ∈ row_key <$> dataset.
Proof.
  rewrite existsb_exists, list_elem_of_fmap. split.
  - intros (r & Hin & Hr). exists r. split; [symmetry; by apply same_key_spec|].
    by apply list_elem_of_In.
  - intros (r & Hk & Hin). exists r. split; [by apply list_elem_of_In|].
    by apply same_key_spec.
Qed.

Lemma existsb_same_key_false text intent entities_str dataset :
  existsb (same_key text intent entities_str) dataset = false
  <-> (Some text, Some intent, Some entities_str) ∉ row_key <$> dataset.
Proof.
  rewrite <- existsb_same_key. by destruct (existsb _ _).
Qed.

Lemma row_key_mk_row text intent response entities_str :
  row_key (mk_row text intent response entities_str)
  = (Some text, Some intent, Some entities_str).
Proof. done. Qed.

Lemma filter_same_key_absent text intent entities_str dataset :
  (Some text, Some intent, Some entities_str) ∉ row_key <$> dataset ->
  List.filter (same_key text intent entities_str) dataset = [].
Proof.
  induction dataset as [|r ds IH]; [done|]. intros Hno. simpl.
  destruct (same_key text intent entities_str r) eqn:E.
  - apply same_key_spec in E. exfalso. apply Hno. rewrite fmap_cons, E. left.
  - apply IH. intros Hin. apply Hno. rewrite fmap_cons. by right.
Qed.

(** C6. The append does nothing and returns [False] when a row with the
    same text, intent and entities is in memory; otherwise it adds exactly
    that one row to memory and to the log and returns [True]. Appending the
    same tuple twice leaves one such row, the second call returning [False];
    and every append keeps the appended rows free of duplicate keys. *)
Theorem append_deduplicates text intent response entities_str st :
  let key := (Some text, Some intent, Some entities_str) in
  let row := mk_row text intent response entities_str in
  let app io s := append_to_dataset_row io text intent response entities_str s in
  (key ∈ row_key <$> dataset st ->
     app IoOk st = (st, Returned false)
     /\ forall residue, app (IoErrWrite residue) st = (st, Returned false))
  /\ (key ∉ row_key <$> dataset st ->
      app IoOk st
      = ({| dataset := dataset st ++ [row];
            csv_log := csv_log st
                       ++ (match csv_log st with [] => [csv_header] | _ => [] end)
                       ++ [[text; intent; response; entities_str]] |},
         Returned true))
  /\ (app IoOk (app IoOk st).1 = ((app IoOk st).1, Returned false)
      /\ (key ∉ row_key <$> dataset st ->
          length (List.filter (same_key text intent entities_str)
                    (dataset (app IoOk st).1)) = 1%nat))
  /\ (forall io loaded appended,
        dataset st = loaded ++ appended -> appended_fresh loaded appended ->
        exists appended',
          dataset (app io st).1 = loaded ++ appended'
          /\ appended_fresh loaded appended').
Proof.
  intros key row app. unfold app. clear app.
  assert (Hdup : key ∈ row_key <$> dataset st ->
            forall io, io <> IoErrEarly ->
            append_to_dataset_row io text intent response entities_str st
            = (st, Returned false)).
  { intros Hin io Hio. apply existsb_same_key in Hin.
    unfold append_to_dataset_row. rewrite Hin. by destruct io. }
  assert (Hnew : key ∉ row_key <$> dataset st ->
            append_to_dataset_row IoOk text intent response entities_str st
            = ({| dataset := dataset st ++ [row];
                  csv_log := csv_log st
                             ++ (match csv_log st with [] => [csv_header] | _ => [] end)
                             ++ [[text; intent; response; entities_str]] |},
               Returned true)).
  { intros Hno. apply existsb_same_key_false in Hno.
    unfold append_to_dataset_row. rewrite Hno. by destruct (csv_log st). }
  split; [|split; [|split]].
  - intros Hin. split; [exact (Hdup Hin IoOk ltac:(done))|].
    intros residue. exact (Hdup Hin (IoErrWrite residue) ltac:(done)).
  - exact Hnew.
  - destruct (decide (key ∈ row_key <$> dataset st)) as [Hin|Hno].
    + rewrite (Hdup Hin IoOk ltac:(done)). cbn [fst].
      split; [exact (Hdup Hin IoOk ltac:(done))|done].
    + rewrite (Hnew Hno). cbn [fst]. split.
      * unfold append_to_dataset_row. cbn [dataset].
        assert (existsb (same_key text intent entities_str) (dataset st ++ [row]) = true) as ->.
        { rewrite existsb_app. simpl. unfold same_key at 2. simpl.
          rewrite !bool_decide_eq_true_2 by done. simpl. apply orb_true_r. }
        done.
      * intros _. cbn [dataset]. rewrite List.filter_app, filter_same_key_absent by done.
        simpl. unfold same_key. simpl. by rewrite !bool_decide_eq_true_2.
  - intros io loaded appended Hds [Hnd Hfresh].
    assert (Hsame : exists appended', dataset st = loaded ++ appended'
                      /\ appended_fresh loaded appended') by by exists appended.
    destruct (decide (key ∈ row_key <$> dataset st)) as [Hin|Hno].
    + destruct io as [| |residue]; [rewrite (Hdup Hin IoOk ltac:(done))|done|
        rewrite (Hdup Hin (IoErrWrite residue) ltac:(done))]; done.
    + destruct io as [| |residue]; [|done|].
      * rewrite (Hnew Hno). cbn [fst dataset]. exists (appended ++ [row]).
        rewrite Hds, <- app_assoc. split; [done|].
        rewrite Hds, fmap_app, not_elem_of_app in Hno. destruct Hno as [Hno1 Hno2].
        split.
        { rewrite fmap_app. apply NoDup_app. split; [done|]. split.
          - intros k Hk Hk'. apply list_elem_of_singleton in Hk'. by subst k.
          - apply NoDup_singleton. }
        intros r Hr. apply elem_of_app in Hr as [Hr|Hr]; [by apply Hfresh|].
        apply list_elem_of_singleton in Hr. by subst r.
      * apply existsb_same_key_false in Hno. unfold append_to_dataset_row.
        rewrite Hno. cbn [fst dataset]. done.
Qed.

Lemma append_deduplicates_witness :
  let st := {| dataset := [mk_row (py "hello") (py "greet") (py "Hi") []]; csv_log := [] |} in
  append_to_dataset_row IoOk (py "my balance 500") (py "check_balance") (py "ok")
    (py "MONEY:500") st
  = ({| dataset := [mk_row (py "hello") (py "greet") (py "Hi") [];
                    mk_row (py "my balance 500") (py "check_balance") (py "ok")
                      (py "MONEY:500")];
        csv_log := [csv_header;
                    [py "my balance 500"; py "check_balance"; py "ok"; py "MONEY:500"]] |},
     Returned true).
Proof.
  intros st.
  refine (proj1 (proj2 (append_deduplicates (py "my balance 500") (py "check_balance")
                          (py "ok") (py "MONEY:500") st)) _).
  intros Hin. apply list_elem_of_fmap in Hin as (r & Hk & Hr).
  apply list_elem_of_singleton in Hr. subst r. discriminate Hk.
Defined.

(** ** The chat turn: C10 *)

Section TurnProperties.

Context {Balance : Type}.
Implicit Types (user : @User Balance) (st : @State Balance).

Lemma find_intent_response_empty dataset : find_intent_response [] dataset = None.
Proof. done. Qed.

Lemma chat_turn_no_match io uid user message st :
  find_intent_response (Str.strip (default [] message)) (dataset (store st)) = None ->
  chat_turn io uid user message st
  = (let data :=
       <[uid := add_conversation
                  {| c_user := Str.strip (default [] message);
                     c_bot := out_of_scope_reply;
                     c_intent := py "out_of_scope" |}
                  (default (new_facts user) (user_data st !! uid))]> (user_data st) in
     {| store := store st; user_data := data; user_file := data |},
     Returned fallback_reply).
Proof. intros H. unfold chat_turn. by rewrite H. Qed.

(** C10. On the path without a match, the record of a user that exists
    gets exactly one new conversation entry, with the trimmed utterance,
    the out-of-scope reply and the intent [out_of_scope]; its other fields,
    the records of other users and the corpus stay as they were, whatever
    the file system would do. *)
Theorem no_match_frame io uid user message st u :
  user_data st !! uid = Some u ->
  find_intent_response (Str.strip (default [] message)) (dataset (store st)) = None ->
  let st' := (chat_turn io uid user message st).1 in
  (exists u',
      user_data st' !! uid = Some u'
      /\ uf_conversations u'
         = uf_conversations u
           ++ [{| c_user := Str.strip (default [] message);
                  c_bot := out_of_scope_reply;
                  c_intent := py "out_of_scope" |}]
      /\ uf_account_number u' = uf_account_number u
      /\ uf_balance u' = uf_balance u
      /\ uf_last_amount u' = uf_last_amount u
      /\ uf_last_recipient u' = uf_last_recipient u
      /\ uf_amount u' = uf_amount u
      /\ uf_person u' = uf_person u)
  /\ (forall other, other <> uid -> user_data st' !! other = user_data st !! other)
  /\ store st' = store st.
Proof.
  intros Hu Hnone st'. subst st'.
  rewrite (chat_turn_no_match io uid user message st Hnone). cbn [fst user_data store].
  rewrite Hu. cbn [default]. split; [|split].
  - eexists. split; [apply lookup_insert_eq|]. by repeat split.
  - intros other Hne. by apply lookup_insert_ne.
  - done.
Qed.

End TurnProperties.

Lemma demo_no_match :
  find_intent_response (Str.strip (default [] (Some (py " xyzzy "))))
    (dataset (store demo_state)) = None.
Proof. vm_compute. reflexivity. Qed.

Lemma no_match_frame_witness :
  let st' := (chat_turn (IoErrWrite [[py "partial"]]) (py "1") demo_user
                (Some (py " xyzzy ")) demo_state).1 in
  (exists u',
      user_data st' !! py "1" = Some u'
      /\ uf_conversations u'
         = [{| c_user := py "xyzzy"; c_bot := out_of_scope_reply;
               c_intent := py "out_of_scope" |}]
      /\ uf_account_number u' = py "123456"
      /\ uf_balance u' = 5000
      /\ uf_last_amount u' = None
      /\ uf_last_recipient u' = None
      /\ uf_amount u' = None
      /\ uf_person u' = None)
  /\ (forall other, other <> py "1" ->
        user_data st' !! other = user_data demo_state !! other)
  /\ store st' = store demo_state.
Proof.
  refine (no_match_frame (IoErrWrite [[py "partial"]]) (py "1") demo_user
            (Some (py " xyzzy ")) demo_state demo_facts _ demo_no_match).
  apply lookup_insert_eq.
Defined.

(** A matched turn whose append is tried: with a working file system the
    corpus grows by the row of the turn. *)
Example demo_turn_appends :
  (chat_turn IoOk (py "1") demo_user (Some (py "Check Balance!")) demo_state).2
  = Returned {| reply := balance_reply (py "500"); intent := py "check_balance";
                intent_color := py "#2196F3" |}
  /\ dataset (store (chat_turn IoOk (py "1") demo_user (Some (py "Check Balance!"))
                       demo_state).1)
     = dataset (store demo_state)
       ++ [mk_row (py "Check Balance!") (py "check_balance") (balance_reply (py "500"))
             (py "MONEY:500")]
  /\ dataset (store (chat_turn (IoErrWrite []) (py "1") demo_user
                       (Some (py "Check Balance!")) demo_state).1)
     = dataset (store demo_state).
Proof. repeat split; vm_compute; reflexivity. Qed.

(** * Further properties of the code *)

(** ** The normaliser and the matcher *)

Lemma normalize_lower text : normalize_text (Str.lower text) = normalize_text text.
Proof.
  destruct text as [|c t]; [done|].
  unfold normalize_text. change (Str.lower (c :: t)) with (Char.lower c :: Str.lower t).
  cbv iota. change (Char.lower c :: Str.lower t) with (Str.lower (c :: t)).
  by rewrite lower_idemp.
Qed.

(** X1. The normal form of a text does not depend on the case of its
    letters nor on white space around it. *)
Theorem normalize_text_case_trim text :
  normalize_text (Str.lower text) = normalize_text text
  /\ normalize_text (Str.strip text) = normalize_text text.
Proof.
  split; [apply normalize_lower|].
  rewrite <- (normalize_lower (Str.strip text)). apply normalize_lower_strip.
Qed.

Lemma find_some_elem {A} (f : A -> bool) l x :
  find f l = Some x -> x ∈ l /\ f x = true.
Proof. intros H. apply find_some in H as [H1 H2]. split; [by apply list_elem_of_In|done]. Qed.

Lemma find_none_elem {A} (f : A -> bool) l x :
  find f l = None -> x ∈ l -> f x = false.
Proof. intros H Hx. apply (find_none f l H). by apply list_elem_of_In. Qed.

(** X2. The matcher only ever answers with a row of the corpus, and that
    row takes part in the match; with an empty corpus it finds nothing. *)
Theorem matcher_answers_from_corpus user_message dataset res :
  find_intent_response user_message dataset = Some res ->
  exists row, row ∈ dataset /\ res = result_of row /\ answers user_message row.
Proof.
  unfold find_intent_response. destruct user_message as [|c m] eqn:Em; [done|].
  rewrite <- Em. clear c m Em.
  destruct (find (exact_hit _) dataset) as [row|] eqn:E1.
  { intros [= <-]. apply find_some_elem in E1 as [Hin Hhit].
    exists row. repeat split; [done|]. left. by apply exact_hit_spec. }
  destruct (find (numeric_hit _) dataset) as [row|] eqn:E2.
  { intros [= <-]. apply find_some_elem in E2 as [Hin Hhit].
    exists row. repeat split; [done|]. right. left. by rewrite <- numeric_hit_spec. }
  destruct (best_overlap_spec user_message dataset)
    as [[-> Hz]|(pre & row & post & -> & -> & Hpos & Hpre & Hpost)]; [done|].
  destruct (1 <=? overlap user_message row)%nat; [|done].
  intros [= <-]. exists row. repeat split.
  - apply elem_of_app. right. left.
  - right. by right.
Qed.

Lemma matcher_answers_from_corpus_witness :
  exists row,
    row ∈ [mk_row (py "check balance") (py "check_balance") (py "Sure") []]
    /\ {| m_intent := py "check_balance"; m_response := py "Sure"; m_entities := [] |}
       = result_of row
    /\ answers (py "Check Balance!") row.
Proof.
  apply (matcher_answers_from_corpus (py "Check Balance!")
           [mk_row (py "check balance") (py "check_balance") (py "Sure") []]).
  vm_compute. reflexivity.
Defined.

(** X3. The matcher finds nothing exactly when the utterance is empty or no
    row of the corpus is an exact match, a numeric match or shares a token
    with it. *)
Theorem matcher_none_iff user_message dataset :
  find_intent_response user_message dataset = None
  <-> user_message = [] \/ forall row, row ∈ dataset -> ~ answers user_message row.
Proof.
  unfold find_intent_response. destruct user_message as [|c m] eqn:Em.
  { split; [by left|done]. }
  rewrite <- Em.
  assert (Hne : user_message <> []) by (by rewrite Em). clear c m Em.
  split.
  - intros H. right.
    destruct (find (exact_hit _) dataset) eqn:E1; [done|].
    destruct (find (numeric_hit _) dataset) eqn:E2; [done|].
    intros row Hrow [Hx|[Hn|Ho]].
    + apply exact_hit_spec in Hx. by rewrite (find_none_elem _ _ _ E1 Hrow) in Hx.
    + rewrite <- numeric_hit_spec in Hn. by rewrite (find_none_elem _ _ _ E2 Hrow) in Hn.
    + destruct (best_overlap_spec user_message dataset)
        as [[_ Hz]|(pre & r & post & -> & Hres & Hpos & _)].
      * rewrite (Hz row Hrow) in Ho. lia.
      * rewrite Hres in H. apply Nat.leb_le in Hpos. by rewrite Hpos in H.
  - intros [H|H]; [done|].
    rewrite find_none_all.
    2:{ intros r Hr. destruct (exact_hit _ r) eqn:E; [|done].
        destruct (H r Hr). left. by apply exact_hit_spec. }
    rewrite find_none_all.
    2:{ intros r Hr. destruct (numeric_hit _ r) eqn:E; [|done].
        destruct (H r Hr). right. left. by rewrite <- numeric_hit_spec. }
    destruct (best_overlap_spec user_message dataset)
      as [[-> _]|(pre & r & post & -> & Hres & Hpos & _)]; [done|].
    destruct (H r); [|by right; right]. apply elem_of_app. right. left.
Qed.

Lemma find_split {A} (f : A -> bool) l x :
  find f l = Some x ->
  exists pre post,
    l = pre ++ x :: post /\ f x = true /\ forall y, y ∈ pre -> f y = false.
Proof.
  induction l as [|a l IH]; [done|]. cbn [find]. destruct (f a) eqn:Ea.
  - intros [= ->]. exists [], l. split; [done|]. split; [done|].
    intros y Hy. inversion Hy.
  - intros H. destruct (IH H) as (pre & post & -> & Hx & Hpre).
    exists (a :: pre), post. split; [done|]. split; [done|].
    intros y Hy. apply elem_of_cons in Hy as [->|Hy]; [done|by apply Hpre].
Qed.

(** X4. Two utterances with the same normal form, one of which is an exact
    match of some row, get the same answer: that of the first row, in stored
    order, that is an exact match. *)
Theorem same_normal_form_same_answer m1 m2 dataset row :
  row ∈ dataset -> exact_match m1 row ->
  normalize_text m2 = normalize_text m1 ->
  exists pre r post,
    dataset = pre ++ r :: post
    /\ exact_match m1 r
    /\ (forall r', r' ∈ pre -> ~ exact_match m1 r')
    /\ find_intent_response m1 dataset = Some (result_of r)
    /\ find_intent_response m2 dataset = Some (result_of r).
Proof.
  intros Hin Hx Hn.
  assert (Hx2 : exact_match m2 row) by (destruct Hx; split; congruence).
  pose proof (exact_match_nonempty _ _ Hx) as Hne1.
  pose proof (exact_match_nonempty _ _ Hx2) as Hne2.
  unfold find_intent_response.
  destruct m1 as [|c1 t1] eqn:E1; [done|]. destruct m2 as [|c2 t2] eqn:E2; [done|].
  rewrite <- E1, <- E2 in *. rewrite Hn.
  destruct (find (exact_hit (normalize_text m1)) dataset) as [r|] eqn:Ef.
  - apply find_split in Ef as (pre & post & -> & Hhit & Hpre).
    exists pre, r, post. split; [done|]. split; [by apply exact_hit_spec|].
    split; [|done]. intros r' Hr' Hm. apply exact_hit_spec in Hm.
    by rewrite (Hpre r' Hr') in Hm.
  - apply exact_hit_spec in Hx. by rewrite (find_none_elem _ _ _ Ef Hin) in Hx.
Qed.

Lemma same_normal_form_same_answer_witness :
  exists pre r post,
    [mk_row (py "Check balance.") (py "check_balance") (py "Sure") [];
     mk_row (py "check balance") (py "other") (py "Later") []]
    = pre ++ r :: post
    /\ exact_match (py "Check Balance!") r
    /\ (forall r', r' ∈ pre -> ~ exact_match (py "Check Balance!") r')
    /\ find_intent_response (py "Check Balance!")
         [mk_row (py "Check balance.") (py "check_balance") (py "Sure") [];
          mk_row (py "check balance") (py "other") (py "Later") []]
       = Some (result_of r)
    /\ find_intent_response (py "  check   BALANCE?? ")
         [mk_row (py "Check balance.") (py "check_balance") (py "Sure") [];
          mk_row (py "check balance") (py "other") (py "Later") []]
       = Some (result_of r).
Proof.
  refine (same_normal_form_same_answer (py "Check Balance!")
            (py "  check   BALANCE?? ") _
            (mk_row (py "check balance") (py "other") (py "Later") [])
            _ _ _).
  - right. left.
  - split; vm_compute; [discriminate|reflexivity].
  - vm_compute. reflexivity.
Defined.

(** The answer in the witness is that of the first of the two rows. *)
Example same_normal_form_first_row :
  find_intent_response (py "  check   BALANCE?? ")
    [mk_row (py "Check balance.") (py "check_balance") (py "Sure") [];
     mk_row (py "check balance") (py "other") (py "Later") []]
  = Some {| m_intent := py "check_balance"; m_response := py "Sure"; m_entities := [] |}.
Proof. vm_compute. reflexivity. Qed.

(** *** Digits survive normalisation *)

Lemma digit_lower c : Char.is_digit c = true -> Char.lower c = c.
Proof. by_char c. Qed.

Lemma digit_not_space c : Char.is_digit c = true -> Char.is_space c = false.
Proof. by_char c. Qed.

Lemma digit_allowed c : Char.is_digit c = true -> Char.allowed c = true.
Proof. by_char c. Qed.

Lemma elem_of_lower_digit d s :
  Char.is_digit d = true -> d ∈ s -> d ∈ Str.lower s.
Proof.
  intros Hd Hin. unfold Str.lower. rewrite <- (digit_lower d Hd).
  by apply list_elem_of_fmap_2.
Qed.

Lemma elem_of_strip d s :
  Char.is_space d = false -> d ∈ s -> d ∈ Str.strip s.
Proof.
  intros Hd Hin. unfold Str.strip.
  destruct (lstrip_suffix s) as (ws1 & Hs & Hws1).
  destruct (rstrip_prefix (Str.lstrip s)) as (ws2 & Hm & Hws2).
  rewrite Hs, Hm in Hin. rewrite Forall_forall in Hws1. rewrite Forall_forall in Hws2.
  apply elem_of_app in Hin as [Hin|Hin]; [specialize (Hws1 _ Hin); congruence|].
  apply elem_of_app in Hin as [Hin|Hin]; [done|specialize (Hws2 _ Hin); congruence].
Qed.

(** A character that is not in [old] is not lost by a replacement. *)
Lemma elem_of_replace_go d old new s : forall skip,
  old <> [] -> d ∉ old ->
  (exists p, old = p ++ take skip s) ->
  d ∈ s -> d ∈ Str.replace_go old new skip s.
Proof.
  induction s as [|c s IH]; intros skip Hne Hd Hinv Hin; [inversion Hin|].
  cbn [Str.replace_go]. destruct skip as [|k].
  - destruct (Str.starts_with old (c :: s)) eqn:Hsw.
    + apply starts_with_spec in Hsw as [t Ht]. destruct old as [|o old]; [done|].
      simpl in Ht. injection Ht as <- ->.
      apply elem_of_app. right. apply IH; [done|done| |].
      * exists [c]. simpl. by rewrite take_app_length.
      * apply elem_of_cons in Hin as [->|Hin]; [|done]. exfalso. apply Hd. left.
    + apply elem_of_cons in Hin as [->|Hin]; [left|right].
      apply IH; [done|done|by exists old; rewrite take_0, app_nil_r|done].
  - destruct Hinv as [p Hp]. simpl in Hp.
    assert (c ∈ old) by (rewrite Hp; apply elem_of_app; right; left).
    apply IH; [done|done| |].
    + exists (p ++ [c]). by rewrite <- app_assoc.
    + apply elem_of_cons in Hin as [->|Hin]; [done|done].
Qed.

Lemma elem_of_replace d old new s :
  old <> [] -> d ∉ old -> d ∈ s -> d ∈ Str.replace old new s.
Proof.
  intros Hne Hd Hin. apply elem_of_replace_go; [done|done| |done].
  exists old. by rewrite take_0, app_nil_r.
Qed.

Lemma runs_nonempty p s c : c ∈ s -> p c = true -> Str.runs p s <> [].
Proof.
  induction s as [|x s IH]; intros Hin Hc; [inversion Hin|].
  destruct (p x) eqn:Hx.
  - unfold Str.runs. simpl. destruct (Str.runs_aux p s). by rewrite Hx.
  - rewrite runs_cons_false by done. apply IH; [|done].
    apply elem_of_cons in Hin as [->|Hin]; [congruence|done].
Qed.

Lemma join_nonempty sep l :
  l <> [] -> Forall (fun t => t <> []) l -> Str.join sep l <> [].
Proof.
  intros Hne Hl. destruct Hl as [|t l Ht Hl]; [done|].
  destruct t; [done|]. by destruct l.
Qed.

(** A text that holds a digit has a non-empty normal form. *)
Lemma normalize_digit_nonempty d s :
  Char.is_digit d = true -> d ∈ s -> normalize_text s <> [].
Proof.
  intros Hd Hin. unfold normalize_text. destruct s as [|c0 s0] eqn:Es; [inversion Hin|].
  rewrite <- Es in *. clear c0 s0 Es.
  assert (H1 : d ∈ Str.strip (Str.lower s)).
  { apply elem_of_strip; [by apply digit_not_space|by apply elem_of_lower_digit]. }
  assert (Hno : forall old, Forall (fun c => Char.is_digit c = false) old -> d ∉ old).
  { intros old Hold Hin'. rewrite Forall_forall in Hold. specialize (Hold _ Hin'). congruence. }
  assert (H2 : d ∈ Str.replace (py "what's") (py "what is") (Str.strip (Str.lower s))).
  { apply elem_of_replace; [done| |done]. apply Hno. vm_compute. repeat constructor. }
  assert (H3 : d ∈ Str.replace (py "it's") (py "it is")
                 (Str.replace (py "what's") (py "what is") (Str.strip (Str.lower s)))).
  { apply elem_of_replace; [done| |done]. apply Hno. vm_compute. repeat constructor. }
  assert (H4 : d ∈ Str.replace (py "i'm") (py "i am")
                 (Str.replace (py "it's") (py "it is")
                    (Str.replace (py "what's") (py "what is") (Str.strip (Str.lower s))))).
  { apply elem_of_replace; [done| |done]. apply Hno. vm_compute. repeat constructor. }
  set (f := List.filter Char.allowed _).
  assert (H5 : d ∈ f).
  { subst f. apply list_elem_of_In, filter_In. split; [by apply list_elem_of_In|].
    by apply digit_allowed. }
  apply join_nonempty.
  - apply (runs_nonempty _ f d H5). by rewrite digit_not_space.
  - eapply Forall_impl; [apply runs_Forall|]. by intros t [Ht _].
Qed.

Lemma normalize_strip text : normalize_text (Str.strip text) = normalize_text text.
Proof. rewrite <- (normalize_lower (Str.strip text)). apply normalize_lower_strip. Qed.

Lemma elem_of_infix (d : ascii) a v b : d ∈ v -> d ∈ a ++ v ++ b.
Proof. intros H. apply elem_of_app. right. apply elem_of_app. by left. Qed.

(** A numeric match needs a digit in the utterance. *)
Lemma numeric_match_digit user_message row :
  numeric_match user_message row = true ->
  exists d, Char.is_digit d = true /\ d ∈ user_message.
Proof.
  unfold numeric_match. intros H. apply andb_true_iff in H as [_ H].
  apply existsb_exists in H as (val & _ & H).
  apply andb_true_iff in H as [H Hwhere]. apply andb_true_iff in H as [_ Hdig].
  apply existsb_exists in Hdig as (d & Hd & Hdd). apply list_elem_of_In in Hd.
  exists d. split; [done|].
  assert (Hrun : forall r, r ∈ Re.findall_digits user_message -> d ∈ r -> d ∈ user_message).
  { intros r Hr Hdr. pose proof (runs_subseteq Char.is_digit user_message) as Hsub.
    rewrite Forall_forall in Hsub. by apply (Hsub r Hr). }
  apply orb_true_iff in Hwhere as [Hwhere|Hwhere];
    [apply orb_true_iff in Hwhere as [Hwhere|Hwhere]|].
  - apply contains_spec in Hwhere as (a & b & ->). by apply elem_of_infix.
  - apply contains_spec in Hwhere as (a & b & E).
    assert (Hin : d ∈ concat (Re.findall_digits user_message))
      by (rewrite E; by apply elem_of_infix).
    apply list_elem_of_In, in_concat in Hin as (r & Hr & Hdr).
    apply (Hrun r); by apply list_elem_of_In.
  - apply bool_decide_eq_true in Hwhere. by apply (Hrun val).
Qed.

Lemma overlap_empty_norm user_message row :
  normalize_text user_message = [] -> overlap user_message row = 0%nat.
Proof.
  intros H. unfold overlap. rewrite H, tokens_nil, (right_absorb_L ∅ (∩)).
  apply size_empty.
Qed.

(** The matcher finds nothing when no row is an exact match or a numeric
    match and no row shares a token with the utterance. *)
Lemma matcher_none_intro user_message dataset :
  (forall row, row ∈ dataset -> ~ answers user_message row) ->
  find_intent_response user_message dataset = None.
Proof.
  intros H. unfold find_intent_response. destruct user_message as [|c m] eqn:Em; [done|].
  rewrite <- Em in *. clear c m Em.
  rewrite find_none_all.
  2:{ intros r Hr. destruct (exact_hit _ r) eqn:E; [|done].
      destruct (H r Hr). left. by apply exact_hit_spec. }
  rewrite find_none_all.
  2:{ intros r Hr. destruct (numeric_hit _ r) eqn:E; [|done].
      destruct (H r Hr). right. left. by rewrite <- numeric_hit_spec. }
  destruct (best_overlap_spec user_message dataset)
    as [[-> _]|(pre & r & post & -> & Hres & Hpos & _)]; [done|].
  destruct (H r); [|by right; right]. apply elem_of_app. right. left.
Qed.

(** An utterance whose normal form is empty answers to no row. *)
Lemma empty_normal_form_no_match user_message dataset :
  normalize_text user_message = [] ->
  find_intent_response user_message dataset = None.
Proof.
  intros Hn. apply matcher_none_intro. intros row _ [[Hne Heq]|[Hnum|Hov]].
  - apply Hne. by rewrite Heq.
  - apply numeric_match_digit in Hnum as (d & Hd & Hin).
    by apply (normalize_digit_nonempty d user_message).
  - rewrite overlap_empty_norm in Hov by done. lia.
Qed.

(** The same stage by stage: stage 1 and stage 3 need a token of the normal
    form, stage 2 a digit of the utterance. *)
Lemma digitless_empty_no_match user_message dataset :
  normalize_text user_message = [] ->
  Re.findall_digits user_message = [] ->
  find_intent_response user_message dataset = None.
Proof.
  intros Hn Hd. apply matcher_none_intro. intros row _ [[Hne Heq]|[Hnum|Hov]].
  - apply Hne. by rewrite Heq.
  - apply numeric_match_digit in Hnum as (d & Hdig & Hin).
    by apply (runs_nonempty Char.is_digit user_message d).
  - rewrite overlap_empty_norm in Hov by done. lia.
Qed.

Lemma strip_subseteq s : Str.strip s ⊆ s.
Proof.
  unfold Str.strip. destruct (lstrip_suffix s) as (ws & Hs & _).
  destruct (rstrip_prefix (Str.lstrip s)) as (ws' & Hs' & _).
  intros c Hc. rewrite Hs, Hs'. apply elem_of_app. right. apply elem_of_app. by left.
Qed.

Lemma findall_digits_strip s :
  Re.findall_digits s = [] -> Re.findall_digits (Str.strip s) = [].
Proof.
  intros H. destruct (Re.findall_digits (Str.strip s)) as [|r rs] eqn:E; [done|].
  assert (Hr : r ∈ Re.findall_digits (Str.strip s)) by (rewrite E; left).
  pose proof (runs_Forall Char.is_digit (Str.strip s)) as HF.
  pose proof (runs_subseteq Char.is_digit (Str.strip s)) as HS.
  rewrite Forall_forall in HF, HS. destruct (HF r Hr) as [Hne Hdig].
  destruct r as [|d r]; [done|].
  destruct (runs_nonempty Char.is_digit s d); [|by inversion Hdig|done].
  apply strip_subseteq, (HS _ Hr). left.
Qed.

Section TurnScope.

Context {Balance : Type}.
Implicit Types (user : @User Balance) (st : @State Balance).

(** X5. A message that holds no decimal digit and whose normal form is
    empty (it is made of punctuation, white space and other characters that
    the normaliser drops) is never matched: whatever the corpus, the turn
    answers with the out-of-scope reply. *)
Theorem empty_normal_form_out_of_scope io uid user message st :
  normalize_text (default [] message) = [] ->
  Re.findall_digits (default [] message) = [] ->
  find_intent_response (Str.strip (default [] message)) (dataset (store st)) = None
  /\ (chat_turn io uid user message st).2 = Returned fallback_reply.
Proof.
  intros Hn Hd.
  assert (H : find_intent_response (Str.strip (default [] message)) (dataset (store st)) = None).
  { apply digitless_empty_no_match; [by rewrite normalize_strip|].
    by apply findall_digits_strip. }
  split; [done|]. by rewrite (chat_turn_no_match io uid user message st H).
Qed.

End TurnScope.

Lemma empty_normal_form_out_of_scope_witness :
  (chat_turn IoOk (py "1") demo_user (Some (py " ?!... ")) demo_state).2
  = Returned fallback_reply.
Proof.
  refine (proj2 (empty_normal_form_out_of_scope IoOk (py "1") demo_user
                   (Some (py " ?!... ")) demo_state _ _)).
  - vm_compute. reflexivity.
  - vm_compute. reflexivity.
Defined.

(** ** The entity extractor *)

(** The three fields after [extract_entities], for an annotation that is
    not empty. *)
Lemma extract_entities_fields text entities_str :
  entities_str <> [] ->
  account_number (extract_entities text entities_str)
  = from_option Some (Re.search_bounded Char.is_digit 6 text)
      (annotated (py "ACCOUNT_NUMBER") entities_str)
  /\ amount (extract_entities text entities_str)
     = from_option Some (Re.search_bounded Char.is_digit 1 text)
         (annotated (py "MONEY") entities_str)
  /\ person (extract_entities text entities_str)
     = from_option Some (Re.search_bounded Char.is_ascii_alpha 2 text)
         (annotated (py "PERSON") entities_str).
Proof.
  intros Hne. unfold extract_entities. destruct entities_str as [|c0 s0] eqn:Es; [done|].
  rewrite <- Es. clear Hne. unfold annotated.
  pose proof (fold_annotate_field account_number _ annotate_account_number
                (Str.split_on "|" entities_str) no_entities) as Ha.
  pose proof (fold_annotate_field amount _ annotate_amount
                (Str.split_on "|" entities_str) no_entities) as Hm.
  pose proof (fold_annotate_field person _ annotate_person
                (Str.split_on "|" entities_str) no_entities) as Hp.
  change (account_number no_entities) with (@None pystr) in Ha.
  change (amount no_entities) with (@None pystr) in Hm.
  change (person no_entities) with (@None pystr) in Hp.
  destruct (fold_left annotate _ no_entities) as [ea em ep].
  cbn [account_number amount person] in Ha, Hm, Hp. subst ea em ep.
  destruct (last (omap (segment_value (py "ACCOUNT_NUMBER")) _)) as [va|];
  destruct (last (omap (segment_value (py "MONEY")) _)) as [vm|];
  destruct (last (omap (segment_value (py "PERSON")) _)) as [vp|];
  cbn [from_option account_number amount person];
  destruct (Re.search_bounded Char.is_digit 6 text);
  destruct (Re.search_bounded Char.is_digit 1 text);
  destruct (Re.search_bounded Char.is_ascii_alpha 2 text);
  unfold set_account_number, set_amount, set_person;
  cbn [from_option account_number amount person]; done.
Qed.

(** A string without white space at either end. *)
Lemma trimmed_nonspace s :
  Forall (fun c => Char.is_space c = false) s -> Str.strip s = s.
Proof.
  intros H. rewrite Forall_forall in H. apply strip_id; intros c Hc; apply H.
  - destruct s; [done|]. injection Hc as ->. left.
  - by apply last_Some_elem_of.
Qed.

Lemma alpha_not_space c : Char.is_ascii_alpha c = true -> Char.is_space c = false.
Proof. by_char c. Qed.

Lemma segment_value_trimmed key ent v :
  segment_value key ent = Some v -> v <> [] /\ Str.strip v = v.
Proof.
  unfold segment_value. destruct (Str.has_char ":" ent); [|done].
  destruct (Str.split_once ":" ent) as [k x].
  destruct (bool_decide _ && Str.nonempty (Str.strip x)) eqn:E; [|done].
  intros [= <-]. apply andb_true_iff in E as [_ E]. apply nonempty_true in E.
  split; [done|apply strip_idemp].
Qed.

Lemma annotated_trimmed key entities_str v :
  annotated key entities_str = Some v -> v <> [] /\ Str.strip v = v.
Proof.
  unfold annotated. intros H. apply last_Some_elem_of in H.
  apply list_elem_of_omap in H as (ent & _ & H). by apply (segment_value_trimmed key ent).
Qed.

Lemma search_bounded_trimmed cls lo text r :
  (1 <= lo)%nat -> (forall c, cls c = true -> Char.is_space c = false) ->
  Re.search_bounded cls lo text = Some r -> r <> [] /\ Str.strip r = r.
Proof.
  intros Hlo Hcls H. pose proof (search_bounded_spec cls lo text) as S.
  rewrite H in S. destruct S as (a & b & (_ & Hr & Hlen & _) & _). split.
  - intros ->. simpl in Hlen. lia.
  - apply trimmed_nonspace. eapply Forall_impl; [exact Hr|]. exact Hcls.
Qed.

(** Every field that the extractor sets is clean: not empty and without
    white space at either end. *)
Lemma extract_entities_clean text entities_str :
  clean_entities (extract_entities text entities_str).
Proof.
  destruct (decide (entities_str = [])) as [->|Hne]; [done|].
  unfold clean_entities.
  destruct (extract_entities_fields text entities_str Hne) as (-> & -> & ->).
  split; [|split].
  - destruct (annotated (py "ACCOUNT_NUMBER") entities_str) as [x|] eqn:E; simpl.
    + by apply (annotated_trimmed _ _ _ E).
    + destruct (Re.search_bounded Char.is_digit 6 text) as [r|] eqn:Er; [|done].
      eapply search_bounded_trimmed; [|apply digit_not_space|exact Er]; lia.
  - destruct (annotated (py "MONEY") entities_str) as [x|] eqn:E; simpl.
    + by apply (annotated_trimmed _ _ _ E).
    + destruct (Re.search_bounded Char.is_digit 1 text) as [r|] eqn:Er; [|done].
      eapply search_bounded_trimmed; [|apply digit_not_space|exact Er]; lia.
  - destruct (annotated (py "PERSON") entities_str) as [x|] eqn:E; simpl.
    + by apply (annotated_trimmed _ _ _ E).
    + destruct (Re.search_bounded Char.is_ascii_alpha 2 text) as [r|] eqn:Er; [|done].
      eapply search_bounded_trimmed; [|apply alpha_not_space|exact Er]; lia.
Qed.

(** X6. Every value that the extractor sets is a non-empty string without
    white space at either end. *)
Theorem extracted_values_trimmed text entities_str v :
  account_number (extract_entities text entities_str) = Some v
  \/ amount (extract_entities text entities_str) = Some v
  \/ person (extract_entities text entities_str) = Some v ->
  v <> [] /\ Str.strip v = v.
Proof.
  destruct (extract_entities_clean text entities_str) as (Ha & Hm & Hp).
  intros [H|[H|H]]; rewrite H in *; assumption.
Qed.

Lemma extracted_values_trimmed_witness :
  py "Bob" <> [] /\ Str.strip (py "Bob") = py "Bob".
Proof.
  apply (extracted_values_trimmed (py "send 50") (py "PERSON:  Bob  |MONEY")).
  right. right. vm_compute. reflexivity.
Defined.

(** X7. When the annotation names no account number and the extractor
    takes one from the utterance, it sets an amount as well. *)
Theorem account_from_text_sets_amount text entities_str v :
  annotated (py "ACCOUNT_NUMBER") entities_str = None ->
  account_number (extract_entities text entities_str) = Some v ->
  exists w, amount (extract_entities text entities_str) = Some w.
Proof.
  intros Hann Hacc. destruct (decide (entities_str = [])) as [->|Hne]; [done|].
  destruct (extract_entities_fields text entities_str Hne) as (Ea & Em & _).
  rewrite Ea, Hann in Hacc. simpl in Hacc. rewrite Em.
  destruct (annotated (py "MONEY") entities_str) as [x|]; simpl; [by eexists|].
  pose proof (search_bounded_spec Char.is_digit 6 text) as S6.
  pose proof (search_bounded_spec Char.is_digit 1 text) as S1.
  rewrite Hacc in S6. destruct S6 as (a & b & (Ht & Hr & Hlen & Hb1 & Hb2) & _).
  destruct (Re.search_bounded Char.is_digit 1 text) as [w|]; [by eexists|].
  exfalso. apply (S1 a v b). repeat split; [done|done|lia|done|done].
Qed.

Lemma account_from_text_sets_amount_witness :
  exists w, amount (extract_entities (py "pay 50 to 123456") (py "ACCOUNT_NUMBER|MONEY"))
            = Some w.
Proof.
  apply (account_from_text_sets_amount (py "pay 50 to 123456") (py "ACCOUNT_NUMBER|MONEY")
           (py "123456")); vm_compute; reflexivity.
Defined.

Lemma fold_annotate_filter segs : forall e,
  fold_left annotate segs e
  = fold_left annotate (List.filter (Str.has_char ":") segs) e.
Proof.
  induction segs as [|x segs IH]; intros e; [done|]. simpl.
  destruct (Str.has_char ":" x) eqn:E; simpl; [apply IH|].
  rewrite <- IH. f_equal. unfold annotate. by rewrite E.
Qed.

(** X8. The segments of an annotation that hold no colon play no part: two
    non-empty annotations with the same segments that hold one give the same
    entities. *)
Theorem segments_without_colon_ignored text ann1 ann2 :
  ann1 <> [] -> ann2 <> [] ->
  List.filter (Str.has_char ":") (Str.split_on "|" ann1)
  = List.filter (Str.has_char ":") (Str.split_on "|" ann2) ->
  extract_entities text ann1 = extract_entities text ann2.
Proof.
  intros H1 H2 Hsame. unfold extract_entities.
  destruct ann1 as [|c1 t1] eqn:E1; [done|]. destruct ann2 as [|c2 t2] eqn:E2; [done|].
  rewrite <- E1, <- E2 in Hsame |- *.
  by rewrite (fold_annotate_filter (Str.split_on "|" ann1)),
             (fold_annotate_filter (Str.split_on "|" ann2)), Hsame.
Qed.

Lemma segments_without_colon_ignored_witness :
  extract_entities (py "hello there") (py "MONEY:5|oops||PERSON:Al|ACCOUNT_NUMBER")
  = extract_entities (py "hello there") (py "MONEY:5|PERSON:Al").
Proof.
  apply segments_without_colon_ignored; [discriminate|discriminate|].
  vm_compute. reflexivity.
Defined.

(** ** The reply and the turn *)

Lemma balance_reply_trimmed v : Str.strip (balance_reply v) = balance_reply v.
Proof.
  apply strip_id.
  - by intros c [= <-].
  - unfold balance_reply. rewrite !app_assoc. change (py ".") with ["."%char].
    rewrite last_snoc. by intros c [= <-].
Qed.

(** The reply of a matched turn never has white space at either end. *)
Lemma synthesize_reply_trimmed result entities user_message dataset :
  Str.strip (synthesize result entities user_message dataset).1
  = (synthesize result entities user_message dataset).1.
Proof.
  unfold synthesize.
  destruct (Str.nonempty (Str.strip (m_response result))) eqn:E1.
  { cbn [fst]. rewrite E1. apply strip_idemp. }
  apply nonempty_false in E1. rewrite E1.
  assert (Hlast : forall e : Entities,
    Str.strip (if Str.nonempty [] then [] else
                 match Re.findall_digits user_message with
                 | d :: _ => balance_reply d
                 | [] => []
                 end, e).1
    = (if Str.nonempty [] then [] else
         match Re.findall_digits user_message with
         | d :: _ => balance_reply d
         | [] => []
         end, e).1).
  { intros e. cbn [Str.nonempty fst].
    destruct (Re.findall_digits user_message); [done|apply balance_reply_trimmed]. }
  destruct (truthy (amount entities)).
  { cbn [fst]. rewrite balance_reply_nonempty. apply balance_reply_trimmed. }
  destruct (Str.nonempty (default [] (account_number entities))); [|apply Hlast].
  destruct (paired_money _ dataset); [|apply Hlast].
  cbn [fst]. rewrite balance_reply_nonempty. apply balance_reply_trimmed.
Qed.

(** The result of the append on the store: nothing; or, with a failing
    write, the residue in the log; or the new row at the end of the corpus,
    whose key was not there, and its record at the end of the log. *)
Lemma append_store_cases io text intent response entities_str st :
  let st' := (append_to_dataset_row io text intent response entities_str st).1 in
  st' = st
  \/ (exists residue, io = IoErrWrite residue
       /\ st' = {| dataset := dataset st; csv_log := csv_log st ++ residue |})
  \/ (io = IoOk
      /\ ((Some text, Some intent, Some entities_str) ∉ row_key <$> dataset st)
      /\ st' = {| dataset := dataset st ++ [mk_row text intent response entities_str];
                  csv_log := csv_log st
                             ++ (match csv_log st with [] => [csv_header] | _ => [] end)
                             ++ [[text; intent; response; entities_str]] |}).
Proof.
  unfold append_to_dataset_row.
  destruct (existsb _ (dataset st)) eqn:E; [by destruct io; left|].
  apply existsb_same_key_false in E. destruct io as [| |residue].
  - right. right. cbn [fst]. by destruct (csv_log st).
  - by left.
  - right. left. by exists residue.
Qed.

Lemma append_dataset_cases io text intent response entities_str st :
  dataset (append_to_dataset_row io text intent response entities_str st).1 = dataset st
  \/ (dataset (append_to_dataset_row io text intent response entities_str st).1
      = dataset st ++ [mk_row text intent response entities_str]
      /\ ((Some text, Some intent, Some entities_str) ∉ row_key <$> dataset st)
      /\ io = IoOk).
Proof.
  destruct (append_store_cases io text intent response entities_str st)
    as [->|[(residue & _ & ->)|(Hio & Hkey & ->)]]; [by left|by left|by right].
Qed.

Lemma append_log_prefix io text intent response entities_str st :
  csv_log st `prefix_of`
    (csv_log (append_to_dataset_row io text intent response entities_str st).1).
Proof.
  unfold append_to_dataset_row.
  destruct (existsb _ (dataset st)); destruct io; simpl; try done;
    by apply prefix_app_r.
Qed.

Section TurnShape.

Context {Balance : Type}.
Implicit Types (user : @User Balance) (st : @State Balance).

(** A matched turn, spelled out. *)
Lemma chat_turn_matched io uid user message st result :
  find_intent_response (Str.strip (default [] message)) (dataset (store st)) = Some result ->
  let um := Str.strip (default [] message) in
  let sy := synthesize result (extract_entities um (m_entities result)) um
              (dataset (store st)) in
  let es := derive_entities_str sy.2 sy.1 in
  let data :=
    <[uid := add_conversation
               {| c_user := um; c_bot := sy.1; c_intent := m_intent result |}
               (merge_entities sy.2 (default (new_facts user) (user_data st !! uid)))]>
      (user_data st) in
  chat_turn io uid user message st
  = ({| store := if Str.nonempty es
                 then (append_to_dataset_row io um (m_intent result) sy.1 es (store st)).1
                 else store st;
        user_data := data; user_file := data |},
     Returned {| reply := sy.1; intent := m_intent result;
                 intent_color := get_intent_color (m_intent result) |}).
Proof.
  intros H um sy es data. subst um sy es data. unfold chat_turn. rewrite H.
  destruct (synthesize _ _ _ _) as [bot_reply entities]. cbn [fst snd].
  destruct (Str.nonempty (derive_entities_str entities bot_reply)); [|done].
  by destruct (append_to_dataset_row _ _ _ _ _ _) as [s' [b|]].
Qed.

Lemma merge_entities_frame entities (u : @UserFacts Balance) :
  uf_conversations (merge_entities entities u) = uf_conversations u
  /\ uf_balance (merge_entities entities u) = uf_balance u.
Proof.
  unfold merge_entities.
  by destruct (account_number entities), (amount entities), (person entities).
Qed.

(** X11. A turn never removes or changes a row of the corpus: the
    in-memory corpus stays as it is or gains one row at its end, made of the
    trimmed message, the intent and reply returned and a non-empty entities
    string, with a key that no earlier row has; and the log only grows. *)
Theorem turn_corpus_append_only io uid user message st :
  let st' := (chat_turn io uid user message st).1 in
  (dataset (store st') = dataset (store st)
   \/ exists r es,
        (chat_turn io uid user message st).2 = Returned r
        /\ es <> []
        /\ dataset (store st')
           = dataset (store st)
             ++ [mk_row (Str.strip (default [] message)) (intent r) (reply r) es]
        /\ (Some (Str.strip (default [] message)), Some (intent r), Some es)
           ∉ row_key <$> dataset (store st))
  /\ csv_log (store st) `prefix_of` (csv_log (store st')).
Proof.
  intros st'. subst st'.
  destruct (find_intent_response (Str.strip (default [] message)) (dataset (store st)))
    as [result|] eqn:E.
  - rewrite (chat_turn_matched io uid user message st result E). cbn [fst snd store].
    destruct (Str.nonempty (derive_entities_str _ _)) eqn:Ees; [|by split; [left|]].
    split; [|apply append_log_prefix].
    destruct (append_dataset_cases io (Str.strip (default [] message)) (m_intent result)
                (synthesize result
                   (extract_entities (Str.strip (default [] message)) (m_entities result))
                   (Str.strip (default [] message)) (dataset (store st))).1
                (derive_entities_str
                   (synthesize result
                      (extract_entities (Str.strip (default [] message)) (m_entities result))
                      (Str.strip (default [] message)) (dataset (store st))).2
                   (synthesize result
                      (extract_entities (Str.strip (default [] message)) (m_entities result))
                      (Str.strip (default [] message)) (dataset (store st))).1)
                (store st)) as [Hsame|(Hnew & Hkey & _)]; [by left|].
    right. eexists _, _. split; [reflexivity|]. cbn [reply intent].
    split; [by apply nonempty_true|]. by split.
  - rewrite (chat_turn_no_match io uid user message st E). by split; [left|].
Qed.

End TurnShape.

Lemma fresh_snoc loaded appended row :
  appended_fresh loaded appended ->
  row_key row ∉ row_key <$> (loaded ++ appended) ->
  appended_fresh loaded (appended ++ [row]).
Proof.
  intros [Hnd Hfresh] Hno. rewrite fmap_app, not_elem_of_app in Hno.
  destruct Hno as [Hno1 Hno2]. split.
  - rewrite fmap_app. apply NoDup_app. split; [done|]. split.
    + intros k Hk Hk'. apply list_elem_of_singleton in Hk'. by subst k.
    + apply NoDup_singleton.
  - intros r Hr. apply elem_of_app in Hr as [Hr|Hr]; [by apply Hfresh|].
    apply list_elem_of_singleton in Hr. by subst r.
Qed.

Lemma find_app_some {A} (f : A -> bool) l1 l2 x :
  find f l1 = Some x -> find f (l1 ++ l2) = Some x.
Proof.
  induction l1 as [|y l1 IH]; [done|]. simpl. by destruct (f y).
Qed.

Lemma find_app_none {A} (f : A -> bool) l1 l2 :
  find f l1 = None -> find f (l1 ++ l2) = find f l2.
Proof.
  induction l1 as [|y l1 IH]; [done|]. simpl. by destruct (f y).
Qed.

Section Sessions.

Context {Balance : Type}.
Implicit Types (user : @User Balance) (st : @State Balance).

(** What a turn does to the store: nothing; or a failed write leaves its
    residue in the log; or the row of the turn is appended. *)
Lemma turn_store_cases io uid user message st :
  let st' := (chat_turn io uid user message st).1 in
  let um := Str.strip (default [] message) in
  store st' = store st
  \/ (exists residue, io = IoErrWrite residue
       /\ store st' = {| dataset := dataset (store st);
                         csv_log := csv_log (store st) ++ residue |})
  \/ (exists result,
        find_intent_response um (dataset (store st)) = Some result
        /\ let sy := synthesize result (extract_entities um (m_entities result)) um
                       (dataset (store st)) in
           let es := derive_entities_str sy.2 sy.1 in
           es <> [] /\ io = IoOk
           /\ (row_key (mk_row um (m_intent result) sy.1 es) ∉ row_key <$> dataset (store st))
           /\ store st'
              = {| dataset := dataset (store st) ++ [mk_row um (m_intent result) sy.1 es];
                   csv_log := csv_log (store st)
                              ++ (match csv_log (store st) with
                                  | [] => [csv_header]
                                  | _ => []
                                  end)
                              ++ [[um; m_intent result; sy.1; es]] |}).
Proof.
  intros st' um. subst st' um.
  destruct (find_intent_response (Str.strip (default [] message)) (dataset (store st)))
    as [result|] eqn:E.
  - rewrite (chat_turn_matched io uid user message st result E). cbn [fst store].
    destruct (Str.nonempty (derive_entities_str _ _)) eqn:Ees; [|by left].
    match goal with
    | |- context [append_to_dataset_row io ?t ?i ?r ?e ?s] =>
        destruct (append_store_cases io t i r e s)
          as [Hsame|[(residue & Hio & Hres)|(Hio & Hkey & Hnew)]]
    end.
    + by left.
    + right. left. by exists residue.
    + right. right. exists result. split; [done|]. cbn zeta.
      split; [by apply nonempty_true|]. by repeat split.
  - rewrite (chat_turn_no_match io uid user message st E). by left.
Qed.

(** What a turn does to the in-memory corpus. *)
Lemma turn_dataset_cases io uid user message st :
  dataset (store (chat_turn io uid user message st).1) = dataset (store st)
  \/ exists result row,
       find_intent_response (Str.strip (default [] message)) (dataset (store st))
       = Some result
       /\ dataset (store (chat_turn io uid user message st).1) = dataset (store st) ++ [row]
       /\ r_text row = Some (Str.strip (default [] message))
       /\ r_intent row = Some (m_intent result)
       /\ row_key row ∉ row_key <$> dataset (store st).
Proof.
  destruct (turn_store_cases io uid user message st)
    as [->|[(residue & _ & ->)|(result & Hfind & _ & _ & Hkey & ->)]];
    [by left|by left|].
  right. eexists result, _. by repeat split.
Qed.

(** X12. Over any sequence of chat requests, with a file system that may
    fail at any of them, the rows appended to the corpus keep distinct keys,
    different from the keys of the rows loaded at start-up, and the rows
    that were there stay in place. *)
Theorem serve_keeps_appended_fresh (requests : list (@Request Balance)) st loaded appended :
  dataset (store st) = loaded ++ appended ->
  appended_fresh loaded appended ->
  exists added,
    dataset (store (serve requests st)) = loaded ++ appended ++ added
    /\ appended_fresh loaded (appended ++ added).
Proof.
  revert st appended. induction requests as [|q qs IH]; intros st appended Hds Hfresh.
  - exists []. by rewrite app_nil_r.
  - cbn [serve fold_left].
    destruct (turn_dataset_cases (q_io q) (q_user_id q) (q_user q) (q_message q) st)
      as [Hsame|(result & row & _ & Hnew & _ & _ & Hkey)].
    + apply (IH _ appended); [by rewrite Hsame|done].
    + destruct (IH (chat_turn (q_io q) (q_user_id q) (q_user q) (q_message q) st).1
                  (appended ++ [row])) as (added & Hd & Hf).
      * by rewrite Hnew, Hds, <- app_assoc.
      * apply fresh_snoc; [done|]. by rewrite <- Hds.
      * exists (row :: added). rewrite <- app_assoc in Hd. rewrite <- app_assoc in Hf.
        by split.
Qed.

(** X13. What the corpus learns from a turn never changes the intent of
    the message it learnt from: right after a matched turn the same message
    is matched again, with the same intent. *)
Theorem learned_intent_stable io uid user message st result :
  find_intent_response (Str.strip (default [] message)) (dataset (store st)) = Some result ->
  exists result',
    find_intent_response (Str.strip (default [] message))
      (dataset (store (chat_turn io uid user message st).1)) = Some result'
    /\ m_intent result' = m_intent result.
Proof.
  intros Hfind.
  destruct (turn_dataset_cases io uid user message st)
    as [->|(result0 & row & Hfind0 & -> & Htext & Hintent & _)]; [by exists result|].
  rewrite Hfind in Hfind0. injection Hfind0 as <-.
  set (um := Str.strip (default [] message)) in *.
  assert (Hnorm : normalize_text um <> []).
  { intros Hn. by rewrite (empty_normal_form_no_match um _ Hn) in Hfind. }
  assert (Hrow : exact_hit (normalize_text um) row = true).
  { apply exact_hit_spec. unfold exact_match. by rewrite Htext. }
  unfold find_intent_response in Hfind |- *.
  destruct um as [|c m] eqn:Eum; [done|]. rewrite <- Eum in *.
  destruct (find (exact_hit (normalize_text um)) (dataset (store st))) as [r|] eqn:E1.
  - rewrite (find_app_some _ _ [row] _ E1). by exists result.
  - rewrite (find_app_none _ _ [row] E1). cbn [find]. rewrite Hrow.
    exists (result_of row). split; [done|]. unfold result_of. cbn [m_intent].
    by rewrite Hintent.
Qed.

End Sessions.

(** ** Trimmed rows *)

Lemma label_trimmed k v :
  (forall c, head k = Some c -> Char.is_space c = false) -> k <> [] ->
  v <> [] -> Str.strip v = v -> trimmed (k ++ v).
Proof.
  intros Hk Hkne Hvne Hv. apply strip_id.
  - intros c Hc. apply Hk. destruct k; [done|]. exact Hc.
  - intros c Hc. rewrite last_app in Hc.
    destruct (last v) as [x|] eqn:E; [|by apply last_None in E].
    injection Hc as <-. apply (strip_last v). by rewrite Hv.
Qed.

Lemma trimmed_nil : trimmed [].
Proof. done. Qed.

Lemma digit_run_clean d :
  d <> [] -> Forall (fun c => Char.is_digit c = true) d -> d <> [] /\ Str.strip d = d.
Proof.
  intros Hne Hd. split; [done|]. apply trimmed_nonspace.
  eapply Forall_impl; [exact Hd|]. apply digit_not_space.
Qed.

(** The annotation that a turn derives for the corpus is trimmed. *)
Lemma derive_entities_str_trimmed e bot_reply :
  clean_entities e -> trimmed (derive_entities_str e bot_reply).
Proof.
  intros (Ha & Hm & _). unfold derive_entities_str.
  destruct (amount e) as [a|], (account_number e) as [b|]; simpl in Ha, Hm.
  - destruct Ha as [Hb1 Hb2]. cbn [app Str.join].
    change (Str.nonempty ((py "MONEY:" ++ a) ++ py "|" ++ py "ACCOUNT_NUMBER:" ++ b))
      with true. cbv iota.
    replace ((py "MONEY:" ++ a) ++ py "|" ++ py "ACCOUNT_NUMBER:" ++ b)
      with ((py "MONEY:" ++ a ++ py "|" ++ py "ACCOUNT_NUMBER:") ++ b)
      by (by rewrite <- !app_assoc).
    apply label_trimmed; [by intros c [= <-]|done|done|done].
  - destruct Hm as [Hm1 Hm2]. cbn [app Str.join].
    change (Str.nonempty (py "MONEY:" ++ a)) with true. cbv iota.
    apply label_trimmed; [by intros c [= <-]|done|done|done].
  - destruct Ha as [Hb1 Hb2]. cbn [app Str.join].
    change (Str.nonempty (py "ACCOUNT_NUMBER:" ++ b)) with true. cbv iota.
    apply label_trimmed; [by intros c [= <-]|done|done|done].
  - cbn [app Str.join Str.nonempty].
    pose proof (runs_Forall Char.is_digit bot_reply) as Hruns.
    unfold Re.findall_digits. destruct (Str.runs Char.is_digit bot_reply) as [|d ds];
      [apply trimmed_nil|].
    inversion Hruns as [|? ? [Hne Hd] _]; subst.
    destruct (digit_run_clean d Hne Hd) as [? ?].
    apply label_trimmed; [by intros c [= <-]|done|done|done].
Qed.

Lemma paired_money_digits acct dataset m :
  paired_money acct dataset = Some m ->
  m <> [] /\ Forall (fun c => Char.is_digit c = true) m.
Proof.
  intros H. pose proof (paired_money_spec acct dataset) as S. rewrite H in S.
  destruct S as (pre & row & post & _ & (_ & _ & (a & b & (_ & Hne & Hd & _) & _)) & _).
  by split.
Qed.

(** The entities stay clean through the making of the reply. *)
Lemma synthesize_clean result e user_message dataset :
  clean_entities e -> clean_entities (synthesize result e user_message dataset).2.
Proof.
  intros He. unfold synthesize.
  destruct (Str.nonempty (Str.strip (m_response result))); [done|].
  destruct (truthy (amount e)); [done|].
  destruct (Str.nonempty (default [] (account_number e))); [|done].
  destruct (paired_money _ dataset) as [m|] eqn:E; [|done].
  cbn [snd]. destruct He as (Ha & _ & Hp). split; [done|]. split; [|done].
  cbn [set_amount amount clean].
  destruct (paired_money_digits _ _ _ E) as [Hne Hd]. by apply digit_run_clean.
Qed.

Lemma matcher_result_row user_message dataset res :
  find_intent_response user_message dataset = Some res ->
  exists row, row ∈ dataset /\ res = result_of row.
Proof.
  unfold find_intent_response. destruct user_message as [|c m] eqn:Em; [done|].
  rewrite <- Em. clear c m Em.
  destruct (find (exact_hit _) dataset) as [row|] eqn:E1.
  { intros [= <-]. apply find_some_elem in E1 as [Hin _]. by exists row. }
  destruct (find (numeric_hit _) dataset) as [row|] eqn:E2.
  { intros [= <-]. apply find_some_elem in E2 as [Hin _]. by exists row. }
  destruct (best_overlap_spec user_message dataset)
    as [[-> Hz]|(pre & row & post & -> & -> & _)]; [done|].
  destruct (1 <=? overlap user_message row)%nat; [|done].
  intros [= <-]. exists row. split; [|done]. apply elem_of_app. right. left.
Qed.

Lemma get_str_trimmed v : trimmed_field v -> trimmed (get_str v).
Proof. by destruct v. Qed.

Lemma matcher_result_trimmed user_message dataset res :
  Forall trimmed_row dataset ->
  find_intent_response user_message dataset = Some res ->
  trimmed (m_intent res) /\ trimmed (m_response res) /\ trimmed (m_entities res).
Proof.
  intros Hds Hfind. apply matcher_result_row in Hfind as (row & Hin & ->).
  rewrite Forall_forall in Hds. destruct (Hds row Hin) as (_ & Hi & Hr & He).
  repeat split; by apply get_str_trimmed.
Qed.

Lemma load_row_trimmed header rec : trimmed_row (load_row header rec).
Proof.
  assert (H : forall k, trimmed_field (loaded_value <$> dict_reader_value header rec k)).
  { intros k. destruct (dict_reader_value header rec k) as [[s|]|]; simpl; [|done|done].
    apply strip_idemp. }
  split; [apply H|]. split; [apply H|]. split; apply H.
Qed.

Lemma load_dataset_rows_trimmed file : Forall trimmed_row (load_dataset file).
Proof.
  destruct file as [[|header records]|]; simpl; try constructor.
  apply Forall_forall. intros row Hrow. apply list_elem_of_In, in_map_iff in Hrow
    as (rec & <- & _). apply load_row_trimmed.
Qed.



(** X14. Every value of every row that [load_dataset] returns is free of
    white space at either end, and the rows are as many as the records with
    fields after the header; without a file, or with a file without records,
    the corpus is empty. *)
Theorem load_dataset_trimmed file :
  Forall trimmed_row (load_dataset file)
  /\ load_dataset None = []
  /\ load_dataset (Some []) = []
  /\ (forall header records,
        length (load_dataset (Some (header :: records)))
        = length (List.filter (fun rec => match rec with [] => false | _ => true end)
                    records)).
Proof.
  split; [apply load_dataset_rows_trimmed|]. split; [done|]. split; [done|].
  intros header records. simpl. apply length_map.
Qed.

Section Restart.

Context {Balance : Type}.
Implicit Types (user : @User Balance) (st : @State Balance).

(** The row that a turn appends is trimmed, on a trimmed corpus. *)
Lemma turn_row_trimmed um result dataset :
  Forall trimmed_row dataset ->
  find_intent_response (Str.strip um) dataset = Some result ->
  let sy := synthesize result (extract_entities (Str.strip um) (m_entities result))
              (Str.strip um) dataset in
  trimmed (Str.strip um) /\ trimmed (m_intent result) /\ trimmed sy.1
  /\ trimmed (derive_entities_str sy.2 sy.1).
Proof.
  intros Hds Hfind sy. subst sy. split; [apply strip_idemp|].
  split; [by destruct (matcher_result_trimmed _ _ _ Hds Hfind)|].
  split; [apply synthesize_reply_trimmed|].
  apply derive_entities_str_trimmed, synthesize_clean, extract_entities_clean.
Qed.

Lemma turn_keeps_trimmed io uid user message st :
  Forall trimmed_row (dataset (store st)) ->
  Forall trimmed_row (dataset (store (chat_turn io uid user message st).1)).
Proof.
  intros Hds.
  destruct (turn_store_cases io uid user message st)
    as [->|[(residue & _ & ->)|(result & Hfind & _ & _ & _ & ->)]]; [done|done|].
  cbn [dataset]. apply Forall_app. split; [done|]. constructor; [|constructor].
  destruct (turn_row_trimmed (default [] message) result _ Hds Hfind) as (H1 & H2 & H3 & H4).
  by repeat split.
Qed.

(** X15. Chat requests keep the corpus trimmed: if no value of the corpus
    has white space at either end, as after [load_dataset], then the same
    holds after any sequence of requests, whatever the file system does. *)
Theorem serve_keeps_trimmed (requests : list (@Request Balance)) st :
  Forall trimmed_row (dataset (store st)) ->
  Forall trimmed_row (dataset (store (serve requests st))).
Proof.
  revert st. induction requests as [|q qs IH]; intros st Hds; [done|].
  cbn [serve fold_left]. apply IH. by apply turn_keeps_trimmed.
Qed.

(** X16. On a trimmed corpus a matched row with a response is answered
    with that very response and with the intent of the row. *)
Theorem trimmed_corpus_reply_verbatim io uid user message st result :
  Forall trimmed_row (dataset (store st)) ->
  find_intent_response (Str.strip (default [] message)) (dataset (store st)) = Some result ->
  m_response result <> [] ->
  (chat_turn io uid user message st).2
  = Returned {| reply := m_response result; intent := m_intent result;
                intent_color := get_intent_color (m_intent result) |}.
Proof.
  intros Hds Hfind Hne.
  rewrite (chat_turn_matched io uid user message st result Hfind). cbn [snd].
  destruct (matcher_result_trimmed _ _ _ Hds Hfind) as (_ & Hr & _).
  do 2 f_equal. unfold synthesize. rewrite Hr.
  apply nonempty_true in Hne. rewrite Hne. cbn [fst]. by rewrite Hne.
Qed.

End Restart.

(** The corpus of the small state is what a restart loads from its file,
    and it is trimmed. *)
Lemma demo_in_sync : in_sync (store demo_state).
Proof. split; [vm_compute; reflexivity|]. right. by eexists. Qed.

Lemma demo_trimmed : Forall trimmed_row (dataset (store demo_state)).
Proof.
  pose proof demo_in_sync as [H _]. rewrite H. apply load_dataset_rows_trimmed.
Qed.

Lemma serve_keeps_appended_fresh_witness :
  let q := {| q_io := IoOk; q_user_id := py "1"; q_user := demo_user;
              q_message := Some (py "Check Balance!") |} in
  exists added,
    dataset (store (serve [q; q] demo_state))
    = dataset (store demo_state) ++ [] ++ added
    /\ appended_fresh (dataset (store demo_state)) ([] ++ added).
Proof.
  intros q. apply (serve_keeps_appended_fresh [q; q] demo_state).
  - by rewrite app_nil_r.
  - split; [constructor|]. intros r Hr. inversion Hr.
Defined.

(** The second of two equal requests adds no row. *)
Example repeated_request_adds_once :
  let q := {| q_io := IoOk; q_user_id := py "1"; q_user := demo_user;
              q_message := Some (py "Check Balance!") |} in
  length (dataset (store (serve [q] demo_state))) = 2%nat
  /\ length (dataset (store (serve [q; q] demo_state))) = 2%nat.
Proof. split; vm_compute; reflexivity. Qed.

Lemma learned_intent_stable_witness :
  exists result',
    find_intent_response (Str.strip (default [] (Some (py "about my balance"))))
      (dataset (store (chat_turn IoOk (py "1") demo_user
                         (Some (py "about my balance")) demo_state).1))
    = Some result'
    /\ m_intent result'
       = m_intent {| m_intent := py "check_balance"; m_response := [];
                     m_entities := py "MONEY:500" |}.
Proof.
  apply (learned_intent_stable IoOk (py "1") demo_user (Some (py "about my balance"))
           demo_state).
  vm_compute. reflexivity.
Defined.

Lemma serve_keeps_trimmed_witness :
  Forall trimmed_row
    (dataset (store (serve
       [{| q_io := IoOk; q_user_id := py "1"; q_user := demo_user;
           q_message := Some (py "  about my balance ") |};
        {| q_io := IoErrWrite [[py " half a row"]]; q_user_id := py "2";
           q_user := demo_user; q_message := Some (py "balance for 123456") |}]
       demo_state))).
Proof. apply serve_keeps_trimmed, demo_trimmed. Defined.

Lemma trimmed_corpus_reply_verbatim_witness :
  let st := {| store := {| dataset := [mk_row (py "hello") (py "greet") (py "Hi there!") []];
                           csv_log := [] |};
               user_data := ∅; user_file := ∅ |} in
  (chat_turn IoOk (py "1") demo_user (Some (py " Hello!! ")) st).2
  = Returned {| reply := py "Hi there!"; intent := py "greet";
                intent_color := get_intent_color (py "greet") |}.
Proof.
  intros st.
  apply (trimmed_corpus_reply_verbatim IoOk (py "1") demo_user (Some (py " Hello!! ")) st
           {| m_intent := py "greet"; m_response := py "Hi there!"; m_entities := [] |}).
  - constructor; [|constructor]. repeat split; vm_compute; reflexivity.
  - vm_compute. reflexivity.
  - discriminate.
Defined.

(** ** The portal *)

Lemma NoDup_fmap_eq {A B} (f : A -> B) (l : list A) x y :
  NoDup (f <$> l) -> x ∈ l -> y ∈ l -> f x = f y -> x = y.
Proof.
  induction l as [|z l IH]; intros Hnd Hx Hy Hf; [inversion Hx|].
  rewrite fmap_cons in Hnd. apply NoDup_cons in Hnd as [Hz Hnd].
  apply elem_of_cons in Hx as [->|Hx]; apply elem_of_cons in Hy as [->|Hy].
  - done.
  - destruct Hz. rewrite Hf. by apply list_elem_of_fmap_2.
  - destruct Hz. rewrite <- Hf. by apply list_elem_of_fmap_2.
  - by apply IH.
Qed.

Lemma find_none_fmap {A B} `{EqDecision B} (f : A -> B) (v : B) (l : list A) :
  find (fun a => bool_decide (f a = v)) l = None -> v ∉ f <$> l.
Proof.
  intros H Hin. apply list_elem_of_fmap in Hin as (a & -> & Ha).
  pose proof (find_none_elem _ _ _ H Ha) as E. simpl in E.
  by rewrite bool_decide_eq_true_2 in E.
Qed.

Section PortalProperties.

Context {Balance : Type} (opening_balance : Balance).
Implicit Types (db : list (@Account Balance)) (a : @Account Balance).

Lemma id_le_max db a : a ∈ db -> (a_id a <= foldr Nat.max 0%nat (a_id <$> db))%nat.
Proof.
  induction db as [|b db IH]; intros Ha; [inversion Ha|].
  rewrite fmap_cons. cbn [foldr].
  apply elem_of_cons in Ha as [->|Ha]; [lia|]. specialize (IH Ha). lia.
Qed.

Lemma next_id_fresh db : next_id db ∉ a_id <$> db.
Proof.
  intros Hin. apply list_elem_of_fmap in Hin as (a & E & Ha).
  pose proof (id_le_max db a Ha). unfold next_id in E. lia.
Qed.

(** X19. Registration keeps the e-mails, the account numbers and the ids
    of the table distinct; it leaves the table as it is, or, for a form whose
    e-mail and account number are new and a commit that succeeds, adds one
    row with the fields of the form and the opening balance, and redirects to
    the login page. *)
Theorem register_keeps_table_ok commit request db :
  table_ok db ->
  table_ok (register opening_balance commit request db).1
  /\ ((register opening_balance commit request db).1 = db
      \/ exists form,
           request = Some form /\ commit = CommitOk
           /\ (f_email form ∉ a_email <$> db)
           /\ (f_account_number form ∉ a_account_number <$> db)
           /\ register opening_balance commit request db
              = (db ++ [new_account opening_balance form db], Redirect (py "login"))).
Proof.
  intros Hok. unfold register. destruct request as [form|]; [|by split; [|left]].
  destruct (by_email (f_email form) db) eqn:E1; [by split; [|left]|].
  destruct (by_account_number (f_account_number form) db) eqn:E2; [by split; [|left]|].
  destruct commit as [|e]; [|by split; [|left]].
  apply find_none_fmap in E1. apply find_none_fmap in E2.
  split; [|right; by exists form].
  destruct Hok as (H1 & H2 & H3). cbn [fst]. unfold table_ok. rewrite !fmap_app.
  repeat split; apply NoDup_app; (split; [done|]); (split; [|apply NoDup_singleton]);
    intros x Hx Hx'; apply list_elem_of_singleton in Hx'; subst x; simpl in Hx.
  - done.
  - done.
  - by apply (next_id_fresh db).
Qed.

(** X20. After a registration that succeeds, a login with the e-mail and
    password of the form succeeds for the new account, and the dashboard of
    that session shows the name and account number of the form and the
    opening balance. *)
Theorem register_then_login form db session :
  (register opening_balance CommitOk (Some form) db).2 = Redirect (py "login") ->
  let db' := (register opening_balance CommitOk (Some form) db).1 in
  let s := {| s_user_id := next_id db; s_username := f_username form |} in
  login (Some (f_email form, f_password form)) db' session
  = (Some s, Redirect (py "dashboard"))
  /\ dashboard db' (Some s)
     = Returned (DashboardPage (f_username form) (f_account_number form) opening_balance).
Proof.
  unfold register.
  destruct (by_email (f_email form) db) eqn:E1; [done|].
  destruct (by_account_number (f_account_number form) db) eqn:E2; [done|].
  intros _. cbn [fst]. split.
  - unfold login, by_credentials. rewrite find_app_none.
    + simpl. by rewrite !bool_decide_eq_true_2.
    + apply find_none_all. intros a Ha.
      pose proof (find_none_elem _ _ _ E1 Ha) as E. simpl in E. by rewrite E.
  - unfold dashboard, by_id. cbn [s_user_id]. rewrite find_app_none.
    + simpl. by rewrite bool_decide_eq_true_2.
    + apply find_none_all. intros a Ha. apply bool_decide_eq_false_2. intros E.
      apply (next_id_fresh db). rewrite <- E. by apply list_elem_of_fmap_2.
Qed.

(** X21. With distinct e-mails in the table, a login with the e-mail and
    password of a row opens the session of that very row, and a login whose
    e-mail and password fit no row is refused and leaves the session as it
    is. *)
Theorem login_spec email password db session :
  table_ok db ->
  (forall a, a ∈ db -> a_email a = email -> a_password a = password ->
     login (Some (email, password)) db session
     = (Some {| s_user_id := a_id a; s_username := a_username a |},
        Redirect (py "dashboard")))
  /\ ((forall a, a ∈ db -> a_email a = email -> a_password a <> password) ->
      login (Some (email, password)) db session
      = (session, Text (py "Invalid email or password!"))).
Proof.
  intros (Hemail & _ & _). unfold login, by_credentials. split.
  - intros a Ha He Hp.
    destruct (find _ db) as [b|] eqn:E.
    + apply find_some_elem in E as [Hb Hhit]. apply andb_true_iff in Hhit as [Hbe _].
      apply bool_decide_eq_true in Hbe.
      assert (b = a) as -> by (apply (NoDup_fmap_eq a_email db); congruence). done.
    + pose proof (find_none_elem _ _ _ E Ha) as Hno. simpl in Hno.
      by rewrite !bool_decide_eq_true_2 in Hno.
  - intros Hno. rewrite find_none_all; [done|]. intros a Ha.
    destruct (decide (a_email a = email)) as [He|He].
    + rewrite (bool_decide_eq_false_2 (a_password a = password)); [apply andb_false_r|].
      by apply Hno.
    + by rewrite (bool_decide_eq_false_2 (a_email a = email)).
Qed.

(** X22. The balance page tells any logged-in user the balance of any
    account whose number is entered, whoever owns it; for a number that no
    row has it says that the account was not found. *)
Theorem check_balance_any_account number db s :
  table_ok db ->
  (forall a, a ∈ db -> a_account_number a = number ->
     check_balance (Some number) db (Some s) = BalancePage (Some (inl (a_balance a))))
  /\ (number ∉ a_account_number <$> db ->
      check_balance (Some number) db (Some s)
      = BalancePage (Some (inr (py "Account not found!")))).
Proof.
  intros (_ & Hnum & _). unfold check_balance, by_account_number. split.
  - intros a Ha Hn. destruct (find _ db) as [b|] eqn:E.
    + apply find_some_elem in E as [Hb Hhit]. apply bool_decide_eq_true in Hhit.
      assert (b = a) as -> by (apply (NoDup_fmap_eq a_account_number db); congruence). done.
    + pose proof (find_none_elem _ _ _ E Ha) as Hno. simpl in Hno.
      by rewrite bool_decide_eq_true_2 in Hno.
  - intros Hno. rewrite find_none_all; [done|]. intros a Ha.
    apply bool_decide_eq_false_2. intros E. apply Hno. rewrite <- E.
    by apply list_elem_of_fmap_2.
Qed.

End PortalProperties.

(** A small table to run the portal on. *)
Lemma demo_table_ok : table_ok demo_table.
Proof.
  repeat split; vm_compute;
    repeat (apply NoDup_cons_2;
            [intros H; repeat (apply elem_of_cons in H as [H|H]; [discriminate H|]);
             inversion H|]);
    apply NoDup_nil_2.
Qed.

Lemma register_keeps_table_ok_witness :
  table_ok (register 5000 CommitOk (Some demo_form) demo_table).1
  /\ ((register 5000 CommitOk (Some demo_form) demo_table).1 = demo_table
      \/ exists form,
           Some demo_form = Some form /\ CommitOk = CommitOk
           /\ (f_email form ∉ a_email <$> demo_table)
           /\ (f_account_number form ∉ a_account_number <$> demo_table)
           /\ register 5000 CommitOk (Some demo_form) demo_table
              = (demo_table ++ [new_account 5000 form demo_table], Redirect (py "login"))).
Proof. apply (register_keeps_table_ok 5000 CommitOk (Some demo_form) demo_table demo_table_ok). Defined.

Lemma register_then_login_witness :
  let db' := (register 5000 CommitOk (Some demo_form) demo_table).1 in
  let s := {| s_user_id := 3; s_username := py "chen" |} in
  login (Some (py "chen@example.com", py "pw3")) db' None
  = (Some s, Redirect (py "dashboard"))
  /\ dashboard db' (Some s)
     = Returned (DashboardPage (py "chen") (py "700800900") 5000).
Proof.
  apply (register_then_login 5000 demo_form demo_table None).
  vm_compute. reflexivity.
Defined.

Lemma login_spec_witness :
  login (Some (py "ben@example.com", py "pw2")) demo_table None
  = (Some {| s_user_id := 2; s_username := py "ben" |}, Redirect (py "dashboard")).
Proof.
  refine (proj1 (login_spec (py "ben@example.com") (py "pw2") demo_table None
                   demo_table_ok)
            {| a_id := 2; a_username := py "ben"; a_email := py "ben@example.com";
               a_password := py "pw2"; a_account_number := py "400500600";
               a_account_type := py "current"; a_balance := 120 |} _ _ _).
  - right. left.
  - reflexivity.
  - reflexivity.
Defined.

Lemma check_balance_any_account_witness :
  check_balance (Some (py "400500600")) demo_table
    (Some {| s_user_id := 1; s_username := py "asha" |})
  = BalancePage (Some (inl 120)).
Proof.
  refine (proj1 (check_balance_any_account (py "400500600") demo_table
                   {| s_user_id := 1; s_username := py "asha" |} demo_table_ok)
            {| a_id := 2; a_username := py "ben"; a_email := py "ben@example.com";
               a_password := py "pw2"; a_account_number := py "400500600";
               a_account_type := py "current"; a_balance := 120 |} _ _).
  - right. left.
  - reflexivity.
Defined.

Section Facts.

Context {Balance : Type}.
Implicit Types (user : @User Balance) (st : @State Balance).

(** X23. A matched turn writes the entities it ends with into the record
    of the user: an account number replaces the account number of the
    record, whatever it was; an amount becomes the amount and the last
    amount; a person becomes the person and the last recipient; and what is
    not extracted leaves these fields as they were. *)
Theorem turn_sets_facts io uid user message st result :
  find_intent_response (Str.strip (default [] message)) (dataset (store st)) = Some result ->
  let um := Str.strip (default [] message) in
  let e := (synthesize result (extract_entities um (m_entities result)) um
              (dataset (store st))).2 in
  let u0 := default (new_facts user) (user_data st !! uid) in
  exists u',
    user_data (chat_turn io uid user message st).1 !! uid = Some u'
    /\ uf_account_number u' = default (uf_account_number u0) (account_number e)
    /\ uf_amount u' = from_option Some (uf_amount u0) (amount e)
    /\ uf_last_amount u' = from_option Some (uf_last_amount u0) (amount e)
    /\ uf_person u' = from_option Some (uf_person u0) (person e)
    /\ uf_last_recipient u' = from_option Some (uf_last_recipient u0) (person e).
Proof.
  intros Hfind um e u0. subst um e u0.
  rewrite (chat_turn_matched io uid user message st result Hfind).
  cbn [fst user_data]. eexists. split; [apply lookup_insert_eq|].
  set (e := (synthesize _ _ _ _).2). set (u0 := default _ _).
  cbn [add_conversation uf_account_number uf_amount uf_last_amount uf_person
       uf_last_recipient].
  unfold merge_entities.
  destruct (account_number e), (amount e), (person e); by repeat split.
Qed.

End Facts.

Lemma turn_sets_facts_witness :
  exists u',
    user_data (chat_turn IoOk (py "1") demo_user (Some (py "balance of 400500600 for Ben"))
                 demo_state).1 !! py "1" = Some u'
    /\ uf_account_number u' = py "400500600"
    /\ uf_amount u' = Some (py "500")
    /\ uf_last_amount u' = Some (py "500")
    /\ uf_person u' = Some (py "balance")
    /\ uf_last_recipient u' = Some (py "balance").
Proof.
  apply (turn_sets_facts IoOk (py "1") demo_user (Some (py "balance of 400500600 for Ben"))
           demo_state
           {| m_intent := py "check_balance"; m_response := [];
              m_entities := py "MONEY:500" |}).
  vm_compute. reflexivity.
Defined.
(** * The route *)

Section Route.

Context {Balance : Type}.
Implicit Types (user : option (@User Balance)) (st : @State Balance).

(** Line 346 gives a string exactly for a JSON object whose message is a
    string or missing, and raises on every other body. *)
Lemma message_of_spec body m :
  message_of body = Returned m <-> exists s, string_message body s /\ m = Str.strip s.
Proof.
  unfold message_of, string_message. split.
  - destruct body as [[| | | | |members]|]; try done.
    destruct (dict_get (py "message") members) as [[| | |s| |]|] eqn:E; try done.
    + intros [= <-]. exists s. split; [|done]. exists members. split; [done|by left].
    + intros [= <-]. exists []. split; [|done]. exists members. split; [done|by right].
  - intros (s & (members & -> & [E|[E ->]]) & ->); by rewrite E.
Qed.


Lemma facts_of_known uid user st :
  (exists facts, facts_of uid user st = Returned facts) <-> known_user uid user st.
Proof.
  unfold facts_of, known_user. destruct (user_data st !! uid) as [f|].
  - split; [intros _; left; by eexists|intros _; by eexists].
  - destruct user as [u|].
    + split; [intros _; right; by eexists|intros _; by eexists].
    + split; [by intros [? ?]|]. by intros [[? ?]|[? ?]].
Qed.

(** On a request that the route accepts, [chat] is the turn: with the row
    of the user, or, when the table has none, with any row, the record of
    the user being there. *)
Lemma chat_served uid user body s facts st :
  string_message body s -> facts_of uid user st = Returned facts ->
  exists u,
    default (new_facts u) (user_data st !! uid) = facts
    /\ (forall io,
          chat io SaveOk (Some uid) user body st
          = ((chat_turn io uid u (Some s) st).1,
             match (chat_turn io uid u (Some s) st).2 with
             | Returned r => Returned (Json r)
             | Raised => Raised
             end))
    /\ (forall io rest,
          chat io (SaveErr rest) (Some uid) user body st
          = ({| store := store st;
                user_data := user_data (chat_turn io uid u (Some s) st).1;
                user_file := rest |}, Raised)).
Proof.
  intros Hs Hf.
  assert (Hm : message_of body = Returned (Str.strip s))
    by (apply message_of_spec; by exists s).
  exists (default {| u_account_number := uf_account_number facts;
                     u_balance := uf_balance facts |} user).
  assert (Hd : default (new_facts (default {| u_account_number := uf_account_number facts;
                                              u_balance := uf_balance facts |} user))
                 (user_data st !! uid) = facts).
  { unfold facts_of in Hf. destruct (user_data st !! uid) as [f|]; [by injection Hf|].
    destruct user as [u|]; [by injection Hf|done]. }
  split; [exact Hd|].
  split; intros io; [|intros rest];
    unfold chat, chat_turn; rewrite Hm, Hf, Hd; change (default [] (Some s)) with s;
    (destruct (find_intent_response (Str.strip s) (dataset (store st))) as [result|];
       [|done]);
    destruct (synthesize _ _ _ _) as [bot_reply entities];
    (destruct (Str.nonempty (derive_entities_str entities bot_reply)); [|done]);
    by destruct (append_to_dataset_row _ _ _ _ _ _) as [s' [b|]].
Qed.

(** The route raises, and leaves everything as it is, on a body that
    line 346 does not take and for a user without record and row. *)
Lemma chat_refused io save uid user body st :
  message_of body = Raised \/ facts_of uid user st = Raised ->
  chat io save (Some uid) user body st = (st, Raised).
Proof.
  unfold chat. intros [H|H].
  - by rewrite H.
  - rewrite H. by destruct (message_of body).
Qed.

Lemma chat_turn_returns io uid (u : @User Balance) message st :
  exists r, (chat_turn io uid u message st).2 = Returned r.
Proof.
  destruct (find_intent_response (Str.strip (default [] message)) (dataset (store st)))
    as [result|] eqn:E.
  - rewrite (chat_turn_matched io uid u message st result E). by eexists.
  - rewrite (chat_turn_no_match io uid u message st E). by eexists.
Qed.


(** What a turn does to the records of the users. *)
Lemma chat_turn_records io uid (u : @User Balance) message st :
  let st' := (chat_turn io uid u message st).1 in
  let u0 := default (new_facts u) (user_data st !! uid) in
  exists r u',
    (chat_turn io uid u message st).2 = Returned r
    /\ user_data st' !! uid = Some u'
    /\ uf_conversations u'
       = uf_conversations u0
         ++ [{| c_user := Str.strip (default [] message);
                c_bot := reply r; c_intent := intent r |}]
    /\ uf_balance u' = uf_balance u0
    /\ intent_color r = get_intent_color (intent r)
    /\ (forall other, other <> uid -> user_data st' !! other = user_data st !! other)
    /\ user_file st' = user_data st'.
Proof.
  intros st' u0. subst st' u0.
  destruct (find_intent_response (Str.strip (default [] message)) (dataset (store st)))
    as [result|] eqn:E.
  - rewrite (chat_turn_matched io uid u message st result E). cbn [fst snd].
    eexists _, _. split; [reflexivity|]. cbn [user_data user_file reply intent intent_color].
    split; [apply lookup_insert_eq|].
    destruct (merge_entities_frame
                (synthesize result
                   (extract_entities (Str.strip (default [] message)) (m_entities result))
                   (Str.strip (default [] message)) (dataset (store st))).2
                (default (new_facts u) (user_data st !! uid))) as [Hc Hb].
    cbn [add_conversation uf_conversations uf_balance]. rewrite Hc, Hb.
    repeat split. intros other Hne. by apply lookup_insert_ne.
  - rewrite (chat_turn_no_match io uid u message st E). cbn [fst snd].
    eexists _, _. split; [reflexivity|]. cbn [user_data user_file].
    split; [apply lookup_insert_eq|]. repeat split.
    intros other Hne. by apply lookup_insert_ne.
Qed.

(** A turn with a failing file system beside the same turn with a working
    one. *)
Lemma turn_failure_cases io uid (u : @User Balance) message st :
  io <> IoOk ->
  let failed := chat_turn io uid u message st in
  let succeeded := chat_turn IoOk uid u message st in
  failed.2 = succeeded.2
  /\ user_data failed.1 = user_data succeeded.1
  /\ user_file failed.1 = user_file succeeded.1
  /\ dataset (store failed.1) = dataset (store st)
  /\ (dataset (store succeeded.1) = dataset (store st) -> store failed.1 = store st)
  /\ (dataset (store succeeded.1) <> dataset (store st) ->
      (exists row, dataset (store succeeded.1) = dataset (store st) ++ [row])
      /\ csv_log (store failed.1)
         = csv_log (store st)
           ++ match io with IoErrWrite residue => residue | _ => [] end).
Proof.
  intros Hio failed succeeded. subst failed succeeded. unfold chat_turn.
  destruct (find_intent_response _ _) as [result|]; [|by repeat split].
  destruct (synthesize _ _ _ _) as [bot_reply entities].
  destruct (Str.nonempty (derive_entities_str entities bot_reply));
    [|by repeat split].
  unfold append_to_dataset_row.
  destruct (existsb _ (dataset (store st))) eqn:Edup.
  - destruct io as [| |residue]; [done| |]; by repeat split.
  - destruct io as [| |residue]; [done| |];
      cbn [fst snd store user_data user_file dataset csv_log].
    + repeat split; [by eexists|by rewrite app_nil_r].
    + repeat split; [|by eexists].
      intros H. apply (f_equal length) in H. rewrite length_app in H.
      cbn [length] in H. lia.
Qed.

(** C7. The claim fails on the code for a message that is [null]: line 346
    calls [strip] on the [None] that [get] returns for it, and the route
    raises instead of answering with the out-of-scope reply; so it does for
    every message that is no string.  For the requests that pass line 346,
    from a user who has a record or a row and with a user file that can be
    written, the claim holds: when the matcher finds nothing the route
    returns the fixed out-of-scope reply with the intent [out_of_scope];
    and the matcher finds nothing for the empty utterance whatever the
    corpus holds, which is the utterance of a body without message and of
    one whose message is blank. *)
Theorem null_message_raises :
  (forall io save uid user st,
      chat io save (Some uid) user (Some (JObject [(py "message", JNull)])) st
      = (st, Raised))
  /\ (forall io save uid user members v st,
        dict_get (py "message") members = Some v ->
        (forall s, v <> JString s) ->
        chat io save (Some uid) user (Some (JObject members)) st = (st, Raised))
  /\ (forall io uid user body s st,
        string_message body s -> known_user uid user st ->
        find_intent_response (Str.strip s) (dataset (store st)) = None ->
        (chat io SaveOk (Some uid) user body st).2 = Returned (Json fallback_reply))
  /\ (forall dataset, find_intent_response [] dataset = None)
  /\ (forall body s,
        string_message body s -> Str.strip s = [] ->
        message_of body = Returned []).
Proof.
  split; [by intros|]. split; [|split; [|split]].
  - intros io save uid user members v st Hv Hs. apply chat_refused. left.
    unfold message_of. rewrite Hv. cbn [default]. destruct v; try done. by destruct (Hs s).
  - intros io uid user body s st Hs Hk Hnone.
    apply facts_of_known in Hk as [facts Hf].
    destruct (chat_served uid user body s facts st Hs Hf) as (u & _ & -> & _).
    by rewrite (chat_turn_no_match io uid u (Some s) st Hnone).
  - exact find_intent_response_empty.
  - intros body s Hs He. rewrite <- He. apply message_of_spec. by exists s.
Qed.


(** X10. A request that the route accepts is answered with a reply and adds
    exactly one entry to the conversations of the user, holding the trimmed
    message and the reply and intent that are returned; the balance of the
    record and the records of other users stay as they are, the colour
    returned is that of the intent returned, and the user file holds the new
    records.  When the user file cannot be written the route raises, with
    the same records in memory. *)
Theorem turn_records_conversation io uid user body s u0 st :
  string_message body s -> facts_of uid user st = Returned u0 ->
  let out := chat io SaveOk (Some uid) user body st in
  (exists r u',
      out.2 = Returned (Json r)
      /\ user_data out.1 !! uid = Some u'
      /\ uf_conversations u'
         = uf_conversations u0
           ++ [{| c_user := Str.strip s; c_bot := reply r; c_intent := intent r |}]
      /\ uf_balance u' = uf_balance u0
      /\ intent_color r = get_intent_color (intent r)
      /\ (forall other, other <> uid -> user_data out.1 !! other = user_data st !! other)
      /\ user_file out.1 = user_data out.1)
  /\ (forall rest,
        chat io (SaveErr rest) (Some uid) user body st
        = ({| store := store st; user_data := user_data out.1; user_file := rest |},
           Raised)).
Proof.
  intros Hs Hf out. subst out.
  destruct (chat_served uid user body s u0 st Hs Hf) as (u & Hu & Hok & Herr).
  rewrite Hok. cbn [fst snd]. split; [|intros rest; by rewrite Herr].
  destruct (chat_turn_records io uid u (Some s) st) as (r & u' & Hr & H).
  rewrite Hu in H. rewrite Hr. by exists r, u'.
Qed.

(** C9, as amended. When the file system fails the corpus append, the
    route behaves as with a working file system: the same reply, intent and
    colour (or the same exception, where the route raises for another
    reason), and the same user records, which hold the extracted entities.
    The in-memory corpus is as it was before the turn.  When the working
    file system would have added no row, the corpus file is as it was as
    well; when it would have added one, the route still returns its reply,
    and the corpus file is as it was but for what the failed write left at
    its end: nothing when the failure came before the write. *)
Theorem append_failure_swallowed io save session user body st :
  io <> IoOk ->
  let failed := chat io save session user body st in
  let succeeded := chat IoOk save session user body st in
  failed.2 = succeeded.2
  /\ user_data failed.1 = user_data succeeded.1
  /\ user_file failed.1 = user_file succeeded.1
  /\ dataset (store failed.1) = dataset (store st)
  /\ (dataset (store succeeded.1) = dataset (store st) -> store failed.1 = store st)
  /\ (dataset (store succeeded.1) <> dataset (store st) ->
      (exists r, failed.2 = Returned (Json r))
      /\ (exists row, dataset (store succeeded.1) = dataset (store st) ++ [row])
      /\ csv_log (store failed.1)
         = csv_log (store st)
           ++ match io with IoErrWrite residue => residue | _ => [] end).
Proof.
  intros Hio failed succeeded. subst failed succeeded.
  destruct session as [uid|]; [|by repeat split].
  destruct (message_of body) as [m|] eqn:Em;
    [|rewrite !chat_refused by (by left); by repeat split].
  apply message_of_spec in Em as (s & Hs & ->).
  destruct (facts_of uid user st) as [facts|] eqn:Ef;
    [|rewrite !chat_refused by (by right); by repeat split].
  destruct (chat_served uid user body s facts st Hs Ef) as (u & _ & Hok & Herr).
  destruct (turn_failure_cases io uid u (Some s) st Hio)
    as (Hr & Hud & Huf & Hds & Hsame & Hgrow).
  destruct save as [|rest].
  - rewrite !Hok. cbn [fst snd]. rewrite Hr.
    split; [done|]. split; [done|]. split; [done|]. split; [done|]. split; [done|].
    intros Hne. destruct (Hgrow Hne) as [Hrow Hlog]. split; [|by split].
    destruct (chat_turn_returns IoOk uid u (Some s) st) as [r ->]. by eexists.
  - rewrite !Herr. cbn [fst snd store user_data user_file]. rewrite Hud. by repeat split.
Qed.

End Route.

(** * The corpus file read back *)












(** *** The values of a turn hold no carriage return when the corpus and
    the message hold none *)

















Section Reload.

Context {Balance : Type}.
Implicit Types (user : @User Balance) (st : @State Balance).





End Reload.

(** ** The route and the reload on the small state *)

Lemma demo_body_message m : string_message (demo_body m) m.
Proof. exists [(py "message", JString m)]. split; [done|by left]. Qed.

Lemma demo_facts_of :
  facts_of (py "1") (Some demo_user) demo_state = Returned demo_facts.
Proof.
  unfold facts_of, demo_state. cbn [user_data]. by rewrite lookup_insert_eq.
Qed.

(** The failing input of C7 on the small state: the message [null] makes
    the route raise, where the missing message and the blank one get the
    out-of-scope reply. *)
Example demo_null_message :
  chat IoOk SaveOk (Some (py "1")) (Some demo_user)
    (Some (JObject [(py "message", JNull)])) demo_state
  = (demo_state, Raised)
  /\ (chat IoOk SaveOk (Some (py "1")) (Some demo_user) (Some (JObject [])) demo_state).2
     = Returned (Json fallback_reply)
  /\ (chat IoOk SaveOk (Some (py "1")) (Some demo_user) (demo_body (py "  ")) demo_state).2
     = Returned (Json fallback_reply).
Proof. repeat split; vm_compute; reflexivity. Qed.


(** A response that is there is the reply, and with neither response nor
    amount the first row that pairs the account number gives the reply. *)
Example synthesize_examples :
  (synthesize {| m_intent := py "greet"; m_response := py "Hi there!"; m_entities := [] |}
     no_entities (py "hello 42") []).1 = py "Hi there!"
  /\ (synthesize {| m_intent := py "check_balance"; m_response := [];
                    m_entities := py "ACCOUNT_NUMBER:123456" |}
        (extract_entities (py "my balance") (py "ACCOUNT_NUMBER:123456"))
        (py "my balance")
        [mk_row (py "a") (py "b") [] (py "ACCOUNT_NUMBER:123456|MONEY:abc");
         mk_row (py "c") (py "d") [] (py "MONEY:700|ACCOUNT_NUMBER:123456")]).1
     = balance_reply (py "700").
Proof. split; vm_compute; reflexivity. Qed.

Lemma append_failure_swallowed_witness :
  let io := IoErrWrite [[py "Check Balance!"; py "check_balance"]] in
  let failed := chat io SaveOk (Some (py "1")) (Some demo_user)
                  (demo_body (py "Check Balance!")) demo_state in
  let succeeded := chat IoOk SaveOk (Some (py "1")) (Some demo_user)
                     (demo_body (py "Check Balance!")) demo_state in
  failed.2 = succeeded.2
  /\ user_data failed.1 = user_data succeeded.1
  /\ user_file failed.1 = user_file succeeded.1
  /\ dataset (store failed.1) = dataset (store demo_state)
  /\ (dataset (store succeeded.1) = dataset (store demo_state) ->
      store failed.1 = store demo_state)
  /\ (dataset (store succeeded.1) <> dataset (store demo_state) ->
      (exists r, failed.2 = Returned (Json r))
      /\ (exists row, dataset (store succeeded.1) = dataset (store demo_state) ++ [row])
      /\ csv_log (store failed.1)
         = csv_log (store demo_state) ++ [[py "Check Balance!"; py "check_balance"]]).
Proof.
  intros io.
  apply (append_failure_swallowed io SaveOk (Some (py "1")) (Some demo_user)
           (demo_body (py "Check Balance!")) demo_state).
  discriminate.
Defined.

(** C9 as stated fails: a write that fails after it has put part of a
    record into the corpus file is swallowed like any other, the reply is
    the same and the in-memory corpus has not grown, but the file has: a
    restart loads one row more than the corpus in memory holds. *)
Lemma append_failure_claimed_counterexample :
  let io := IoErrWrite [[py "Check Balance!"; py "check_balance"]] in
  let failed := chat io SaveOk (Some (py "1")) (Some demo_user)
                  (demo_body (py "Check Balance!")) demo_state in
  (append_to_dataset_row io (py "Check Balance!") (py "check_balance")
     (balance_reply (py "500")) (py "MONEY:500") (store demo_state)).2 = Raised
  /\ failed.2 = Returned (Json {| reply := balance_reply (py "500");
                                  intent := py "check_balance";
                                  intent_color := py "#2196F3" |})
  /\ ~ failure_atomic io SaveOk (Some (py "1")) (Some demo_user)
         (demo_body (py "Check Balance!")) demo_state
  /\ length (dataset (store failed.1)) = 1%nat
  /\ length (load_dataset (Some (read_back (csv_log (store failed.1))))) = 2%nat.
Proof.
  intros io failed. split; [vm_compute; reflexivity|]. split; [vm_compute; reflexivity|].
  split; [|split; vm_compute; reflexivity].
  intros (_ & _ & H). apply (f_equal (fun s => length (csv_log s))) in H.
  vm_compute in H. discriminate.
Qed.

Lemma turn_records_conversation_witness :
  let out := chat IoOk SaveOk (Some (py "1")) (Some demo_user)
               (demo_body (py " xyzzy ")) demo_state in
  (exists r u',
      out.2 = Returned (Json r)
      /\ user_data out.1 !! py "1" = Some u'
      /\ uf_conversations u'
         = uf_conversations demo_facts
           ++ [{| c_user := Str.strip (py " xyzzy "); c_bot := reply r;
                  c_intent := intent r |}]
      /\ uf_balance u' = uf_balance demo_facts
      /\ intent_color r = get_intent_color (intent r)
      /\ (forall other, other <> py "1" ->
            user_data out.1 !! other = user_data demo_state !! other)
      /\ user_file out.1 = user_data out.1)
  /\ (forall rest,
        chat IoOk (SaveErr rest) (Some (py "1")) (Some demo_user)
          (demo_body (py " xyzzy ")) demo_state
        = ({| store := store demo_state; user_data := user_data out.1;
              user_file := rest |}, Raised)).
Proof.
  exact (turn_records_conversation IoOk (py "1") (Some demo_user)
           (demo_body (py " xyzzy ")) (py " xyzzy ") demo_facts demo_state
           (demo_body_message _) demo_facts_of).
Defined.


(** Reading back turns [\r\n] and a lone [\r] into [\n]. *)
Example universal_newlines_demo :
  universal_newlines [ "a"; "013"; "013"; "010"; "b"; "010"; "013" ]%char
  = [ "a"; "010"; "010"; "b"; "010"; "010" ]%char.
Proof. reflexivity. Qed.

(** A message with a carriage return is written as it is and read back with
    a line feed: after it the corpus in memory is not what a restart
    loads. *)
Example carriage_return_breaks_sync :
  ~ in_sync (store (serve
      [{| q_io := IoOk; q_user_id := py "1"; q_user := demo_user;
          q_message := Some [ "b"; "a"; "l"; "013"; "5"; "0"; "0" ]%char |}]
      demo_state)).
Proof. intros [H _]. vm_compute in H. discriminate. Qed.


(** With an earlier record of the same text the short record is loaded all
    the same, and the earlier one answers. *)
Example short_record_shadowed :
  let st := {| store := {| dataset := load_dataset
                                        (Some [csv_header;
                                               [py "Hello"; py "greet"; py "Hi there!"; []];
                                               [py " hello "; py "greet"]]);
                           csv_log := [] |};
               user_data := ∅; user_file := ∅ |} in
  (r_response <$> dataset (store st)) = [Some (py "Hi there!"); Some (py "None")]
  /\ (chat_turn IoOk (py "1") demo_user (Some (py " hello ")) st).2
     = Returned {| reply := py "Hi there!"; intent := py "greet";
                   intent_color := get_intent_color (py "greet") |}.
Proof. split; vm_compute; reflexivity. Qed.
